(** * The signature and position ledger of psar-backtesting

    A shallow embedding of [signatures.py] (Position, Signature,
    SignatureManager), of [file_parser.get_buy_tickers], of the card figures
    of [html_report.py], of the close loop of [bt.py], of
    [config.get_market_status] and of [positions.Position], with the
    properties the specification states about them and further properties
    of the code.

    Conventions of the embedding.
    - A Python [str] is a [string]; text is identified with its UTF-8 bytes,
      so [str.encode()] is the identity and [+] is [append].
    - A Python [float] is an exact rational ([Q]); rounding, infinities and
      NaN are outside the model.  Division is partial, as in Python, where a
      zero divisor raises [ZeroDivisionError].
    - A Python [dict] is an insertion-ordered association list ([dict]).
    - The clock, the market status and the price source are inputs ([Env]);
      the ledger file, the stored run files, the log of price requests and
      the printed lines are explicit state ([World]).
    - A file opened in text mode is written with the line feed as line
      separator, so it holds the string as written, and is read with
      universal newlines.
    - [hashlib.sha256] is SHA-256 as FIPS 180-4 defines it. *)

From Stdlib Require Import List String Ascii ZArith QArith Lia Bool Arith FinFun.
From Stdlib Require Import Sorted Permutation OrderedTypeEx.
Import ListNotations.
Local Open Scope string_scope.

(** ** Python dictionaries *)

Module PyDict.

Definition dict (V : Type) : Type := list (string * V).

Definition empty {V} : dict V := [].

(** [d.get(k)]: the value bound to [k], if any. *)
Fixpoint get {V} (k : string) (d : dict V) : option V :=
  match d with
  | [] => None
  | (k', v) :: d' => if String.eqb k k' then Some v else get k d'
  end.

(** [k in d]. *)
Definition mem {V} (k : string) (d : dict V) : bool :=
  match get k d with Some _ => true | None => false end.

(** [d[k] = v]: an existing key keeps its place, a new key goes last. *)
Fixpoint set {V} (k : string) (v : V) (d : dict V) : dict V :=
  match d with
  | [] => [(k, v)]
  | (k', v') :: d' =>
      if String.eqb k k' then (k', v) :: d' else (k', v') :: set k v d'
  end.

(** [del d[k]] (for a key that is present). *)
Fixpoint del {V} (k : string) (d : dict V) : dict V :=
  match d with
  | [] => []
  | (k', v') :: d' =>
      if String.eqb k k' then del k d' else (k', v') :: del k d'
  end.

Definition keys {V} (d : dict V) : list string := map fst d.
Definition values {V} (d : dict V) : list V := map snd d.
Definition items {V} (d : dict V) : list (string * V) := d.

(** [d.get(k, default)]. *)
Definition get_default {V} (k : string) (default : V) (d : dict V) : V :=
  match get k d with Some v => v | None => default end.

End PyDict.

Import PyDict.

(** ** SHA-256 (FIPS 180-4), the digest behind [hashlib.sha256] *)

Module SHA256.

Local Open Scope Z_scope.

Definition add32 (x y : Z) : Z := (x + y) mod 2 ^ 32.
Definition rotr (n x : Z) : Z :=
  Z.lor (Z.shiftr x n) (Z.shiftl x (32 - n) mod 2 ^ 32).
Definition shr (n x : Z) : Z := Z.shiftr x n.
Definition not32 (x : Z) : Z := Z.lxor x (2 ^ 32 - 1).

Definition Ch (x y z : Z) : Z := Z.lxor (Z.land x y) (Z.land (not32 x) z).
Definition Maj (x y z : Z) : Z :=
  Z.lxor (Z.lxor (Z.land x y) (Z.land x z)) (Z.land y z).
Definition bsig0 (x : Z) : Z := Z.lxor (Z.lxor (rotr 2 x) (rotr 13 x)) (rotr 22 x).
Definition bsig1 (x : Z) : Z := Z.lxor (Z.lxor (rotr 6 x) (rotr 11 x)) (rotr 25 x).
Definition ssig0 (x : Z) : Z := Z.lxor (Z.lxor (rotr 7 x) (rotr 18 x)) (shr 3 x).
Definition ssig1 (x : Z) : Z := Z.lxor (Z.lxor (rotr 17 x) (rotr 19 x)) (shr 10 x).

(** The constants are the first 32 bits of the fractional parts of the
    square roots (initial hash value) and of the cube roots (round
    constants) of the first primes; they are computed here. *)
Fixpoint bisect (fuel : nat) (r : nat) (x lo hi : Z) : Z :=
  match fuel with
  | O => lo
  | S fuel' =>
      let mid := (lo + hi) / 2 in
      if Z.eqb mid lo then lo
      else if Z.leb (mid ^ Z.of_nat r) x then bisect fuel' r x mid hi
      else bisect fuel' r x lo mid
  end.

Definition frac_root (r : nat) (p : Z) : Z :=
  bisect 64 r (p * 2 ^ (32 * Z.of_nat r)) 0 (2 ^ 40) mod 2 ^ 32.

Definition is_prime (n : nat) : bool :=
  forallb (fun d => negb (Nat.eqb (n mod d) 0)) (seq 2 (n - 2)).

Definition first_primes (count : nat) : list Z :=
  firstn count (map Z.of_nat (filter is_prime (seq 2 320))).

Definition H0 : list Z :=
  Eval vm_compute in map (frac_root 2) (first_primes 8).
Definition K : list Z :=
  Eval vm_compute in map (frac_root 3) (first_primes 64).

Definition byte_of_ascii (a : ascii) : Z := Z.of_N (N_of_ascii a).

(** Padding: the byte 0x80, zero bytes up to 56 modulo 64, and the bit
    length as eight big-endian bytes. *)
Fixpoint be_bytes (count : nat) (x : Z) : list Z :=
  match count with
  | O => []
  | S count' => be_bytes count' (x / 256) ++ [x mod 256]
  end.

Definition pad (msg : list Z) : list Z :=
  let len := Z.of_nat (List.length msg) in
  msg ++ [128] ++ repeat 0 (Z.to_nat ((55 - len) mod 64)) ++ be_bytes 8 (8 * len).

Fixpoint words_of_bytes (l : list Z) : list Z :=
  match l with
  | a :: b :: c :: d :: rest =>
      (((a * 256 + b) * 256 + c) * 256 + d) :: words_of_bytes rest
  | _ => []
  end.

Fixpoint blocks (fuel : nat) (ws : list Z) : list (list Z) :=
  match fuel, ws with
  | S fuel', _ :: _ => firstn 16 ws :: blocks fuel' (skipn 16 ws)
  | _, _ => []
  end.

(** The message schedule, most recent word first. *)
Fixpoint schedule (count : nat) (rw : list Z) : list Z :=
  match count with
  | O => rw
  | S count' =>
      let w := add32 (add32 (ssig1 (nth 1 rw 0)) (nth 6 rw 0))
                     (add32 (ssig0 (nth 14 rw 0)) (nth 15 rw 0)) in
      schedule count' (w :: rw)
  end.

Definition state : Type := (Z * Z * Z * Z * Z * Z * Z * Z)%type.

Definition round (s : state) (kw : Z * Z) : state :=
  let '(a, b, c, d, e, f, g, h) := s in
  let t1 := add32 (add32 (add32 h (bsig1 e)) (add32 (Ch e f g) (fst kw))) (snd kw) in
  let t2 := add32 (bsig0 a) (Maj a b c) in
  (add32 t1 t2, a, b, c, add32 d t1, e, f, g).

Definition compress (s : state) (block : list Z) : state :=
  let w := rev (schedule 48 (rev block)) in
  let '(a, b, c, d, e, f, g, h) := fold_left round (combine K w) s in
  let '(a0, b0, c0, d0, e0, f0, g0, h0) := s in
  (add32 a0 a, add32 b0 b, add32 c0 c, add32 d0 d,
   add32 e0 e, add32 f0 f, add32 g0 g, add32 h0 h).

Definition init : state :=
  (nth 0 H0 0 mod 2 ^ 32, nth 1 H0 0 mod 2 ^ 32, nth 2 H0 0 mod 2 ^ 32,
   nth 3 H0 0 mod 2 ^ 32, nth 4 H0 0 mod 2 ^ 32, nth 5 H0 0 mod 2 ^ 32,
   nth 6 H0 0 mod 2 ^ 32, nth 7 H0 0 mod 2 ^ 32).

Definition hash_state (msg : list Z) : state :=
  let ws := words_of_bytes (pad msg) in
  fold_left compress (blocks (List.length ws) ws) init.

(** The digest as one 256-bit number ([int.from_bytes(digest, 'big')]). *)
Definition int_of_state (s : state) : Z :=
  let '(a, b, c, d, e, f, g, h) := s in
  ((((((a * 2 ^ 32 + b) * 2 ^ 32 + c) * 2 ^ 32 + d) * 2 ^ 32 + e) * 2 ^ 32 + f)
     * 2 ^ 32 + g) * 2 ^ 32 + h.

Definition digest_int (s : string) : Z :=
  int_of_state (hash_state (map byte_of_ascii (list_ascii_of_string s))).

Definition hex_digit (x : Z) : ascii :=
  match String.get (Z.to_nat x) "0123456789abcdef" with
  | Some c => c
  | None => "0"%char
  end.

Fixpoint hex (digits : nat) (x : Z) (acc : string) : string :=
  match digits with
  | O => acc
  | S digits' => hex digits' (x / 16) (String (hex_digit (x mod 16)) acc)
  end.

(** [hashlib.sha256(s.encode()).hexdigest()]. *)
Definition hexdigest (s : string) : string := hex 64 (digest_int s) "".

End SHA256.

(** ** Python values: floats, exceptions, the clock *)

(** Code that may raise returns an [option]; [None] is the raised exception. *)
Definition bind {A B} (m : option A) (k : A -> option B) : option B :=
  match m with Some a => k a | None => None end.

Notation "x <- m ;; k" := (bind m (fun x => k))
  (at level 61, m at next level, right associativity).

Definition Qlt_bool (x y : Q) : bool := negb (Qle_bool y x).

(** [x / y] on floats: [ZeroDivisionError] when [y] is zero. *)
Definition truediv (x y : Q) : option Q :=
  if Qeq_bool y 0 then None else Some (x / y)%Q.

(** [sum(xs)]: a left fold from 0. *)
Definition sum (xs : list Q) : Q := fold_left Qplus xs 0%Q.

Definition Q_of_nat (n : nat) : Q := inject_Z (Z.of_nat n).

(** [x or 0] on an optional float: [None] and zero are falsy. *)
Definition or0 (x : option Q) : Q :=
  match x with
  | Some v => if Qeq_bool v 0 then 0%Q else v
  | None => 0%Q
  end.

Record datetime : Type := {
  year : nat; month : nat; day : nat;
  hour : nat; minute : nat; second : nat; microsecond : nat
}.

Definition dec_digit (n : nat) : ascii :=
  match String.get n "0123456789" with Some c => c | None => "0"%char end.

(** [n] in decimal on [width] digits, zero-padded (the [%02d] of strftime). *)
Fixpoint dec (width : nat) (n : nat) (acc : string) : string :=
  match width with
  | O => acc
  | S width' => dec width' (n / 10) (String (dec_digit (n mod 10)) acc)
  end.

(** [now.strftime('%Y%m%d')]. *)
Definition strftime_Ymd (t : datetime) : string :=
  dec 4 (year t) "" ++ dec 2 (month t) "" ++ dec 2 (day t) "".

(** [now.strftime('%Y%m%d_%H%M%S')]. *)
Definition strftime_Ymd_HMS (t : datetime) : string :=
  strftime_Ymd t ++ "_" ++ dec 2 (hour t) "" ++ dec 2 (minute t) ""
    ++ dec 2 (second t) "".

(** [now.strftime('%Y-%m-%d')]. *)
Definition strftime_Y_m_d (t : datetime) : string :=
  dec 4 (year t) "" ++ "-" ++ dec 2 (month t) "" ++ "-" ++ dec 2 (day t) "".

(** [now.isoformat()]. *)
Definition isoformat (t : datetime) : string :=
  strftime_Y_m_d t ++ "T" ++ dec 2 (hour t) "" ++ ":" ++ dec 2 (minute t) ""
    ++ ":" ++ dec 2 (second t) ""
    ++ (if Nat.eqb (microsecond t) 0 then "" else "." ++ dec 6 (microsecond t) "").

(** ** signatures.py: Position *)

Module Position.

Record t : Type := mk {
  ticker : string;
  category : string;
  entry_price : Q;
  entry_date : string;
  entry_type : string;
  status : string;
  exit_price : option Q;
  exit_date : option string;
  exit_reason : option string;
  pnl_pct : option Q;
  pnl_amt : option Q
}.

(** The constructor call [Position(ticker=..., category=..., entry_price=...,
    entry_date=..., entry_type=...)] with the dataclass defaults. *)
Definition new (ticker category : string) (entry_price : Q)
    (entry_date entry_type : string) : t :=
  mk ticker category entry_price entry_date entry_type "open"
     None None None None None.

(** [Position.close] (signatures.py 77-84); [now] is [datetime.now()]. *)
Definition close (self : t) (price : Q) (reason : string) (now : datetime)
    : option t :=
  let amt := (price - entry_price self)%Q in
  pct <- (if Qlt_bool 0 (entry_price self)
          then q <- truediv amt (entry_price self) ;; Some (q * 100)%Q
          else Some 0%Q) ;;
  Some (mk (ticker self) (category self) (entry_price self) (entry_date self)
           (entry_type self) "closed" (Some price)
           (Some (strftime_Y_m_d now)) (Some reason) (Some pct) (Some amt)).

End Position.

(** ** signatures.py: Signature *)

Module Signature.

Record summary : Type := {
  total_positions : nat;
  open_positions : nat;
  closed_positions : nat;
  realized_pnl_pct : Q;
  win_count : nat;
  loss_count : nat;
  win_rate : Q
}.

Record t : Type := mk {
  signature_id : string;
  file_hash : string;
  created_at : string;
  mode : string;
  market_status : string;
  source_file : string;
  positions : dict Position.t;
  output_file : string
}.

Definition with_positions (self : t) (ps : dict Position.t) : t :=
  mk (signature_id self) (file_hash self) (created_at self) (mode self)
     (market_status self) (source_file self) ps (output_file self).

Definition is_open (p : Position.t) : bool := String.eqb (Position.status p) "open".
Definition is_closed (p : Position.t) : bool := String.eqb (Position.status p) "closed".

(** [Signature.get_summary] (signatures.py 131-149).  The P/L values are
    numbers: a float that is not a number, which the source would count
    neither as a winner nor as a loser, is outside the model. *)
Definition get_summary (self : t) : option summary :=
  let open_l := filter is_open (values (positions self)) in
  let closed_l := filter is_closed (values (positions self)) in
  let winners := filter (fun p => Qlt_bool 0 (or0 (Position.pnl_pct p))) closed_l in
  let losers := filter (fun p => Qle_bool (or0 (Position.pnl_pct p)) 0) closed_l in
  let realized_pnl := sum (map (fun p => or0 (Position.pnl_pct p)) closed_l) in
  rate <- (match closed_l with
           | [] => Some 0%Q
           | _ :: _ =>
               q <- truediv (Q_of_nat (List.length winners))
                            (Q_of_nat (List.length closed_l)) ;;
               Some (q * 100)%Q
           end) ;;
  Some {| total_positions := List.length (positions self);
          open_positions := List.length open_l;
          closed_positions := List.length closed_l;
          realized_pnl_pct := realized_pnl;
          win_count := List.length winners;
          loss_count := List.length losers;
          win_rate := rate |}.

(** [Signature.get_open_tickers] (signatures.py 151-153). *)
Definition get_open_tickers (self : t) : list string :=
  map fst (filter (fun tp => is_open (snd tp)) (items (positions self))).

(** [Signature.close_position] (signatures.py 155-160): the new signature
    and the returned flag.  In Python the position is changed in place, so
    the change is seen through every reference to the signature. *)
Definition close_position (self : t) (ticker : string) (price : Q)
    (reason : string) (now : datetime) : option (t * bool) :=
  match get ticker (positions self) with
  | Some p =>
      if is_open p
      then p' <- Position.close p price reason now ;;
           Some (with_positions self (set ticker p' (positions self)), true)
      else Some (self, false)
  | None => Some (self, false)
  end.

End Signature.

(** ** The environment and the state outside the manager *)

(** One entry of [PriceFetcher.get_entry_prices]' result. *)
Record PriceData : Type := { price : Q; date : string; price_type : string }.

(** What a call reads from outside: [datetime.now()] in the operation and
    in [_save], [get_market_status()['description']], and the price source
    behind [PriceFetcher.get_entry_prices]. *)
Record Env : Type := {
  now : datetime;
  now_at_save : datetime;
  market_description : string;
  get_entry_prices : list string -> dict PriceData
}.

(** The content of [SIGNATURES_FILE] as [json.load] sees it: no file, a file
    that is not (yet) a complete JSON document, or the saved document. *)
Inductive file_state : Type :=
| Absent
| Incomplete
| Complete (saved_signatures : list Signature.t) (updated_at : string).

(** ** signatures.py: SignatureManager *)

Module SignatureManager.

Record t : Type := mk {
  signatures : dict Signature.t;   (* signature_id -> Signature *)
  hash_index : dict string         (* file_hash -> signature_id *)
}.

(** The manager together with what its methods touch outside of it:
    [SIGNATURES_FILE], the files under [RUNS_DIR] (by relative path), the
    requests made to the price source, and the lines printed. *)
Record World : Type := mkWorld {
  mgr : t;
  signatures_file : file_state;
  runs : dict string;
  price_requests : list (list string);
  stdout : list string
}.

Definition with_mgr (w : World) (m : t) : World :=
  mkWorld m (signatures_file w) (runs w) (price_requests w) (stdout w).
Definition with_signatures_file (w : World) (f : file_state) : World :=
  mkWorld (mgr w) f (runs w) (price_requests w) (stdout w).
Definition with_runs (w : World) (r : dict string) : World :=
  mkWorld (mgr w) (signatures_file w) r (price_requests w) (stdout w).
Definition with_price_requests (w : World) (l : list (list string)) : World :=
  mkWorld (mgr w) (signatures_file w) (runs w) l (stdout w).
Definition with_stdout (w : World) (l : list string) : World :=
  mkWorld (mgr w) (signatures_file w) (runs w) (price_requests w) l.

(** [SignatureManager._load] (signatures.py 171-180) into the dictionaries
    of [self]; [None] when [json.load] raises. *)
Definition _load (self : t) (file : file_state) : option t :=
  match file with
  | Absent => Some self
  | Incomplete => None
  | Complete sigs _ =>
      Some (fold_left
              (fun m sig =>
                 mk (set (Signature.signature_id sig) sig (signatures m))
                    (set (Signature.file_hash sig) (Signature.signature_id sig)
                         (hash_index m)))
              sigs self)
  end.

(** [SignatureManager.__init__] (signatures.py 166-169). *)
Definition __init__ (file : file_state) : option t := _load (mk empty empty) file.

(** [SignatureManager._save] (signatures.py 182-189) is two effects on
    [SIGNATURES_FILE]: [open(SIGNATURES_FILE, 'w')] truncates the file, then
    [json.dump] writes the whole document into it. *)
Definition open_w (w : World) : World := with_signatures_file w Incomplete.

Definition json_dump (env : Env) (w : World) : World :=
  with_signatures_file w
    (Complete (values (signatures (mgr w))) (isoformat (now_at_save env))).

Definition _save_effects (env : Env) : list (World -> World) :=
  [open_w; json_dump env].

Definition run_effects (effects : list (World -> World)) (w : World) : World :=
  fold_left (fun w' effect => effect w') effects w.

Definition _save (env : Env) (w : World) : World :=
  run_effects (_save_effects env) w.

(** [_save] interrupted after its first [n] effects. *)
Definition _save_interrupted (n : nat) (env : Env) (w : World) : World :=
  run_effects (firstn n (_save_effects env)) w.

(** [SignatureManager.compute_file_hash] (signatures.py 191-197). *)
Definition combined (content mode : string) : string := content ++ ":" ++ mode.

Definition compute_file_hash (content mode : string) : string :=
  "sha256:" ++ SHA256.hexdigest (combined content mode).

(** [SignatureManager.get_by_hash] (signatures.py 199-204). *)
Definition get_by_hash (self : t) (file_hash : string) : option Signature.t :=
  match get file_hash (hash_index self) with
  | Some sig_id => get sig_id (signatures self)
  | None => None
  end.

(** [SignatureManager.get_by_id] (signatures.py 206-221): the result and the
    lines printed. *)
Definition get_by_id (self : t) (signature_id : string)
    : option Signature.t * list string :=
  match get signature_id (signatures self) with
  | Some s => (Some s, [])
  | None =>
      let matches :=
        filter (fun s => String.prefix signature_id s) (keys (signatures self)) in
      if Nat.eqb (List.length matches) 1
      then (get (hd "" matches) (signatures self), [])
      else if Nat.ltb 1 (List.length matches)
      then (None,
            ("Multiple matches for '" ++ signature_id ++ "':")
              :: map (fun m => "  " ++ m) (firstn 5 matches))
      else (None, [])
  end.

Definition in_list (x : string) (l : list string) : bool :=
  existsb (String.eqb x) l.

(** The selection loops of [create_signature] (signatures.py 254-271):
    [buy_tickers] and [ticker_categories]. *)
Definition select_tickers (mode : string) (parsed_stocks : dict (list string))
    : list string * dict string :=
  let add (cat : string) (st : list string * dict string) (t : string) :=
    ((fst st ++ [t])%list, set t cat (snd st)) in
  let st0 : list string * dict string := ([], empty) in
  let st1 :=
    if in_list mode ["strong"; "all"]
    then fold_left (add "strong_buy") (get_default "strong_buys" [] parsed_stocks) st0
    else st0 in
  let st2 :=
    if in_list mode ["early"; "all"]
    then fold_left
           (fun st t => if mem t (snd st) then st else add "early_buy" st t)
           (get_default "early_buys" [] parsed_stocks) st1
    else st1 in
  if String.eqb mode "dividend"
  then fold_left (add "dividend") (get_default "dividends" [] parsed_stocks) st2
  else st2.

(** The position loop of [create_signature] (signatures.py 278-288).  Every
    ticker of [buy_tickers] has a category, so the lookup cannot fail. *)
Definition make_positions (buy_tickers : list string)
    (ticker_categories : dict string) (price_data : dict PriceData)
    : dict Position.t :=
  fold_left
    (fun positions ticker =>
       match get ticker price_data with
       | Some pd =>
           set ticker
               (Position.new ticker (get_default ticker "" ticker_categories)
                             (price pd) (date pd) (price_type pd))
               positions
       | None => positions
       end)
    buy_tickers empty.

(** The identity of a new signature (signatures.py 251): the timestamp and
    [file_hash[7:15]]. *)
Definition new_signature_id (now : datetime) (file_hash : string) : string :=
  strftime_Ymd_HMS now ++ "_" ++ substring 7 8 file_hash.

(** [SignatureManager.create_signature] (signatures.py 223-314). *)
Definition create_signature (env : Env) (file_content source_file mode : string)
    (parsed_stocks : dict (list string)) (w : World)
    : (Signature.t * bool) * World :=
  let file_hash := compute_file_hash file_content mode in
  match get_by_hash (mgr w) file_hash with
  | Some existing => ((existing, false), w)
  | None =>
      let signature_id := new_signature_id (now env) file_hash in
      let '(buy_tickers, ticker_categories) := select_tickers mode parsed_stocks in
      let price_data := get_entry_prices env buy_tickers in
      let w1 := with_price_requests w (price_requests w ++ [buy_tickers])%list in
      let positions := make_positions buy_tickers ticker_categories price_data in
      let output_file := strftime_Ymd (now env) ++ "/" ++ signature_id ++ ".txt" in
      let w2 := with_runs w1 (set output_file file_content (runs w1)) in
      let sig :=
        Signature.mk signature_id file_hash (isoformat (now env)) mode
                     (market_description env) source_file positions output_file in
      let w3 :=
        with_mgr w2 (mk (set signature_id sig (signatures (mgr w2)))
                        (set file_hash signature_id (hash_index (mgr w2)))) in
      ((sig, true), _save env w3)
  end.

(** [SignatureManager.update_signature] (signatures.py 316-319). *)
Definition update_signature (env : Env) (signature : Signature.t) (w : World)
    : World :=
  _save env
    (with_mgr w (mk (set (Signature.signature_id signature) signature
                         (signatures (mgr w)))
                    (hash_index (mgr w)))).

(** [SignatureManager.delete_signature] (signatures.py 363-381); the result
    is [None] when [del self.signatures[...]] raises [KeyError]. *)
Definition delete_signature (env : Env) (signature_id : string) (w : World)
    : option bool * World :=
  let '(found, printed) := get_by_id (mgr w) signature_id in
  let w0 := with_stdout w (stdout w ++ printed)%list in
  match found with
  | None => (Some false, w0)
  | Some sig =>
      let w1 :=
        if String.eqb (Signature.output_file sig) "" then w0
        else with_runs w0 (del (Signature.output_file sig) (runs w0)) in
      let index :=
        if mem (Signature.file_hash sig) (hash_index (mgr w1))
        then del (Signature.file_hash sig) (hash_index (mgr w1))
        else hash_index (mgr w1) in
      let w2 := with_mgr w1 (mk (signatures (mgr w1)) index) in
      if mem (Signature.signature_id sig) (signatures (mgr w2))
      then (Some true,
            _save env
              (with_mgr w2 (mk (del (Signature.signature_id sig)
                                    (signatures (mgr w2)))
                               (hash_index (mgr w2)))))
      else (None, w2)
  end.

(** [results[:limit]] for an integer [limit]: a negative limit drops that
    many items from the end. *)
Definition slice_to {A} (limit : Z) (l : list A) : list A :=
  if (0 <=? limit)%Z then firstn (Z.to_nat limit) l
  else firstn (Z.to_nat (Z.of_nat (List.length l) + limit)) l.

(** [results.sort(key=lambda x: x.created_at, reverse=True)]: a stable sort,
    greatest key first, items with equal keys keeping their order. *)
Fixpoint insert_desc (x : Signature.t) (l : list Signature.t) : list Signature.t :=
  match l with
  | [] => [x]
  | y :: l' =>
      if String.ltb (Signature.created_at x) (Signature.created_at y)
      then y :: insert_desc x l'
      else x :: l
  end.

Definition sort_desc (l : list Signature.t) : list Signature.t :=
  fold_right insert_desc [] l.

(** [SignatureManager.list_all] (signatures.py 321-333); [mode] is [None] or
    a string, and the filter applies when it is non-empty and not all. *)
Definition list_all (self : t) (mode : option string) (limit : Z)
    : list Signature.t :=
  let results := values (signatures self) in
  let results :=
    match mode with
    | Some m =>
        if negb (String.eqb m "") && negb (String.eqb m "all")
        then filter (fun s => String.eqb (Signature.mode s) m) results
        else results
    | None => results
    end in
  slice_to limit (sort_desc results).

(** [SignatureManager.get_all_open_positions] (signatures.py 335-349). *)
Definition get_all_open_positions (self : t)
    : dict (list (string * Position.t)) :=
  fold_left
    (fun open_positions (entry : string * Signature.t) =>
       let '(sig_id, sig) := entry in
       fold_left
         (fun open_positions (tp : string * Position.t) =>
            let '(ticker, pos) := tp in
            if Signature.is_open pos
            then
              let d := if mem ticker open_positions then open_positions
                       else set ticker [] open_positions in
              set ticker (get_default ticker [] d ++ [(sig_id, pos)])%list d
            else open_positions)
         (items (Signature.positions sig)) open_positions)
    (items (signatures self)) empty.

(** What [f.read()] returns for a file opened in text mode ([open(path)],
    universal newlines): every carriage return followed by a line feed, and
    every other carriage return, is read as one line feed. *)
Fixpoint universal_newlines (s : string) : string :=
  match s with
  | EmptyString => EmptyString
  | String c rest =>
      if Ascii.eqb c "013"%char
      then match rest with
           | String c' _ =>
               if Ascii.eqb c' "010"%char then universal_newlines rest
               else String "010"%char (universal_newlines rest)
           | EmptyString => String "010"%char EmptyString
           end
      else String c (universal_newlines rest)
  end.

(** [SignatureManager.get_output_content] (signatures.py 351-361): the
    content, if any, and the lines printed by the lookup.  [runs] holds what
    [create_signature] wrote ([f.write] in text mode, where the line
    separator is the line feed, stores the string as it is); the file is
    read back in text mode. *)
Definition get_output_content (signature_id : string) (w : World)
    : option string * list string :=
  let '(found, printed) := get_by_id (mgr w) signature_id in
  match found with
  | None => (None, printed)
  | Some sig =>
      if String.eqb (Signature.output_file sig) "" then (None, printed)
      else (option_map universal_newlines
              (get (Signature.output_file sig) (runs w)), printed)
  end.

End SignatureManager.

(** ** file_parser.py *)

Module file_parser.

(** The de-duplication loop of [get_buy_tickers] (file_parser.py 266-274). *)
Definition unique (tickers : list string) : list string :=
  snd (fold_left
         (fun st t =>
            if SignatureManager.in_list t (fst st) then st
            else (t :: fst st, (snd st ++ [t])%list))
         tickers ([], [])).

(** [get_buy_tickers] (file_parser.py 241-274). *)
Definition get_buy_tickers (parsed : dict (list string)) (mode : string)
    : list string :=
  let t0 : list string := [] in
  let t1 := if SignatureManager.in_list mode ["strong"; "all"]
            then (t0 ++ get_default "strong_buys" [] parsed)%list else t0 in
  let t2 := if SignatureManager.in_list mode ["early"; "all"]
            then (t1 ++ get_default "early_buys" [] parsed)%list else t1 in
  let t3 := if String.eqb mode "all"
            then (t2 ++ get_default "buys" [] parsed)%list else t2 in
  let t4 := if String.eqb mode "dividend"
            then (t3 ++ get_default "dividends" [] parsed)%list else t3 in
  unique t4.

End file_parser.

(** ** html_report.py *)

Module html_report.

(** The realized average of [generate_signatures_list_html]
    (html_report.py 512-515): the closed positions whose [pnl_pct] is not
    [None], averaged. *)
Definition closed_pnls (sig : Signature.t) : list Q :=
  flat_map
    (fun pos =>
       if Signature.is_closed pos
       then match Position.pnl_pct pos with Some x => [x] | None => [] end
       else [])
    (values (Signature.positions sig)).

Definition avg_realized (sig : Signature.t) : option Q :=
  match closed_pnls sig with
  | [] => Some 0%Q
  | _ :: _ => truediv (sum (closed_pnls sig)) (Q_of_nat (List.length (closed_pnls sig)))
  end.

(** The unrealized returns of [generate_signatures_list_html]
    (html_report.py 500-508): the open positions with a current price, a
    positive entry price and a positive current price. *)
Definition open_pnls (sig : Signature.t) (current_prices : dict Q)
    : option (list Q) :=
  fold_left
    (fun acc (tp : string * Position.t) =>
       l <- acc ;;
       let '(ticker, pos) := tp in
       if Signature.is_open pos && mem ticker current_prices
       then
         let entry := if Qeq_bool (Position.entry_price pos) 0 then 0%Q
                      else Position.entry_price pos in
         let current := get_default ticker 0%Q current_prices in
         if Qlt_bool 0 entry && Qlt_bool 0 current
         then q <- truediv (current - entry)%Q entry ;;
              Some (l ++ [(q * 100)%Q])%list
         else Some l
       else Some l)
    (items (Signature.positions sig)) (Some []).

(** [sum(xs) / len(xs) if xs else 0]. *)
Definition average (xs : list Q) : option Q :=
  match xs with
  | [] => Some 0%Q
  | _ :: _ => truediv (sum xs) (Q_of_nat (List.length xs))
  end.

(** The card figures of [generate_signatures_list_html]
    (html_report.py 498-523): average unrealized, average realized and
    total P/L of one signature. *)
Definition card_pnl (sig : Signature.t) (current_prices : dict Q)
    : option (Q * Q * Q) :=
  opens <- open_pnls sig current_prices ;;
  avg_unrealized <- average opens ;;
  let closed := closed_pnls sig in
  avg_realized <- average closed ;;
  let total_positions := (List.length opens + List.length closed)%nat in
  total_pnl <-
    (if Nat.ltb 0 total_positions
     then truediv (avg_unrealized * Q_of_nat (List.length opens)
                   + avg_realized * Q_of_nat (List.length closed))%Q
                  (Q_of_nat total_positions)
     else Some 0%Q) ;;
  Some (avg_unrealized, avg_realized, total_pnl).

End html_report.

(** ** bt.py *)

Module bt.

(** One turn of the close loop of [cmd_check_sells] (bt.py 336-338): look the
    signature up, close the ticker in it, and store the signature when the
    close succeeded. *)
Definition close_in_signature (env : Env) (sig_id ticker : string) (price : Q)
    (reason : string) (w : SignatureManager.World) : SignatureManager.World :=
  let '(found, printed) := SignatureManager.get_by_id (SignatureManager.mgr w) sig_id in
  let w0 := SignatureManager.with_stdout w (SignatureManager.stdout w ++ printed)%list in
  match found with
  | Some sig =>
      match Signature.close_position sig ticker price reason (now env) with
      | Some (sig', true) => SignatureManager.update_signature env sig' w0
      | _ => w0
      end
  | None => w0
  end.

(** One entry of [closed_details] in [cmd_check_sells] (bt.py 343-349). *)
Record closed_detail : Type := {
  ticker : string;
  signature : string;
  entry : Q;
  exit : Q;
  pnl : Q
}.

(** The close loop of [cmd_check_sells] for one sold ticker (bt.py 335-349):
    [targets] is [all_open.get(ticker, [])], the pairs of an identity and a
    position that [get_all_open_positions] listed before the loop, and
    [closed_count] and [closed_details] are the counters of the command.
    [clock i] holds the clock readings of turn [i].  The second component of
    the result is [None] when a turn raises; the world is then the one the
    turn left behind. *)
Fixpoint close_sold_ticker (clock : nat -> Env) (i : nat) (ticker : string)
    (price : Q) (targets : list (string * Position.t))
    (w : SignatureManager.World) (closed_count : nat)
    (closed_details : list closed_detail)
    : SignatureManager.World * option (nat * list closed_detail) :=
  match targets with
  | [] => (w, Some (closed_count, closed_details))
  | (sig_id, pos) :: rest =>
      let '(found, printed) :=
        SignatureManager.get_by_id (SignatureManager.mgr w) sig_id in
      let w0 :=
        SignatureManager.with_stdout w (SignatureManager.stdout w ++ printed)%list in
      match found with
      | Some sig =>
          match Signature.close_position sig ticker price "sell_signal"
                  (now (clock i)) with
          | Some (sig', true) =>
              let w1 := SignatureManager.update_signature (clock i) sig' w0 in
              match truediv (price - Position.entry_price pos)%Q
                            (Position.entry_price pos) with
              | Some q =>
                  close_sold_ticker clock (S i) ticker price rest w1
                    (S closed_count)
                    (closed_details
                       ++ [{| ticker := ticker; signature := sig_id;
                              entry := Position.entry_price pos;
                              exit := price; pnl := (q * 100)%Q |}])%list
              | None => (w1, None)
              end
          | Some (_, false) =>
              close_sold_ticker clock (S i) ticker price rest w0
                closed_count closed_details
          | None => (w0, None)
          end
      | None =>
          close_sold_ticker clock (S i) ticker price rest w0
            closed_count closed_details
      end
  end.

End bt.

(** ** config.py *)

Module config.

Record market_status : Type := {
  is_open : bool;
  price_type : string;
  reference_date : nat * nat * nat;
  description : string
}.

(** [datetime.time] values compare by hour, minute, second, microsecond. *)
Definition time_of (t : datetime) : list nat :=
  [hour t; minute t; second t; microsecond t].

Fixpoint time_ltb (a b : list nat) : bool :=
  match a, b with
  | x :: a', y :: b' => Nat.ltb x y || (Nat.eqb x y && time_ltb a' b')
  | _, _ => false
  end.

Definition MARKET_OPEN : list nat := [9; 30; 0; 0]%nat.
Definition MARKET_CLOSE : list nat := [16; 0; 0; 0]%nat.

(** [get_market_status] (config.py 33-82); [now_et] is
    [datetime.now(MARKET_TZ)] and [weekday] is [now_et.weekday()], Monday
    being 0. *)
Definition get_market_status (now_et : datetime) (weekday : nat)
    : market_status :=
  let current_date := (year now_et, month now_et, day now_et) in
  if Nat.leb 5 weekday
  then {| is_open := false; price_type := "previous_close";
          reference_date := current_date;
          description := "Weekend - using Friday close" |}
  else if time_ltb (time_of now_et) MARKET_OPEN
  then {| is_open := false; price_type := "previous_close";
          reference_date := current_date;
          description := "Pre-market - using previous close" |}
  else if negb (time_ltb (time_of now_et) MARKET_CLOSE)
  then {| is_open := false; price_type := "close";
          reference_date := current_date;
          description := "After hours - using today close" |}
  else {| is_open := true; price_type := "open";
          reference_date := current_date;
          description := "Market open - using today open" |}.

End config.

(** ** positions.py *)

Module positions.

Record Position : Type := {
  symbol : string;
  value : Q;
  cost_basis : Q;
  num_accounts : Z
}.

(** [Position.pnl_dollar] (positions.py 25-28). *)
Definition pnl_dollar (self : Position) : Q := (value self - cost_basis self)%Q.

(** [Position.pnl_percent] (positions.py 30-35). *)
Definition pnl_percent (self : Position) : option Q :=
  if Qle_bool (cost_basis self) 0 then Some 0%Q
  else q <- truediv (value self - cost_basis self)%Q (cost_basis self) ;;
       Some (q * 100)%Q.

End positions.
(** ** Notions of the specification, and sample data *)

Module Spec.

(** A position's realized P/L percentage, an unset one counting as zero. *)
Definition pnl_or_zero (p : Position.t) : Q :=
  match Position.pnl_pct p with Some x => x | None => 0%Q end.

(** The closed positions of a signature, in dictionary order. *)
Definition closed_of (sig : Signature.t) : list Position.t :=
  filter Signature.is_closed (values (Signature.positions sig)).

(** The sum of the P/L percentages of a list of positions. *)
Fixpoint realized_sum (ps : list Position.t) : Q :=
  match ps with
  | [] => 0%Q
  | p :: rest => (pnl_or_zero p + realized_sum rest)%Q
  end.

(** The positions with a P/L above zero. *)
Definition winners_of (ps : list Position.t) : list Position.t :=
  filter (fun p => Qlt_bool 0 (pnl_or_zero p)) ps.

(** The stored identities that start with [x], in dictionary order. *)
Definition prefix_matches (self : SignatureManager.t) (x : string) : list string :=
  filter (fun s => String.prefix x s) (keys (SignatureManager.signatures self)).

(** What [create_signature] builds when the fingerprint does not resolve. *)
Definition created (env : Env) (content source mode : string)
    (parsed : dict (list string)) : Signature.t :=
  let file_hash := SignatureManager.compute_file_hash content mode in
  let id := SignatureManager.new_signature_id (now env) file_hash in
  let sel := SignatureManager.select_tickers mode parsed in
  Signature.mk id file_hash (isoformat (now env)) mode (market_description env)
    source
    (SignatureManager.make_positions (fst sel) (snd sel)
       (get_entry_prices env (fst sel)))
    (strftime_Ymd (now env) ++ "/" ++ id ++ ".txt").

(** A sequence of [close_position] calls on one signature, each given as
    (ticker, price, reason, time of the call). *)
Definition close_call : Type := (string * Q * string * datetime)%type.

Definition run_close (sig : Signature.t) (c : close_call) : Signature.t :=
  let '(ticker, price, reason, now) := c in
  match Signature.close_position sig ticker price reason now with
  | Some (sig', _) => sig'
  | None => sig
  end.

Definition run_closes (calls : list close_call) (sig : Signature.t) : Signature.t :=
  fold_left run_close calls sig.

(** The mode made of [n] letters a. *)
Fixpoint letters (n : nat) : string :=
  match n with
  | O => ""
  | S n' => String "a"%char (letters n')
  end.

(** A SHA-256 state whose eight words are 32-bit words. *)
Definition words32 (s : SHA256.state) : Prop :=
  let '(a, b, c, d, e, f, g, h) := s in
  (0 <= a < 2 ^ 32 /\ 0 <= b < 2 ^ 32 /\ 0 <= c < 2 ^ 32 /\ 0 <= d < 2 ^ 32
   /\ 0 <= e < 2 ^ 32 /\ 0 <= f < 2 ^ 32 /\ 0 <= g < 2 ^ 32 /\ 0 <= h < 2 ^ 32)%Z.

(** The index and the store are in sync: identities and fingerprints are
    keys once each, every index entry leads to the stored signature with that
    fingerprint, and every stored signature is filed under its own identity
    and indexed by its fingerprint. *)
Definition in_sync (m : SignatureManager.t) : Prop :=
  NoDup (keys (SignatureManager.signatures m))
  /\ NoDup (keys (SignatureManager.hash_index m))
  /\ (forall h id,
        get h (SignatureManager.hash_index m) = Some id ->
        exists sig, get id (SignatureManager.signatures m) = Some sig
                    /\ Signature.file_hash sig = h)
  /\ (forall id sig,
        get id (SignatureManager.signatures m) = Some sig ->
        Signature.signature_id sig = id
        /\ get (Signature.file_hash sig) (SignatureManager.hash_index m) = Some id).

(** The two halves of the invariant in the words of the specification. *)
Definition entries_point_to_signatures (m : SignatureManager.t) : Prop :=
  forall h id,
    get h (SignatureManager.hash_index m) = Some id ->
    exists sig, get id (SignatureManager.signatures m) = Some sig.

Definition fingerprints_indexed_once (m : SignatureManager.t) : Prop :=
  forall id sig,
    get id (SignatureManager.signatures m) = Some sig ->
    count_occ string_dec (keys (SignatureManager.hash_index m))
      (Signature.file_hash sig) = 1%nat.

(** The ledger file holds what the manager holds. *)
Definition file_reflects (w : SignatureManager.World) : Prop :=
  (SignatureManager.signatures_file w = Absent
   /\ SignatureManager.signatures (SignatureManager.mgr w) = [])
  \/ exists ts,
      SignatureManager.signatures_file w
      = Complete (values (SignatureManager.signatures (SignatureManager.mgr w))) ts.

(** The index that [_load] builds from a list of saved signatures. *)
Definition index_of (sigs : list Signature.t) : dict string :=
  fold_left
    (fun d s => set (Signature.file_hash s) (Signature.signature_id s) d)
    sigs [].

Definition consistent (w : SignatureManager.World) : Prop :=
  in_sync (SignatureManager.mgr w) /\ file_reflects w.

(** The operations on the ledger. *)
Inductive op : Type :=
| Create (env : Env) (content source mode : string) (parsed : dict (list string))
| Close (env : Env) (sig_id ticker : string) (price : Q) (reason : string)
| Delete (env : Env) (sig_id : string)
| Restart.

Definition run_op (o : op) (w : SignatureManager.World) : SignatureManager.World :=
  match o with
  | Create env content source mode parsed =>
      snd (SignatureManager.create_signature env content source mode parsed w)
  | Close env sig_id ticker price reason =>
      bt.close_in_signature env sig_id ticker price reason w
  | Delete env sig_id => snd (SignatureManager.delete_signature env sig_id w)
  | Restart =>
      match SignatureManager.__init__ (SignatureManager.signatures_file w) with
      | Some m => SignatureManager.with_mgr w m
      | None => w
      end
  end.

Definition run_ops (ops : list op) (w : SignatureManager.World)
    : SignatureManager.World :=
  fold_left (fun w' o => run_op o w') ops w.

(** A creation does not reuse a stored identity. *)
Definition fresh_identity (o : op) (w : SignatureManager.World) : Prop :=
  match o with
  | Create env content _ mode _ =>
      let h := SignatureManager.compute_file_hash content mode in
      SignatureManager.get_by_hash (SignatureManager.mgr w) h = None ->
      get (SignatureManager.new_signature_id (now env) h)
          (SignatureManager.signatures (SignatureManager.mgr w)) = None
  | _ => True
  end.

Fixpoint all_fresh (ops : list op) (w : SignatureManager.World) : Prop :=
  match ops with
  | [] => True
  | o :: rest => fresh_identity o w /\ all_fresh rest (run_op o w)
  end.

(** The first world: nothing stored, no files. *)
Definition initial : SignatureManager.World :=
  SignatureManager.mkWorld (SignatureManager.mk [] []) Absent [] [] [].

(** The worlds reached from the first one by operations that never reuse a
    stored identity. *)
Inductive reachable : SignatureManager.World -> Prop :=
| reachable_initial : reachable initial
| reachable_step o w : reachable w -> fresh_identity o w -> reachable (run_op o w).

(** The two loops of [get_all_open_positions], one step each. *)
Definition add_open (sig_id : string) (d : dict (list (string * Position.t)))
    (tp : string * Position.t) : dict (list (string * Position.t)) :=
  let '(ticker, pos) := tp in
  if Signature.is_open pos
  then
    let d1 := if mem ticker d then d else set ticker [] d in
    set ticker (get_default ticker [] d1 ++ [(sig_id, pos)])%list d1
  else d.

Definition add_signature (d : dict (list (string * Position.t)))
    (entry : string * Signature.t) : dict (list (string * Position.t)) :=
  let '(sig_id, sig) := entry in
  fold_left (add_open sig_id) (items (Signature.positions sig)) d.

(** Every positions dictionary of the store holds each ticker once, as a
    Python dictionary does. *)
Definition well_keyed (m : SignatureManager.t) : Prop :=
  forall sig_id sig,
    get sig_id (SignatureManager.signatures m) = Some sig ->
    NoDup (keys (Signature.positions sig)).

(** The pairs that one signature adds under a ticker. *)
Definition open_under (t : string) (entry : string * Signature.t)
    : list (string * Position.t) :=
  map (fun tp : string * Position.t => (fst entry, snd tp))
      (filter (fun tp : string * Position.t =>
                 String.eqb t (fst tp) && Signature.is_open (snd tp))
              (items (Signature.positions (snd entry)))).

(** [a] is not older than [b]. *)
Definition not_older (a b : Signature.t) : Prop :=
  String.ltb (Signature.created_at a) (Signature.created_at b) = false.

(** The signatures that [list_all] keeps for a mode. *)
Definition mode_selected (mode : option string) (s : Signature.t) : bool :=
  match mode with
  | Some m =>
      if negb (String.eqb m "") && negb (String.eqb m "all")
      then String.eqb (Signature.mode s) m
      else true
  | None => true
  end.

(** The position that [create_signature] builds for a priced ticker. *)
Definition priced_position (cats : dict string) (t : string) (pd : PriceData)
    : Position.t :=
  Position.new t (get_default t "" cats) (price pd) (date pd) (price_type pd).

(** The items of a list in the order of their first occurrence, each once. *)
Fixpoint first_occurrences (l : list string) : list string :=
  match l with
  | [] => []
  | x :: l' =>
      x :: filter (fun y => negb (String.eqb x y)) (first_occurrences l')
  end.

(** The text holds a carriage return. *)
Fixpoint has_carriage_return (s : string) : bool :=
  match s with
  | EmptyString => false
  | String c rest => Ascii.eqb c "013"%char || has_carriage_return rest
  end.

(** The unrealized returns that a card counts: one for each open position,
    in the order of the positions, whose ticker has a current price and
    whose entry price and current price are both positive. *)
Definition open_returns (sig : Signature.t) (current_prices : dict Q) : list Q :=
  flat_map
    (fun tp : string * Position.t =>
       match get (fst tp) current_prices with
       | Some current =>
           if Signature.is_open (snd tp)
              && Qlt_bool 0 (Position.entry_price (snd tp))
              && Qlt_bool 0 current
           then [((current - Position.entry_price (snd tp))
                    / Position.entry_price (snd tp) * 100)%Q]
           else []
       | None => []
       end)
    (items (Signature.positions sig)).

(** The ticker lists that [get_buy_tickers] joins for a mode. *)
Definition buy_lists (parsed : dict (list string)) (mode : string) : list string :=
  ((if SignatureManager.in_list mode ["strong"; "all"]
    then get_default "strong_buys" [] parsed else [])
   ++ (if SignatureManager.in_list mode ["early"; "all"]
       then get_default "early_buys" [] parsed else [])
   ++ (if String.eqb mode "all" then get_default "buys" [] parsed else [])
   ++ (if String.eqb mode "dividend"
       then get_default "dividends" [] parsed else []))%list.

End Spec.

Module Sample.

Definition t0 : datetime :=
  {| year := 2025; month := 1; day := 1;
     hour := 10; minute := 0; second := 0; microsecond := 0 |}.

Definition t1 : datetime :=
  {| year := 2025; month := 1; day := 6;
     hour := 16; minute := 30; second := 0; microsecond := 0 |}.

(** A signature holding the given positions. *)
Definition sig_with (ps : dict Position.t) : Signature.t :=
  Signature.mk "20250101_100000_ab12cd34" "sha256:ab12cd34" "2025-01-01T10:00:00"
               "strong" "Market open - using today open" "scan.txt" ps
               "20250101/20250101_100000_ab12cd34.txt".

(** A position entered at [entry]. *)
Definition entered (ticker : string) (entry : Q) : Position.t :=
  Position.new ticker "strong_buy" entry "2025-01-01" "open".

(** A position entered at [entry] and closed at [exit]. *)
Definition closed (ticker : string) (entry exit : Q) : Position.t :=
  match Position.close (entered ticker entry) exit "sell_signal" t1 with
  | Some p => p
  | None => entered ticker entry
  end.

(** Three positions entered at 100 and closed at 110, 96 and 106. *)
Definition three_closed : Signature.t :=
  sig_with [("AAA", closed "AAA" 100 110); ("BBB", closed "BBB" 100 96);
            ("CCC", closed "CCC" 100 106)].

(** A signature with the given identity and no positions. *)
Definition sig_id (id : string) : Signature.t :=
  Signature.mk id ("sha256:" ++ id) "2025-01-01T10:00:00" "strong"
               "Market open - using today open" "scan.txt" []
               ("20250101/" ++ id ++ ".txt").

Definition manager_of (sigs : list Signature.t) : SignatureManager.t :=
  SignatureManager.mk
    (map (fun s => (Signature.signature_id s, s)) sigs)
    (map (fun s => (Signature.file_hash s, Signature.signature_id s)) sigs).

(** A store holding the identities 20250101_100000_ab12 and
    20250101_100000_ab13. *)
Definition two_ids : SignatureManager.t :=
  manager_of [sig_id "20250101_100000_ab12"; sig_id "20250101_100000_ab13"].

(** A store holding seven identities with a common prefix. *)
Definition seven_ids : SignatureManager.t :=
  manager_of (map (fun c => sig_id ("20250101_10000" ++ c))
                  ["1"; "2"; "3"; "4"; "5"; "6"; "7"]).

(** A price source that prices every requested ticker at 100. *)
Definition flat_prices (tickers : list string) : dict PriceData :=
  fold_left
    (fun d t => set t {| price := 100; date := "2025-01-01"; price_type := "open" |} d)
    tickers [].

Definition env0 : Env :=
  {| now := t0; now_at_save := t0;
     market_description := "Market open - using today open";
     get_entry_prices := flat_prices |}.

Definition env1 : Env :=
  {| now := t1; now_at_save := t1;
     market_description := "After hours - using today close";
     get_entry_prices := flat_prices |}.

(** A fresh installation: an empty manager, no ledger file, no run files. *)
Definition world0 : SignatureManager.World := Spec.initial.

(** A parsed report with one ticker in each buy category. *)
Definition parsed0 : dict (list string) :=
  [("strong_buys", ["AAPL"]); ("buys", ["NVDA"]); ("early_buys", ["MSFT"]);
   ("dividends", ["KO"]); ("holds", []); ("sells", [])].

(** Two reports whose fingerprints in mode all start with the same eight
    hexadecimal digits, 1a8dc849. *)
Definition report_a : string := "scan 4290".
Definition report_b : string := "scan 101335".

(** Both reports ingested at different times, then a restart and a close. *)
Definition calm_run : list Spec.op :=
  [Spec.Create env0 report_a "a.txt" "all" parsed0;
   Spec.Create env1 report_b "b.txt" "all" parsed0;
   Spec.Restart;
   Spec.Close env1 "20250106" "AAPL" 110 "sell_signal"].

(** Both reports ingested within the same second. *)
Definition same_second : list Spec.op :=
  [Spec.Create env0 report_a "a.txt" "all" parsed0;
   Spec.Create env0 report_b "b.txt" "all" parsed0].

(** A price source that prices every requested ticker at 0. *)
Definition zero_prices (tickers : list string) : dict PriceData :=
  fold_left
    (fun d t => set t {| price := 0; date := "2025-01-01"; price_type := "open" |} d)
    tickers [].

Definition env_zero : Env :=
  {| now := t0; now_at_save := t0;
     market_description := "Market open - using today open";
     get_entry_prices := zero_prices |}.

(** One report ingested while the price source answers 0. *)
Definition zero_run : list Spec.op :=
  [Spec.Create env_zero report_a "a.txt" "strong" parsed0].

Definition zero_world : SignatureManager.World :=
  Spec.run_ops zero_run Spec.initial.

(** Both reports ingested within the same second, then the signature filed
    under their common identity deleted. *)
Definition dangling_run : list Spec.op :=
  (same_second ++ [Spec.Delete env1 "20250101_100000_1a8dc849"])%list.

Definition dangling_world : SignatureManager.World :=
  Spec.run_ops dangling_run Spec.initial.

(** A report of two lines, the first ended by a carriage return and a line
    feed. *)
Definition report_crlf : string :=
  "line1" ++ String "013"%char (String "010"%char "line2").

(** The world after [calm_run]. *)
Definition calm_world : SignatureManager.World :=
  Spec.run_ops calm_run Spec.initial.

End Sample.

(** * Properties *)

(** ** Dictionaries *)

Section DictFacts.

Context {V : Type}.
Implicit Types (k : string) (v : V) (d : dict V).

Lemma get_set_eq k v d : get k (set k v d) = Some v.
Proof.
  induction d as [|[k' v'] d IH]; simpl.
  - now rewrite String.eqb_refl.
  - destruct (String.eqb k k') eqn:E; simpl; rewrite E; auto.
Qed.

Lemma get_set_neq k k' v d : k <> k' -> get k' (set k v d) = get k' d.
Proof.
  intros N. induction d as [|[k0 v0] d IH]; simpl.
  - apply String.eqb_neq in N. now rewrite String.eqb_sym, N.
  - destruct (String.eqb k k0) eqn:E; simpl.
    + apply String.eqb_eq in E. subst k0.
      destruct (String.eqb k' k) eqn:E'; auto.
      apply String.eqb_eq in E'. congruence.
    + now rewrite IH.
Qed.

Lemma get_del_eq k d : get k (del k d) = None.
Proof.
  induction d as [|[k' v'] d IH]; simpl; auto.
  destruct (String.eqb k k') eqn:E; simpl; auto. now rewrite E.
Qed.

Lemma get_del_neq k k' d : k <> k' -> get k' (del k d) = get k' d.
Proof.
  intros N. induction d as [|[k0 v0] d IH]; simpl; auto.
  destruct (String.eqb k k0) eqn:E; simpl.
  - apply String.eqb_eq in E. subst k0.
    destruct (String.eqb k' k) eqn:E'; auto.
    apply String.eqb_eq in E'. congruence.
  - now rewrite IH.
Qed.

Lemma get_In k v d : get k d = Some v -> In (k, v) d.
Proof.
  induction d as [|[k' v'] d IH]; simpl; [discriminate|].
  destruct (String.eqb k k') eqn:E.
  - apply String.eqb_eq in E. intros [= ->]. left. now subst.
  - auto.
Qed.

Lemma get_None_keys k d : get k d = None <-> ~ In k (keys d).
Proof.
  induction d as [|[k' v'] d IH]; simpl; [tauto|].
  destruct (String.eqb k k') eqn:E.
  - apply String.eqb_eq in E. subst. split; [discriminate|]. intros H. exfalso. auto.
  - apply String.eqb_neq in E. rewrite IH. split.
    + intros H [->|H']; auto.
    + auto.
Qed.

Lemma get_Some_keys k v d : get k d = Some v -> In k (keys d).
Proof. intros H. apply get_In in H. now apply (in_map fst) in H. Qed.

Lemma keys_get k d : In k (keys d) -> exists v, get k d = Some v.
Proof.
  intros H. destruct (get k d) eqn:E; eauto.
  apply get_None_keys in E. contradiction.
Qed.

Lemma In_get k v d : NoDup (keys d) -> In (k, v) d -> get k d = Some v.
Proof.
  induction d as [|[k' v'] d IH]; simpl; [tauto|].
  intros ND [E|H].
  - injection E as -> ->. now rewrite String.eqb_refl.
  - inversion ND as [|? ? Hn ND']; subst.
    destruct (String.eqb k k') eqn:E.
    + apply String.eqb_eq in E. subst. exfalso. apply Hn.
      now apply (in_map fst) in H.
    + auto.
Qed.

Lemma mem_true k d : mem k d = true <-> In k (keys d).
Proof.
  unfold mem. destruct (get k d) eqn:E.
  - split; auto. intros _. eapply get_Some_keys; eauto.
  - split; [discriminate|]. intros H. apply get_None_keys in E. contradiction.
Qed.

Lemma keys_set k v d :
  keys (set k v d) = if mem k d then keys d else (keys d ++ [k])%list.
Proof.
  unfold mem. induction d as [|[k' v'] d IH]; simpl; auto.
  destruct (String.eqb k k') eqn:E; simpl; auto.
  rewrite IH. now destruct (get k d).
Qed.

Lemma keys_del k d : keys (del k d) = filter (fun x => negb (String.eqb k x)) (keys d).
Proof.
  induction d as [|[k' v'] d IH]; simpl; auto.
  destruct (String.eqb k k'); simpl; now rewrite IH.
Qed.

Lemma NoDup_keys_set k v d : NoDup (keys d) -> NoDup (keys (set k v d)).
Proof.
  intros ND. rewrite keys_set. destruct (mem k d) eqn:E; auto.
  apply NoDup_app; auto.
  - repeat constructor. simpl. tauto.
  - intros x Hx [<-|[]]. apply mem_true in Hx. congruence.
Qed.

Lemma NoDup_keys_del k d : NoDup (keys d) -> NoDup (keys (del k d)).
Proof. intros ND. rewrite keys_del. now apply NoDup_filter. Qed.

Lemma In_values_get d v : In v (values d) -> exists k, In (k, v) d.
Proof.
  unfold values. intros H. apply in_map_iff in H as [[k v'] [E H]].
  simpl in E. subst. eauto.
Qed.

End DictFacts.

(** ** Strings and rationals *)

Lemma append_assoc (a b c : string) : (a ++ b) ++ c = a ++ (b ++ c).
Proof. induction a as [|x a IH]; simpl; auto. now rewrite IH. Qed.

Lemma length_append (a b : string) :
  String.length (a ++ b) = (String.length a + String.length b)%nat.
Proof. induction a as [|x a IH]; simpl; auto. Qed.

Lemma append_inj_l (a b c : string) : a ++ b = a ++ c -> b = c.
Proof. induction a as [|x a IH]; simpl; auto. intros [= H]. auto. Qed.

Lemma append_inj_r (a b c : string) : a ++ c = b ++ c -> a = b.
Proof.
  revert b. induction a as [|x a IH]; intros [|y b] H; simpl in *; auto.
  - apply (f_equal String.length) in H. simpl in H. rewrite length_append in H. lia.
  - apply (f_equal String.length) in H. simpl in H. rewrite length_append in H. lia.
  - injection H as -> H. f_equal. auto.
Qed.

Lemma Qlt_bool_iff (x y : Q) : Qlt_bool x y = true <-> (x < y)%Q.
Proof.
  unfold Qlt_bool. rewrite negb_true_iff. split.
  - intros H. apply Qnot_le_lt. intros L. apply Qle_bool_iff in L. congruence.
  - intros H. destruct (Qle_bool y x) eqn:E; auto.
    apply Qle_bool_iff in E. exfalso. eapply Qlt_not_le; eauto.
Qed.

Lemma Qlt_bool_false (x y : Q) : Qlt_bool x y = false <-> (y <= x)%Q.
Proof.
  unfold Qlt_bool. rewrite negb_false_iff. apply Qle_bool_iff.
Qed.

Lemma truediv_pos (x y : Q) : (0 < y)%Q -> truediv x y = Some (x / y)%Q.
Proof.
  intros H. unfold truediv. destruct (Qeq_bool y 0) eqn:E; auto.
  apply Qeq_bool_iff in E. rewrite E in H. now apply Qlt_irrefl in H.
Qed.

Lemma or0_eq (x : option Q) :
  (or0 x == match x with Some v => v | None => 0 end)%Q.
Proof.
  destruct x as [v|]; simpl; [|reflexivity].
  destruct (Qeq_bool v 0) eqn:E; [|reflexivity].
  apply Qeq_bool_iff in E. now rewrite E.
Qed.

(** [sum] from any start value, for the induction. *)
Lemma fold_left_Qplus (xs : list Q) (a : Q) :
  (fold_left Qplus xs a == a + fold_right Qplus 0 xs)%Q.
Proof.
  revert a. induction xs as [|x xs IH]; intros a; simpl.
  - now rewrite Qplus_0_r.
  - rewrite IH. now rewrite Qplus_assoc.
Qed.

Lemma sum_fold_right (xs : list Q) : (sum xs == fold_right Qplus 0 xs)%Q.
Proof. unfold sum. rewrite fold_left_Qplus. apply Qplus_0_l. Qed.

Lemma Qlt_bool_compat (x y z : Q) : (y == z)%Q -> Qlt_bool x y = Qlt_bool x z.
Proof.
  intros E. destruct (Qlt_bool x z) eqn:H.
  - apply Qlt_bool_iff. apply Qlt_bool_iff in H. now rewrite E.
  - apply Qlt_bool_false. apply Qlt_bool_false in H. now rewrite E.
Qed.

(** ** Position.close *)

Lemma close_eq (p : Position.t) (price : Q) (reason : string) (now : datetime) :
  Position.close p price reason now
  = Some (Position.mk (Position.ticker p) (Position.category p)
            (Position.entry_price p) (Position.entry_date p)
            (Position.entry_type p) "closed" (Some price)
            (Some (strftime_Y_m_d now)) (Some reason)
            (Some (if Qlt_bool 0 (Position.entry_price p)
                   then ((price - Position.entry_price p)
                           / Position.entry_price p * 100)%Q
                   else 0%Q))
            (Some (price - Position.entry_price p)%Q)).
Proof.
  unfold Position.close.
  destruct (Qlt_bool 0 (Position.entry_price p)) eqn:E; simpl; auto.
  apply Qlt_bool_iff in E. rewrite (truediv_pos _ _ E). reflexivity.
Qed.

Lemma closed_pnls_In (sig : Signature.t) (p : Position.t) (x : Q) :
  In p (values (Signature.positions sig)) ->
  Position.status p = "closed" -> Position.pnl_pct p = Some x ->
  In x (html_report.closed_pnls sig).
Proof.
  intros Hin Hs Hp. unfold html_report.closed_pnls.
  apply in_flat_map. exists p. split; auto.
  unfold Signature.is_closed. rewrite Hs, Hp. simpl. auto.
Qed.

(** C2, as the code has it: [Position.close] never raises and always
    records both P/L fields as numbers.  [pnl_amt] is the exit price minus
    the entry price; [pnl_pct] is that difference divided by the entry price
    times 100 when the entry price is positive, and 0 (not an unset value)
    when it is zero or negative, so no division by a non-positive entry
    price takes place.  A position closed this way is counted by the realized
    average of the report, which leaves out only an unset [pnl_pct]. *)
Theorem close_records_numeric_pnl
    (p : Position.t) (price : Q) (reason : string) (now : datetime) :
  exists p',
    Position.close p price reason now = Some p'
    /\ Position.status p' = "closed"
    /\ Position.pnl_amt p' = Some (price - Position.entry_price p)%Q
    /\ ((0 < Position.entry_price p)%Q ->
        Position.pnl_pct p'
        = Some ((price - Position.entry_price p)
                  / Position.entry_price p * 100)%Q)
    /\ ((Position.entry_price p <= 0)%Q -> Position.pnl_pct p' = Some 0%Q)
    /\ (forall sig, In p' (values (Signature.positions sig)) ->
        exists x, Position.pnl_pct p' = Some x
                  /\ In x (html_report.closed_pnls sig)).
Proof.
  eexists. split; [apply close_eq|]. simpl.
  repeat split.
  - intros H. apply Qlt_bool_iff in H. now rewrite H.
  - intros H. apply Qlt_bool_false in H. now rewrite H.
  - intros sig Hin. eexists. split; [reflexivity|].
    eapply closed_pnls_In; eauto.
Qed.

(** C2, counterexample: a position entered at price 0 and closed at 5 has
    [pnl_pct = 0] and [pnl_amt = 5], neither of them unset, and its 0 enters
    the realized average and the loss count of its signature. *)
Lemma close_at_zero_entry_records_zero :
  exists p',
    Position.close (Sample.entered "XYZ" 0) 5 "manual" Sample.t1 = Some p'
    /\ (Position.entry_price (Sample.entered "XYZ" 0) <= 0)%Q
    /\ Position.pnl_pct p' = Some 0%Q
    /\ Position.pnl_amt p' = Some (5 - 0)%Q
    /\ Position.pnl_pct p' <> None
    /\ Position.pnl_amt p' <> None
    /\ html_report.closed_pnls (Sample.sig_with [("XYZ", p')]) = [0%Q]
    /\ html_report.avg_realized (Sample.sig_with [("XYZ", p')]) = Some (0 / 1)%Q
    /\ option_map Signature.loss_count
         (Signature.get_summary (Sample.sig_with [("XYZ", p')])) = Some 1%nat.
Proof.
  eexists. split; [reflexivity|].
  repeat split; try discriminate; try reflexivity.
Qed.

(** ** Signature.close_position *)

Lemma close_position_not_open (sig : Signature.t) (ticker : string) (price : Q)
    (reason : string) (now : datetime) :
  (forall p, get ticker (Signature.positions sig) = Some p ->
             Position.status p <> "open") ->
  Signature.close_position sig ticker price reason now = Some (sig, false).
Proof.
  intros H. unfold Signature.close_position.
  destruct (get ticker (Signature.positions sig)) as [p|] eqn:E; auto.
  unfold Signature.is_open. destruct (String.eqb_spec (Position.status p) "open"); auto.
  exfalso. eapply H; eauto.
Qed.

Lemma close_position_open (sig : Signature.t) (ticker : string) (price : Q)
    (reason : string) (now : datetime) (p : Position.t) :
  get ticker (Signature.positions sig) = Some p ->
  Position.status p = "open" ->
  exists p',
    Position.close p price reason now = Some p'
    /\ Signature.close_position sig ticker price reason now
       = Some (Signature.with_positions sig (set ticker p' (Signature.positions sig)),
               true).
Proof.
  intros E S. unfold Signature.close_position. rewrite E.
  unfold Signature.is_open. rewrite S. simpl.
  rewrite close_eq. simpl. eauto.
Qed.

Lemma close_position_keeps_others (sig : Signature.t) (ticker : string)
    (price : Q) (reason : string) (now : datetime) (other : string) (q : Position.t) :
  get other (Signature.positions sig) = Some q ->
  Position.status q <> "open" ->
  get other (Signature.positions (Spec.run_close sig (ticker, price, reason, now)))
  = Some q.
Proof.
  intros E S. unfold Spec.run_close, Signature.close_position.
  destruct (get ticker (Signature.positions sig)) as [p|] eqn:Et; auto.
  unfold Signature.is_open.
  destruct (String.eqb_spec (Position.status p) "open") as [So|So]; auto.
  rewrite close_eq. simpl.
  rewrite get_set_neq; auto. intros ->. congruence.
Qed.

(** C5: position status only moves from open to closed.  [Position.close]
    always leaves the status closed; [close_position] on an open position
    closes it with the given exit price and reason and returns [True]; on a
    ticker that is absent or whose position is not open it returns [False]
    and the signature is unchanged; and through any sequence of
    [close_position] calls a closed position stays exactly as its first
    close left it. *)
Theorem position_status_monotonic :
  (forall p price reason now,
      exists p', Position.close p price reason now = Some p'
                 /\ Position.status p' = "closed")
  /\ (forall sig ticker price reason now p,
         get ticker (Signature.positions sig) = Some p ->
         Position.status p = "open" ->
         exists sig' p',
           Signature.close_position sig ticker price reason now = Some (sig', true)
           /\ get ticker (Signature.positions sig') = Some p'
           /\ Position.status p' = "closed"
           /\ Position.exit_price p' = Some price
           /\ Position.exit_reason p' = Some reason
           /\ Position.exit_date p' = Some (strftime_Y_m_d now))
  /\ (forall sig ticker price reason now,
         (forall p, get ticker (Signature.positions sig) = Some p ->
                    Position.status p = "closed") ->
         Signature.close_position sig ticker price reason now = Some (sig, false))
  /\ (forall calls sig ticker p,
         get ticker (Signature.positions sig) = Some p ->
         Position.status p = "closed" ->
         get ticker (Signature.positions (Spec.run_closes calls sig)) = Some p).
Proof.
  repeat split.
  - intros. eexists. split; [apply close_eq|reflexivity].
  - intros sig ticker price reason now p E S.
    destruct (close_position_open sig ticker price reason now p E S) as [p' [C R]].
    rewrite close_eq in C. injection C as <-.
    do 2 eexists. split; [exact R|]. simpl. rewrite get_set_eq.
    repeat split; reflexivity.
  - intros sig ticker price reason now H. apply close_position_not_open.
    intros p E S. apply H in E. congruence.
  - intros calls. induction calls as [|[[[t price] reason] now] calls IH];
      intros sig ticker p E S; simpl; auto.
    apply IH; auto. apply close_position_keeps_others; auto. congruence.
Qed.

Lemma position_status_monotonic_witness :
  Signature.close_position Sample.three_closed "AAA" 120 "manual" Sample.t0
  = Some (Sample.three_closed, false)
  /\ Signature.close_position Sample.three_closed "ZZZ" 120 "manual" Sample.t0
     = Some (Sample.three_closed, false).
Proof.
  destruct position_status_monotonic as [_ [_ [H _]]].
  split; apply H; intros p E; vm_compute in E; try discriminate.
  injection E as <-. reflexivity.
Defined.

(** ** Signature.get_summary *)

Lemma Q_of_nat_pos (n : nat) : n <> 0%nat -> (0 < Q_of_nat n)%Q.
Proof.
  intros H. unfold Q_of_nat, Qlt. simpl. lia.
Qed.

Lemma sum_or0_realized (ps : list Position.t) :
  (sum (map (fun p => or0 (Position.pnl_pct p)) ps) == Spec.realized_sum ps)%Q.
Proof.
  rewrite sum_fold_right. induction ps as [|p ps IH]; simpl; [reflexivity|].
  rewrite IH. unfold Spec.pnl_or_zero. now rewrite or0_eq.
Qed.

Lemma winners_filter (ps : list Position.t) :
  filter (fun p => Qlt_bool 0 (or0 (Position.pnl_pct p))) ps = Spec.winners_of ps.
Proof.
  unfold Spec.winners_of. apply filter_ext. intros p.
  apply Qlt_bool_compat. apply or0_eq.
Qed.

(** C6: the summary of a signature always exists and reports the number of
    positions, of open and of closed positions, the sum of the closed
    positions' P/L percentages as realized P/L, the number of closed
    positions with a P/L above zero as win count, and as win rate the win
    count over the closed count times 100, or 0 when nothing is closed.
    With three positions closed at +10, -4 and +6 percent the realized P/L
    is 12, the win count 2, and the win rate 200/3, which is 66.7 to one
    decimal. *)
Theorem get_summary_aggregates :
  (forall sig,
      exists s,
        Signature.get_summary sig = Some s
        /\ Signature.total_positions s = List.length (Signature.positions sig)
        /\ Signature.open_positions s
           = List.length (filter Signature.is_open (values (Signature.positions sig)))
        /\ Signature.closed_positions s = List.length (Spec.closed_of sig)
        /\ (Signature.realized_pnl_pct s == Spec.realized_sum (Spec.closed_of sig))%Q
        /\ Signature.win_count s = List.length (Spec.winners_of (Spec.closed_of sig))
        /\ (Spec.closed_of sig = [] -> Signature.win_rate s = 0%Q)
        /\ (Spec.closed_of sig <> [] ->
            Signature.win_rate s
            = (Q_of_nat (Signature.win_count s)
                 / Q_of_nat (Signature.closed_positions s) * 100)%Q))
  /\ (exists s,
        Signature.get_summary Sample.three_closed = Some s
        /\ map Spec.pnl_or_zero (Spec.closed_of Sample.three_closed)
           = [(110 - 100) / 100 * 100; (96 - 100) / 100 * 100;
              (106 - 100) / 100 * 100]%Q
        /\ (Signature.realized_pnl_pct s == 12)%Q
        /\ Signature.win_count s = 2%nat
        /\ Signature.closed_positions s = 3%nat
        /\ (Signature.win_rate s == 200 # 3)%Q
        /\ (66.65 <= Signature.win_rate s < 66.75)%Q).
Proof.
  split.
  - intros sig. unfold Signature.get_summary. fold (Spec.closed_of sig).
    rewrite winners_filter.
    destruct (Spec.closed_of sig) as [|c cs] eqn:E.
    + simpl. eexists. split; [reflexivity|]. simpl.
      repeat split; try reflexivity; try congruence.
    + rewrite truediv_pos by (apply Q_of_nat_pos; discriminate). simpl bind.
      eexists. split; [reflexivity|]. cbv beta iota delta
        [Signature.total_positions Signature.open_positions
           Signature.closed_positions Signature.realized_pnl_pct
           Signature.win_count Signature.win_rate].
      repeat split; try reflexivity; try discriminate.
      exact (sum_or0_realized (c :: cs)).
  - eexists. split; [vm_compute; reflexivity|].
    repeat split; vm_compute; congruence.
Qed.

(** ** SignatureManager.get_by_id *)

(** C9, as the code has it: lookup by identity or prefix.  An identity that
    is stored is returned whatever else it is a prefix of; otherwise, when
    exactly one stored identity starts with the given string, that signature
    is returned; when several do, no signature is returned and a header line
    and the first five of the candidates, in the order of the store, are
    printed; when none does, nothing is returned or printed.  With
    20250101_100000_ab12 and 20250101_100000_ab13 stored, 20250101_1000 is
    ambiguous and 20250101_100000_ab12 is found. *)
Theorem get_by_id_prefix_lookup :
  (forall self x s,
      get x (SignatureManager.signatures self) = Some s ->
      SignatureManager.get_by_id self x = (Some s, []))
  /\ (forall self x m,
         get x (SignatureManager.signatures self) = None ->
         Spec.prefix_matches self x = [m] ->
         exists s, get m (SignatureManager.signatures self) = Some s
                   /\ SignatureManager.get_by_id self x = (Some s, []))
  /\ (forall self x,
         get x (SignatureManager.signatures self) = None ->
         (1 < List.length (Spec.prefix_matches self x))%nat ->
         SignatureManager.get_by_id self x
         = (None,
            ("Multiple matches for '" ++ x ++ "':")
              :: map (fun m => "  " ++ m) (firstn 5 (Spec.prefix_matches self x))))
  /\ (forall self x,
         get x (SignatureManager.signatures self) = None ->
         Spec.prefix_matches self x = [] ->
         SignatureManager.get_by_id self x = (None, []))
  /\ SignatureManager.get_by_id Sample.two_ids "20250101_1000"
     = (None, ["Multiple matches for '20250101_1000':";
               "  20250101_100000_ab12"; "  20250101_100000_ab13"])
  /\ SignatureManager.get_by_id Sample.two_ids "20250101_100000_ab12"
     = (Some (Sample.sig_id "20250101_100000_ab12"), [])
  /\ SignatureManager.get_by_id Sample.two_ids "20250101_100000_ab13"
     = (Some (Sample.sig_id "20250101_100000_ab13"), []).
Proof.
  repeat split; try reflexivity.
  - intros self x s E. unfold SignatureManager.get_by_id. now rewrite E.
  - intros self x m E M. unfold SignatureManager.get_by_id. rewrite E.
    fold (Spec.prefix_matches self x). rewrite M. simpl.
    assert (In m (keys (SignatureManager.signatures self))) as Hin.
    { assert (In m (Spec.prefix_matches self x)) as H by (rewrite M; simpl; auto).
      unfold Spec.prefix_matches in H. now apply filter_In in H. }
    apply keys_get in Hin as [s Hs]. exists s. now rewrite Hs.
  - intros self x E M. unfold SignatureManager.get_by_id. rewrite E.
    fold (Spec.prefix_matches self x).
    destruct (Nat.eqb_spec (List.length (Spec.prefix_matches self x)) 1); [lia|].
    destruct (Nat.ltb_spec 1 (List.length (Spec.prefix_matches self x))); [|lia].
    reflexivity.
  - intros self x E M. unfold SignatureManager.get_by_id. rewrite E.
    fold (Spec.prefix_matches self x). now rewrite M.
Qed.

Lemma get_by_id_prefix_lookup_witness :
  SignatureManager.get_by_id Sample.seven_ids "20250101_1"
  = (None, ["Multiple matches for '20250101_1':";
            "  20250101_100001"; "  20250101_100002"; "  20250101_100003";
            "  20250101_100004"; "  20250101_100005"])
  /\ (exists s, get "20250101_100007" (SignatureManager.signatures Sample.seven_ids)
                = Some s
                /\ SignatureManager.get_by_id Sample.seven_ids "20250101_100007"
                   = (Some s, [])).
Proof.
  destruct get_by_id_prefix_lookup as [H1 [_ [H3 _]]]. split.
  - apply (H3 Sample.seven_ids "20250101_1"); [reflexivity|].
    vm_compute. lia.
  - eexists. split; [reflexivity|]. apply H1. reflexivity.
Defined.

(** C9, counterexample: seven stored identities start with 20250101_1; the
    lookup of that prefix returns no signature and prints the header and
    five candidates, so the candidates 20250101_100006 and 20250101_100007
    are not reported. *)
Lemma get_by_id_reports_five_of_seven :
  let r := SignatureManager.get_by_id Sample.seven_ids "20250101_1" in
  Spec.prefix_matches Sample.seven_ids "20250101_1"
  = ["20250101_100001"; "20250101_100002"; "20250101_100003";
     "20250101_100004"; "20250101_100005"; "20250101_100006"; "20250101_100007"]
  /\ fst r = None
  /\ snd r = ["Multiple matches for '20250101_1':";
              "  20250101_100001"; "  20250101_100002"; "  20250101_100003";
              "  20250101_100004"; "  20250101_100005"]
  /\ existsb (fun line => String.eqb line "  20250101_100006") (snd r) = false
  /\ existsb (fun line => String.eqb line "  20250101_100007") (snd r) = false.
Proof.
  cbv zeta. split; [|split; [|split; [|split]]]; vm_compute; reflexivity.
Qed.

(** ** SignatureManager._save and create_signature *)

Lemma create_existing (env : Env) (content source mode : string)
    (parsed : dict (list string)) (w : SignatureManager.World) (s : Signature.t) :
  SignatureManager.get_by_hash (SignatureManager.mgr w)
    (SignatureManager.compute_file_hash content mode) = Some s ->
  SignatureManager.create_signature env content source mode parsed w
  = ((s, false), w).
Proof.
  intros H. unfold SignatureManager.create_signature. now rewrite H.
Qed.

Lemma create_new (env : Env) (content source mode : string)
    (parsed : dict (list string)) (w : SignatureManager.World) :
  SignatureManager.get_by_hash (SignatureManager.mgr w)
    (SignatureManager.compute_file_hash content mode) = None ->
  let sig := Spec.created env content source mode parsed in
  SignatureManager.create_signature env content source mode parsed w
  = ((sig, true),
     SignatureManager.mkWorld
       (SignatureManager.mk
          (set (Signature.signature_id sig) sig
               (SignatureManager.signatures (SignatureManager.mgr w)))
          (set (Signature.file_hash sig) (Signature.signature_id sig)
               (SignatureManager.hash_index (SignatureManager.mgr w))))
       (Complete
          (values (set (Signature.signature_id sig) sig
                       (SignatureManager.signatures (SignatureManager.mgr w))))
          (isoformat (now_at_save env)))
       (set (Signature.output_file sig) content (SignatureManager.runs w))
       (SignatureManager.price_requests w
          ++ [fst (SignatureManager.select_tickers mode parsed)])%list
       (SignatureManager.stdout w)).
Proof.
  intros H. unfold SignatureManager.create_signature. rewrite H.
  unfold Spec.created.
  destruct (SignatureManager.select_tickers mode parsed) as [tickers cats].
  reflexivity.
Qed.

Lemma create_then_resolves (env : Env) (content source mode : string)
    (parsed : dict (list string)) (w : SignatureManager.World) :
  SignatureManager.get_by_hash
    (SignatureManager.mgr
       (snd (SignatureManager.create_signature env content source mode parsed w)))
    (SignatureManager.compute_file_hash content mode)
  = Some (fst (fst (SignatureManager.create_signature env content source mode
                      parsed w))).
Proof.
  destruct (SignatureManager.get_by_hash (SignatureManager.mgr w)
              (SignatureManager.compute_file_hash content mode)) as [s|] eqn:E.
  - rewrite (create_existing _ _ _ _ _ _ _ E). exact E.
  - rewrite (create_new _ _ _ _ _ _ E). simpl.
    unfold SignatureManager.get_by_hash. simpl.
    now rewrite !get_set_eq.
Qed.

(** ** The fingerprint *)

(** C10: the fingerprint hashes content, a colon, and the mode, so moving a
    colon-separated piece from the end of the content to the front of the
    mode gives a different (content, mode) pair with the same fingerprint;
    once one of the two has been ingested, ingesting the other returns the
    signature of the first as not new. *)
Theorem fingerprint_separator_ambiguity (c a b : string) :
  SignatureManager.compute_file_hash (c ++ ":" ++ a) b
  = SignatureManager.compute_file_hash c (a ++ ":" ++ b)
  /\ (c ++ ":" ++ a, b) <> (c, a ++ ":" ++ b)
  /\ (forall env env' source source' parsed parsed' w,
         let first := SignatureManager.create_signature env (c ++ ":" ++ a) source
                        b parsed w in
         SignatureManager.create_signature env' c source' (a ++ ":" ++ b) parsed'
           (snd first)
         = ((fst (fst first), false), snd first)).
Proof.
  assert (SignatureManager.compute_file_hash (c ++ ":" ++ a) b
          = SignatureManager.compute_file_hash c (a ++ ":" ++ b)) as E.
  { unfold SignatureManager.compute_file_hash, SignatureManager.combined.
    now rewrite !append_assoc. }
  split; [exact E|]. split.
  - intros [= H _]. apply (f_equal String.length) in H.
    rewrite length_append in H. simpl in H. lia.
  - intros env env' source source' parsed parsed' w first.
    apply create_existing. rewrite <- E. apply create_then_resolves.
Qed.

(** ** The tickers tracked by create_signature *)

Lemma select_tickers_ignores_buys (mode : string) (parsed : dict (list string))
    (l : list string) :
  SignatureManager.select_tickers mode (set "buys" l parsed)
  = SignatureManager.select_tickers mode parsed.
Proof.
  unfold SignatureManager.select_tickers, get_default.
  rewrite !get_set_neq by discriminate. reflexivity.
Qed.

Lemma in_list_In (x : string) (l : list string) :
  SignatureManager.in_list x l = true <-> In x l.
Proof.
  unfold SignatureManager.in_list. rewrite existsb_exists. split.
  - intros [y [Hy E]]. apply String.eqb_eq in E. now subst.
  - intros H. exists x. split; auto. apply String.eqb_refl.
Qed.

Lemma fold_add (cat : string) (l acc : list string) (d : dict string) :
  fold_left (fun st t => ((fst st ++ [t])%list, set t cat (snd st))) l (acc, d)
  = ((acc ++ l)%list, fold_left (fun d' t => set t cat d') l d).
Proof.
  revert acc d. induction l as [|t l IH]; intros acc d; simpl.
  - now rewrite app_nil_r.
  - rewrite IH. now rewrite <- app_assoc.
Qed.

Lemma get_fold_set_keep (cat : string) (l : list string) (d : dict string)
    (t : string) :
  get t d = Some cat ->
  get t (fold_left (fun d' t' => set t' cat d') l d) = Some cat.
Proof.
  revert d. induction l as [|a l IH]; intros d H; simpl; auto.
  apply IH. destruct (string_dec a t) as [->|N].
  - apply get_set_eq.
  - now rewrite get_set_neq.
Qed.

Lemma get_fold_set_in (cat : string) (l : list string) (d : dict string)
    (t : string) :
  In t l -> get t (fold_left (fun d' t' => set t' cat d') l d) = Some cat.
Proof.
  revert d. induction l as [|a l IH]; intros d H; simpl in *; [tauto|].
  destruct H as [->|H]; auto.
  apply get_fold_set_keep. apply get_set_eq.
Qed.

Lemma keys_fold_set (cat : string) (l : list string) (d : dict string)
    (x : string) :
  In x (keys (fold_left (fun d' t => set t cat d') l d))
  <-> In x (keys d) \/ In x l.
Proof.
  revert d. induction l as [|a l IH]; intros d; simpl; [tauto|].
  rewrite IH, keys_set. destruct (mem a d) eqn:E.
  - apply mem_true in E. split; [tauto|]. intros [H|[<-|H]]; auto.
  - rewrite in_app_iff. simpl. tauto.
Qed.

(** The early-buy loop, from any state whose categories are those of the
    tickers selected so far. *)
Lemma fold_early (l acc : list string) (d : dict string) :
  (forall x, In x (keys d) <-> In x acc) ->
  NoDup l ->
  let r := fold_left
             (fun st t =>
                if mem t (snd st) then st
                else ((fst st ++ [t])%list, set t "early_buy" (snd st)))
             l (acc, d) in
  fst r = (acc ++ filter (fun t => negb (SignatureManager.in_list t acc)) l)%list
  /\ (forall t c, get t d = Some c -> get t (snd r) = Some c)
  /\ (forall t, In t l -> ~ In t acc -> get t (snd r) = Some "early_buy").
Proof.
  revert acc d. induction l as [|a l IH]; intros acc d K N; simpl.
  - rewrite app_nil_r. repeat split; auto. intros t [].
  - inversion N as [|? ? Na Nl]; subst.
    destruct (mem a d) eqn:E.
    + assert (In a acc) as Ha by (apply K; now apply mem_true).
      apply in_list_In in Ha. rewrite Ha. simpl.
      destruct (IH acc d K Nl) as (H1 & H2 & H3).
      repeat split; auto.
      intros t [<-|Ht] Hn; auto. apply in_list_In in Ha. contradiction.
    + assert (~ In a acc) as Ha.
      { intros H. apply K in H. apply mem_true in H. congruence. }
      assert (SignatureManager.in_list a acc = false) as Hb.
      { destruct (SignatureManager.in_list a acc) eqn:F; auto.
        apply in_list_In in F. contradiction. }
      rewrite Hb. simpl.
      destruct (IH (acc ++ [a])%list (set a "early_buy" d)) as (H1 & H2 & H3); auto.
      { intros x. rewrite keys_set, E, !in_app_iff, K. reflexivity. }
      assert (get a d = None) as Hg.
      { unfold mem in E. now destruct (get a d). }
      repeat split.
      * rewrite H1, <- app_assoc. simpl. do 2 f_equal.
        apply filter_ext_in. intros t Ht. f_equal.
        unfold SignatureManager.in_list. rewrite existsb_app. simpl.
        destruct (String.eqb_spec t a) as [->|]; [contradiction|].
        now rewrite !orb_false_r.
      * intros t c Hc. apply H2. rewrite get_set_neq; auto. intros <-. congruence.
      * intros t [<-|Ht] Hn.
        -- apply H2. apply get_set_eq.
        -- apply H3; auto. rewrite in_app_iff. simpl. intros [?|[<-|[]]]; auto.
Qed.

Lemma filter_not_in_nil (l : list string) :
  filter (fun t => negb (SignatureManager.in_list t [])) l = l.
Proof.
  induction l as [|a l IH]; auto.
  change (a :: filter (fun t => negb (SignatureManager.in_list t [])) l = a :: l).
  now rewrite IH.
Qed.

(** C3, as the code has it: [create_signature] tracks, in mode strong, the
    strong-buy tickers; in mode early, the early-buy tickers; in mode
    dividend, the dividend tickers; and in mode all, the strong-buy tickers
    followed by the early-buy tickers that are not strong buys, a ticker in
    both lists keeping the category strong_buy.  The buy list is not read in
    any mode.  (Ticker lists are taken without repeats, as the parser gives
    them.)  The new signature asks for the prices of exactly the selected
    tickers and builds its positions from them. *)
Theorem create_signature_tracks_by_mode (parsed : dict (list string)) :
  let strong := get_default "strong_buys" [] parsed in
  let early := get_default "early_buys" [] parsed in
  let dividends := get_default "dividends" [] parsed in
  let tracked mode := fst (SignatureManager.select_tickers mode parsed) in
  let category mode t := get t (snd (SignatureManager.select_tickers mode parsed)) in
  (tracked "strong" = strong
   /\ forall t, In t strong -> category "strong" t = Some "strong_buy")
  /\ (NoDup early ->
      tracked "early" = early
      /\ forall t, In t early -> category "early" t = Some "early_buy")
  /\ (tracked "dividend" = dividends
      /\ forall t, In t dividends -> category "dividend" t = Some "dividend")
  /\ (NoDup early ->
      tracked "all"
      = (strong ++ filter (fun t => negb (SignatureManager.in_list t strong)) early)%list
      /\ (forall t, In t strong -> category "all" t = Some "strong_buy")
      /\ (forall t, In t early -> ~ In t strong ->
                    category "all" t = Some "early_buy"))
  /\ (forall mode l,
         SignatureManager.select_tickers mode (set "buys" l parsed)
         = SignatureManager.select_tickers mode parsed)
  /\ (forall env content source mode w,
         SignatureManager.get_by_hash (SignatureManager.mgr w)
           (SignatureManager.compute_file_hash content mode) = None ->
         let r := SignatureManager.create_signature env content source mode
                    parsed w in
         SignatureManager.price_requests (snd r)
         = (SignatureManager.price_requests w ++ [tracked mode])%list
         /\ Signature.positions (fst (fst r))
            = SignatureManager.make_positions (tracked mode)
                (snd (SignatureManager.select_tickers mode parsed))
                (get_entry_prices env (tracked mode))).
Proof.
  intros strong early dividends tracked category.
  assert (forall mode l,
             SignatureManager.select_tickers mode (set "buys" l parsed)
             = SignatureManager.select_tickers mode parsed) as P5
    by (intros; apply select_tickers_ignores_buys).
  assert (forall env content source mode w,
             SignatureManager.get_by_hash (SignatureManager.mgr w)
               (SignatureManager.compute_file_hash content mode) = None ->
             let r := SignatureManager.create_signature env content source mode
                        parsed w in
             SignatureManager.price_requests (snd r)
             = (SignatureManager.price_requests w ++ [tracked mode])%list
             /\ Signature.positions (fst (fst r))
                = SignatureManager.make_positions (tracked mode)
                    (snd (SignatureManager.select_tickers mode parsed))
                    (get_entry_prices env (tracked mode))) as P6.
  { intros env content source mode w E r. subst r.
    rewrite (create_new _ _ _ _ _ _ E). split; reflexivity. }
  split; [|split; [|split; [|split; [|split; [exact P5|exact P6]]]]];
    clear P5 P6; subst tracked category; cbv beta;
    unfold SignatureManager.select_tickers;
    fold strong; fold early; fold dividends; simpl; rewrite ?fold_add; simpl.
  - split; auto. intros t Ht. now apply get_fold_set_in.
  - intros N. destruct (fold_early early [] empty) as (H1 & _ & H3); auto.
    { simpl. tauto. }
    rewrite H1. simpl. rewrite filter_not_in_nil. split; auto.
  - split; auto. intros t Ht. now apply get_fold_set_in.
  - intros N.
    destruct (fold_early early strong
                (fold_left (fun d' t => set t "strong_buy" d') strong empty))
      as (H1 & H2 & H3); auto.
    { intros x. rewrite keys_fold_set. simpl. tauto. }
    split; [exact H1|]. split; auto.
    intros t Ht. apply H2. now apply get_fold_set_in.
Qed.

Lemma create_signature_tracks_by_mode_witness :
  fst (SignatureManager.select_tickers "all"
         [("strong_buys", ["AAPL"; "MSFT"]); ("early_buys", ["MSFT"; "AMD"])])
  = ["AAPL"; "MSFT"; "AMD"]
  /\ get "MSFT"
       (snd (SignatureManager.select_tickers "all"
               [("strong_buys", ["AAPL"; "MSFT"]); ("early_buys", ["MSFT"; "AMD"])]))
     = Some "strong_buy".
Proof.
  destruct (create_signature_tracks_by_mode
              [("strong_buys", ["AAPL"; "MSFT"]); ("early_buys", ["MSFT"; "AMD"])])
    as (_ & _ & _ & H & _).
  destruct H as (H1 & H2 & _).
  - repeat constructor; simpl; intuition discriminate.
  - split; [exact H1|]. apply H2. simpl. auto.
Defined.

(** C3, counterexample: in mode all, with AAPL a strong buy, MSFT an early
    buy and NVDA a buy, and a price for every ticker, [get_buy_tickers]
    lists the three tickers, but [create_signature] requests prices for AAPL
    and MSFT only and the new signature has no position for NVDA. *)
Lemma create_signature_all_mode_omits_buys :
  let result := SignatureManager.create_signature Sample.env0 Sample.report_a
                  "scan.txt" "all" Sample.parsed0 Sample.world0 in
  get_default "buys" [] Sample.parsed0 = ["NVDA"]
  /\ file_parser.get_buy_tickers Sample.parsed0 "all" = ["AAPL"; "MSFT"; "NVDA"]
  /\ snd (fst result) = true
  /\ SignatureManager.price_requests (snd result) = [["AAPL"; "MSFT"]]
  /\ map (fun tp => (fst tp, Position.category (snd tp)))
         (Signature.positions (fst (fst result)))
     = [("AAPL", "strong_buy"); ("MSFT", "early_buy")]
  /\ get "NVDA" (Signature.positions (fst (fst result))) = None.
Proof.
  repeat split; vm_compute; reflexivity.
Qed.

(** ** Saving the ledger *)

(** C4, as the code has it: [_save] writes the whole collection of
    signatures, in dictionary order, into the signatures file, and touches
    nothing else: no other file is written and none is renamed.  It does so
    by truncating the file and then writing into it, so from its first effect
    until the write completes the file holds an incomplete document whatever
    it held before.  Creating, updating and deleting a signature all end
    with such a save of the new collection. *)
Theorem save_writes_in_place (env : Env) (w : SignatureManager.World) :
  SignatureManager._save env w
  = SignatureManager.mkWorld (SignatureManager.mgr w)
      (Complete (values (SignatureManager.signatures (SignatureManager.mgr w)))
                (isoformat (now_at_save env)))
      (SignatureManager.runs w) (SignatureManager.price_requests w)
      (SignatureManager.stdout w)
  /\ SignatureManager._save_interrupted 0 env w = w
  /\ SignatureManager._save_interrupted 1 env w
     = SignatureManager.mkWorld (SignatureManager.mgr w) Incomplete
         (SignatureManager.runs w) (SignatureManager.price_requests w)
         (SignatureManager.stdout w)
  /\ SignatureManager._save_interrupted 2 env w = SignatureManager._save env w
  /\ SignatureManager.__init__
       (SignatureManager.signatures_file
          (SignatureManager._save_interrupted 1 env w)) = None
  /\ (forall content source mode parsed,
         let r := SignatureManager.create_signature env content source mode
                    parsed w in
         snd (fst r) = true ->
         SignatureManager.signatures_file (snd r)
         = Complete (values (SignatureManager.signatures
                               (SignatureManager.mgr (snd r))))
                    (isoformat (now_at_save env)))
  /\ (forall sig,
         let w' := SignatureManager.update_signature env sig w in
         SignatureManager.signatures_file w'
         = Complete (values (SignatureManager.signatures (SignatureManager.mgr w')))
                    (isoformat (now_at_save env)))
  /\ (forall id,
         let r := SignatureManager.delete_signature env id w in
         fst r = Some true ->
         SignatureManager.signatures_file (snd r)
         = Complete (values (SignatureManager.signatures
                               (SignatureManager.mgr (snd r))))
                    (isoformat (now_at_save env))).
Proof.
  repeat split.
  - intros content source mode parsed r. subst r.
    destruct (SignatureManager.get_by_hash (SignatureManager.mgr w)
                (SignatureManager.compute_file_hash content mode)) as [s|] eqn:E.
    + rewrite (create_existing _ _ _ _ _ _ _ E). discriminate.
    + rewrite (create_new _ _ _ _ _ _ E). reflexivity.
  - intros id r. subst r. unfold SignatureManager.delete_signature.
    destruct (SignatureManager.get_by_id (SignatureManager.mgr w) id)
      as [[s|] printed]; [|discriminate].
    destruct (mem (Signature.signature_id s) _); [|discriminate].
    reflexivity.
Qed.

(** C4, counterexample: a ledger file holds one saved signature; the next
    save, interrupted after it has opened the file for writing, leaves a
    file that holds neither the old nor the new collection and from which
    the manager cannot be loaded.  No temporary file is involved. *)
Lemma save_interrupted_loses_ledger :
  let s := Sample.sig_id "20250101_100000_ab12" in
  let w := SignatureManager.mkWorld (Sample.manager_of [s])
             (Complete [s] "2025-01-01T10:00:00") [] [] [] in
  let w' := SignatureManager._save_interrupted 1 Sample.env1 w in
  SignatureManager.__init__ (SignatureManager.signatures_file w)
  = Some (Sample.manager_of [s])
  /\ SignatureManager.signatures_file w' = Incomplete
  /\ SignatureManager.__init__ (SignatureManager.signatures_file w') = None
  /\ SignatureManager.signatures_file w' <> SignatureManager.signatures_file w
  /\ SignatureManager.signatures_file w'
     <> SignatureManager.signatures_file (SignatureManager._save Sample.env1 w)
  /\ SignatureManager.runs w' = SignatureManager.runs w.
Proof.
  repeat split; discriminate.
Qed.

(** ** The fingerprint index and the store *)

Lemma get_by_id_stored (m : SignatureManager.t) (x : string) (s : Signature.t)
    (out : list string) :
  SignatureManager.get_by_id m x = (Some s, out) ->
  exists k, get k (SignatureManager.signatures m) = Some s.
Proof.
  unfold SignatureManager.get_by_id.
  destruct (get x (SignatureManager.signatures m)) as [s'|] eqn:E.
  - intros [= -> _]. eauto.
  - destruct (Nat.eqb _ 1).
    + intros [= H _]. eauto.
    + destruct (Nat.ltb 1 _); discriminate.
Qed.

Lemma in_sync_empty : Spec.in_sync (SignatureManager.mk [] []).
Proof.
  repeat split; simpl; try constructor; discriminate.
Qed.

Lemma in_sync_create (m : SignatureManager.t) (sig : Signature.t) :
  Spec.in_sync m ->
  SignatureManager.get_by_hash m (Signature.file_hash sig) = None ->
  get (Signature.signature_id sig) (SignatureManager.signatures m) = None ->
  Spec.in_sync
    (SignatureManager.mk
       (set (Signature.signature_id sig) sig (SignatureManager.signatures m))
       (set (Signature.file_hash sig) (Signature.signature_id sig)
            (SignatureManager.hash_index m))).
Proof.
  intros (N1 & N2 & I1 & I2) Hh Hid.
  unfold Spec.in_sync; simpl; repeat split.
  - now apply NoDup_keys_set.
  - now apply NoDup_keys_set.
  - intros h id E.
    destruct (string_dec (Signature.file_hash sig) h) as [<-|Nh].
    + rewrite get_set_eq in E. injection E as <-.
      exists sig. now rewrite get_set_eq.
    + rewrite get_set_neq in E by auto.
      destruct (I1 _ _ E) as [s [Es Eh]]. exists s. split; auto.
      rewrite get_set_neq; auto. intros <-. congruence.
  - destruct (string_dec (Signature.signature_id sig) id) as [<-|Ni].
    + rewrite get_set_eq in H. now injection H as <-.
    + rewrite get_set_neq in H by auto. now apply I2 in H.
  - destruct (string_dec (Signature.signature_id sig) id) as [<-|Ni].
    + rewrite get_set_eq in H. injection H as <-. apply get_set_eq.
    + rewrite get_set_neq in H by auto.
      destruct (I2 _ _ H) as [_ Ei].
      rewrite get_set_neq; auto. intros Eh.
      unfold SignatureManager.get_by_hash in Hh. rewrite Eh, Ei in Hh. congruence.
Qed.

Lemma in_sync_update (m : SignatureManager.t) (sig sig' : Signature.t) :
  Spec.in_sync m ->
  get (Signature.signature_id sig) (SignatureManager.signatures m) = Some sig ->
  Signature.signature_id sig' = Signature.signature_id sig ->
  Signature.file_hash sig' = Signature.file_hash sig ->
  Spec.in_sync
    (SignatureManager.mk
       (set (Signature.signature_id sig') sig' (SignatureManager.signatures m))
       (SignatureManager.hash_index m)).
Proof.
  intros (N1 & N2 & I1 & I2) Es Eid Eh. rewrite Eid.
  unfold Spec.in_sync; simpl; repeat split; auto.
  - now apply NoDup_keys_set.
  - intros h id E. destruct (I1 _ _ E) as [s [Hs Hh]].
    destruct (string_dec (Signature.signature_id sig) id) as [<-|Ni].
    + exists sig'. rewrite get_set_eq. split; congruence.
    + exists s. now rewrite get_set_neq.
  - destruct (string_dec (Signature.signature_id sig) id) as [<-|Ni].
    + rewrite get_set_eq in H. now injection H as <-.
    + rewrite get_set_neq in H by auto. now apply I2 in H.
  - destruct (string_dec (Signature.signature_id sig) id) as [<-|Ni].
    + rewrite get_set_eq in H. injection H as <-. rewrite Eh. now apply I2.
    + rewrite get_set_neq in H by auto. now apply I2 in H.
Qed.

Lemma in_sync_delete (m : SignatureManager.t) (sig : Signature.t) :
  Spec.in_sync m ->
  get (Signature.signature_id sig) (SignatureManager.signatures m) = Some sig ->
  Spec.in_sync
    (SignatureManager.mk
       (del (Signature.signature_id sig) (SignatureManager.signatures m))
       (del (Signature.file_hash sig) (SignatureManager.hash_index m))).
Proof.
  intros (N1 & N2 & I1 & I2) Es.
  destruct (I2 _ _ Es) as [_ Ei].
  unfold Spec.in_sync; simpl; repeat split.
  - now apply NoDup_keys_del.
  - now apply NoDup_keys_del.
  - intros h id E.
    destruct (string_dec (Signature.file_hash sig) h) as [<-|Nh].
    + rewrite get_del_eq in E. discriminate.
    + rewrite get_del_neq in E by auto.
      destruct (I1 _ _ E) as [s [Hs Hh]]. exists s. split; auto.
      rewrite get_del_neq; auto. intros <-. congruence.
  - destruct (string_dec (Signature.signature_id sig) id) as [<-|Ni].
    + rewrite get_del_eq in H. discriminate.
    + rewrite get_del_neq in H by auto. now apply I2 in H.
  - destruct (string_dec (Signature.signature_id sig) id) as [<-|Ni].
    + rewrite get_del_eq in H. discriminate.
    + rewrite get_del_neq in H by auto.
      destruct (I2 _ _ H) as [_ Ei'].
      rewrite get_del_neq; auto. intros Eh. rewrite Eh in Ei. congruence.
Qed.

(** *** Loading *)

Lemma set_fresh {V} (k : string) (v : V) (d : dict V) :
  ~ In k (keys d) -> set k v d = (d ++ [(k, v)])%list.
Proof.
  induction d as [|[k' v'] d IH]; simpl; auto.
  intros H. destruct (String.eqb_spec k k') as [->|N].
  - exfalso. auto.
  - rewrite IH; auto.
Qed.

Lemma _load_fold (sigs : list Signature.t) (m : SignatureManager.t) :
  fold_left
    (fun m sig =>
       SignatureManager.mk
         (set (Signature.signature_id sig) sig (SignatureManager.signatures m))
         (set (Signature.file_hash sig) (Signature.signature_id sig)
              (SignatureManager.hash_index m)))
    sigs m
  = SignatureManager.mk
      (fold_left (fun d s => set (Signature.signature_id s) s d) sigs
                 (SignatureManager.signatures m))
      (fold_left (fun d s => set (Signature.file_hash s) (Signature.signature_id s) d)
                 sigs (SignatureManager.hash_index m)).
Proof.
  revert m. induction sigs as [|s sigs IH]; intros m; simpl.
  - now destruct m.
  - now rewrite IH.
Qed.

Lemma fold_set_fresh {V} (f : Signature.t -> string) (g : Signature.t -> V)
    (sigs : list Signature.t) (d : dict V) :
  NoDup (keys d ++ map f sigs) ->
  fold_left (fun d s => set (f s) (g s) d) sigs d
  = (d ++ map (fun s => (f s, g s)) sigs)%list.
Proof.
  revert d. induction sigs as [|s sigs IH]; intros d N; simpl.
  - now rewrite app_nil_r.
  - rewrite set_fresh.
    + rewrite IH.
      * now rewrite <- app_assoc.
      * unfold keys. rewrite map_app. simpl. rewrite <- app_assoc. exact N.
    + apply NoDup_remove_2 in N. intros H. apply N. apply in_or_app. auto.
Qed.

Lemma in_sync_of_list (sigs : list Signature.t) :
  NoDup (map Signature.signature_id sigs) ->
  NoDup (map Signature.file_hash sigs) ->
  Spec.in_sync
    (SignatureManager.mk
       (map (fun s => (Signature.signature_id s, s)) sigs)
       (map (fun s => (Signature.file_hash s, Signature.signature_id s)) sigs)).
Proof.
  intros N1 N2.
  assert (keys (map (fun s => (Signature.signature_id s, s)) sigs)
          = map Signature.signature_id sigs) as K1.
  { unfold keys. rewrite map_map. reflexivity. }
  assert (keys (map (fun s => (Signature.file_hash s, Signature.signature_id s)) sigs)
          = map Signature.file_hash sigs) as K2.
  { unfold keys. rewrite map_map. reflexivity. }
  unfold Spec.in_sync; simpl; repeat split.
  - now rewrite K1.
  - now rewrite K2.
  - intros h id E. apply get_In in E. apply in_map_iff in E as [s [[= <- <-] Hs]].
    exists s. split; auto. apply In_get; [now rewrite K1|].
    apply in_map_iff. eauto.
  - apply get_In in H. apply in_map_iff in H as [s [[= <- <-] Hs]]. reflexivity.
  - apply get_In in H. apply in_map_iff in H as [s [[= <- <-] Hs]].
    apply In_get; [now rewrite K2|]. apply in_map_iff. eauto.
Qed.

Lemma in_sync_values (m : SignatureManager.t) :
  Spec.in_sync m ->
  NoDup (map Signature.signature_id (values (SignatureManager.signatures m)))
  /\ NoDup (map Signature.file_hash (values (SignatureManager.signatures m)))
  /\ map (fun s => (Signature.signature_id s, s))
         (values (SignatureManager.signatures m))
     = SignatureManager.signatures m.
Proof.
  intros (N1 & N2 & I1 & I2).
  assert (forall k s, In (k, s) (SignatureManager.signatures m) ->
                      Signature.signature_id s = k
                      /\ get (Signature.file_hash s) (SignatureManager.hash_index m)
                         = Some k) as A.
  { intros k s H. apply I2. now apply In_get. }
  clear I1 I2 N2. revert N1 A.
  generalize (SignatureManager.hash_index m) as idx.
  generalize (SignatureManager.signatures m) as d.
  intros d idx N1 A.
  assert (map Signature.signature_id (values d) = keys d
          /\ map (fun s => get (Signature.file_hash s) idx) (values d)
             = map Some (keys d)
          /\ map (fun s => (Signature.signature_id s, s)) (values d) = d) as (E1 & E2 & E3).
  { clear N1. induction d as [|[k s] d IH]; simpl; auto.
    destruct (A k s) as [Ek Eh]; [simpl; auto|].
    destruct IH as (H1 & H2 & H3); [intros; apply A; simpl; auto|].
    unfold values, keys in *. simpl. rewrite H1, H2, H3, Ek, Eh. auto. }
  repeat split; auto.
  - now rewrite E1.
  - apply (NoDup_map_inv (fun h => get h idx)). rewrite map_map, E2.
    apply Injective_map_NoDup; auto. now intros x y [= ->].
Qed.

Lemma __init___in_sync (m : SignatureManager.t) (ts : string) :
  Spec.in_sync m ->
  exists m',
    SignatureManager.__init__
      (Complete (values (SignatureManager.signatures m)) ts) = Some m'
    /\ SignatureManager.signatures m' = SignatureManager.signatures m
    /\ SignatureManager.hash_index m'
       = Spec.index_of (values (SignatureManager.signatures m))
    /\ Spec.in_sync m'.
Proof.
  intros S. destruct (in_sync_values m S) as (N1 & N2 & E).
  eexists. split; [reflexivity|].
  rewrite _load_fold. simpl.
  rewrite (fold_set_fresh Signature.signature_id (fun s => s)) by (simpl; auto).
  rewrite (fold_set_fresh Signature.file_hash Signature.signature_id)
    by (simpl; auto).
  simpl. rewrite E. split; [reflexivity|]. split.
  - unfold Spec.index_of.
    now rewrite (fold_set_fresh Signature.file_hash Signature.signature_id)
      by (simpl; auto).
  - rewrite <- E at 1. now apply in_sync_of_list.
Qed.

(** *** Every operation keeps the store in sync *)

Lemma get_by_id_filed (m : SignatureManager.t) (x : string) (s : Signature.t)
    (out : list string) :
  Spec.in_sync m ->
  SignatureManager.get_by_id m x = (Some s, out) ->
  get (Signature.signature_id s) (SignatureManager.signatures m) = Some s
  /\ get (Signature.file_hash s) (SignatureManager.hash_index m)
     = Some (Signature.signature_id s).
Proof.
  intros (_ & _ & _ & I2) H. apply get_by_id_stored in H as [k Hk].
  destruct (I2 _ _ Hk) as [<- Hh]. auto.
Qed.

(** Removing the stored run file leaves the manager as it is. *)
Lemma mgr_after_unlink (sig : Signature.t) (w : SignatureManager.World) :
  SignatureManager.mgr
    (if String.eqb (Signature.output_file sig) "" then w
     else SignatureManager.with_runs w
            (del (Signature.output_file sig) (SignatureManager.runs w)))
  = SignatureManager.mgr w.
Proof. now destruct (String.eqb _ ""). Qed.

Lemma create_consistent (env : Env) (content source mode : string)
    (parsed : dict (list string)) (w : SignatureManager.World) :
  Spec.consistent w ->
  Spec.fresh_identity (Spec.Create env content source mode parsed) w ->
  Spec.consistent
    (snd (SignatureManager.create_signature env content source mode parsed w)).
Proof.
  intros [S F] Fr. simpl in Fr.
  destruct (SignatureManager.get_by_hash (SignatureManager.mgr w)
              (SignatureManager.compute_file_hash content mode)) as [s|] eqn:E.
  - rewrite (create_existing _ _ _ _ _ _ _ E). split; auto.
  - rewrite (create_new _ _ _ _ _ _ E). split.
    + apply in_sync_create; auto.
    + right. eexists. reflexivity.
Qed.

Lemma close_consistent (env : Env) (sig_id ticker : string) (price : Q)
    (reason : string) (w : SignatureManager.World) :
  Spec.consistent w ->
  Spec.consistent (bt.close_in_signature env sig_id ticker price reason w).
Proof.
  intros [S F]. unfold bt.close_in_signature.
  destruct (SignatureManager.get_by_id (SignatureManager.mgr w) sig_id)
    as [[s|] printed] eqn:E; [|split; auto].
  destruct (get_by_id_filed _ _ _ _ S E) as [Hs _].
  unfold Signature.close_position.
  destruct (get ticker (Signature.positions s)) as [p|]; [|split; auto].
  destruct (Signature.is_open p); [|split; auto].
  rewrite close_eq. simpl. split.
  - apply (in_sync_update (SignatureManager.mgr w) s); auto.
  - right. eexists. reflexivity.
Qed.

Lemma delete_consistent (env : Env) (sig_id : string) (w : SignatureManager.World) :
  Spec.consistent w ->
  Spec.consistent (snd (SignatureManager.delete_signature env sig_id w)).
Proof.
  intros [S F]. unfold SignatureManager.delete_signature.
  destruct (SignatureManager.get_by_id (SignatureManager.mgr w) sig_id)
    as [[s|] printed] eqn:E; [|split; auto].
  destruct (get_by_id_filed _ _ _ _ S E) as [Hs Hh].
  rewrite mgr_after_unlink. simpl. unfold mem. rewrite Hh, Hs. simpl. split.
  - now apply in_sync_delete.
  - right. eexists. reflexivity.
Qed.

Lemma restart_consistent (w : SignatureManager.World) :
  Spec.consistent w -> Spec.consistent (Spec.run_op Spec.Restart w).
Proof.
  intros [S [[Fa Fe]|[ts Fc]]]; simpl.
  - rewrite Fa. simpl. split; [apply in_sync_empty|]. left. auto.
  - rewrite Fc. destruct (__init___in_sync _ ts S) as (m' & -> & Es & _ & S').
    split; auto. right. exists ts. simpl. now rewrite Es.
Qed.

Lemma run_op_consistent (o : Spec.op) (w : SignatureManager.World) :
  Spec.consistent w -> Spec.fresh_identity o w -> Spec.consistent (Spec.run_op o w).
Proof.
  intros C Fr. destruct o.
  - now apply create_consistent.
  - now apply close_consistent.
  - now apply delete_consistent.
  - now apply restart_consistent.
Qed.

Lemma reachable_consistent (w : SignatureManager.World) :
  Spec.reachable w -> Spec.consistent w.
Proof.
  induction 1 as [|o w R IH Fr].
  - split; [apply in_sync_empty|]. left. auto.
  - now apply run_op_consistent.
Qed.

Lemma in_sync_entries (m : SignatureManager.t) :
  Spec.in_sync m -> Spec.entries_point_to_signatures m.
Proof.
  intros (_ & _ & I1 & _) h id E. destruct (I1 _ _ E) as [s [Hs _]]. eauto.
Qed.

Lemma in_sync_once (m : SignatureManager.t) :
  Spec.in_sync m -> Spec.fingerprints_indexed_once m.
Proof.
  intros (_ & N2 & _ & I2) id s E. destruct (I2 _ _ E) as [_ Hh].
  apply NoDup_count_occ'; auto. eapply get_Some_keys; eauto.
Qed.

Lemma __init___index (sigs : list Signature.t) (ts : string) (m : SignatureManager.t) :
  SignatureManager.__init__ (Complete sigs ts) = Some m ->
  SignatureManager.hash_index m = Spec.index_of sigs.
Proof.
  unfold SignatureManager.__init__, SignatureManager._load.
  rewrite _load_fold. now intros [= <-].
Qed.

(** C8, as the code has it: the fingerprint index is derived from the
    signatures and kept in sync with them as long as no creation reuses an
    identity that is already stored.  [_load] builds the index from the
    saved signatures alone (the ledger file holds signatures and a time
    stamp, no index); a creation files the new signature under its identity
    and indexes its fingerprint; a successful deletion removes the signature
    and the entry of its fingerprint.  In every state reached from the empty
    store by creations that do not reuse a stored identity, closes,
    deletions and restarts from the ledger file, every index entry leads to
    a stored signature with that fingerprint, and the fingerprint of every
    stored signature is a key of the index exactly once. *)
Theorem hash_index_in_sync :
  (forall sigs ts m,
      SignatureManager.__init__ (Complete sigs ts) = Some m ->
      SignatureManager.hash_index m = Spec.index_of sigs)
  /\ (forall env content source mode parsed w,
         SignatureManager.get_by_hash (SignatureManager.mgr w)
           (SignatureManager.compute_file_hash content mode) = None ->
         let r := SignatureManager.create_signature env content source mode
                    parsed w in
         get (Signature.signature_id (fst (fst r)))
             (SignatureManager.signatures (SignatureManager.mgr (snd r)))
         = Some (fst (fst r))
         /\ get (SignatureManager.compute_file_hash content mode)
                (SignatureManager.hash_index (SignatureManager.mgr (snd r)))
            = Some (Signature.signature_id (fst (fst r))))
  /\ (forall env id w sig out,
         SignatureManager.get_by_id (SignatureManager.mgr w) id = (Some sig, out) ->
         let r := SignatureManager.delete_signature env id w in
         fst r = Some true ->
         get (Signature.signature_id sig)
             (SignatureManager.signatures (SignatureManager.mgr (snd r))) = None
         /\ get (Signature.file_hash sig)
                (SignatureManager.hash_index (SignatureManager.mgr (snd r))) = None)
  /\ (forall w,
         Spec.reachable w ->
         Spec.in_sync (SignatureManager.mgr w)
         /\ Spec.entries_point_to_signatures (SignatureManager.mgr w)
         /\ Spec.fingerprints_indexed_once (SignatureManager.mgr w)).
Proof.
  split; [exact __init___index|]. split; [|split].
  - intros env content source mode parsed w E r. subst r.
    rewrite (create_new _ _ _ _ _ _ E). simpl. now rewrite !get_set_eq.
  - intros env id w sig out E r. subst r.
    unfold SignatureManager.delete_signature. rewrite E.
    rewrite mgr_after_unlink. simpl.
    destruct (mem (Signature.signature_id sig) _); [|discriminate].
    intros _. simpl. split; [apply get_del_eq|].
    destruct (mem (Signature.file_hash sig) _) eqn:Em; [apply get_del_eq|].
    unfold mem in Em. now destruct (get (Signature.file_hash sig) _).
  - intros w R. destruct (reachable_consistent w R) as [S _].
    split; [exact S|]. split; [now apply in_sync_entries|now apply in_sync_once].
Qed.

Lemma reachable_run_ops (ops : list Spec.op) (w : SignatureManager.World) :
  Spec.reachable w -> Spec.all_fresh ops w -> Spec.reachable (Spec.run_ops ops w).
Proof.
  revert w. induction ops as [|o ops IH]; intros w R F; simpl in *; auto.
  destruct F as [Fo Fr]. apply IH; auto. now apply Spec.reachable_step.
Qed.

Lemma hash_index_in_sync_witness :
  let w := Spec.run_ops Sample.calm_run Spec.initial in
  keys (SignatureManager.signatures (SignatureManager.mgr w))
  = ["20250101_100000_1a8dc849"; "20250106_163000_1a8dc849"]
  /\ Spec.in_sync (SignatureManager.mgr w)
  /\ Spec.entries_point_to_signatures (SignatureManager.mgr w)
  /\ Spec.fingerprints_indexed_once (SignatureManager.mgr w).
Proof.
  split; [vm_compute; reflexivity|].
  apply (proj2 (proj2 (proj2 hash_index_in_sync))).
  apply reachable_run_ops; [apply Spec.reachable_initial|].
  repeat split; intros _; vm_compute; reflexivity.
Defined.

(** C8, counterexample: two reports whose fingerprints differ but start with
    the same eight hexadecimal digits are ingested within one second.  Both
    get the identity 20250101_100000_1a8dc849, so the second signature
    replaces the first in the store while both fingerprints stay in the
    index, the first now leading to a signature with another fingerprint.
    After that signature is deleted, the first fingerprint is still in the
    index and points to no signature. *)
Lemma identity_collision_breaks_sync :
  let h_a := SignatureManager.compute_file_hash Sample.report_a "all" in
  let h_b := SignatureManager.compute_file_hash Sample.report_b "all" in
  let w2 := Spec.run_ops Sample.same_second Spec.initial in
  let w3 := Spec.run_op (Spec.Delete Sample.env1 "20250101_100000_1a8dc849") w2 in
  h_a <> h_b
  /\ SignatureManager.new_signature_id Sample.t0 h_a = "20250101_100000_1a8dc849"
  /\ SignatureManager.new_signature_id Sample.t0 h_b = "20250101_100000_1a8dc849"
  /\ keys (SignatureManager.signatures (SignatureManager.mgr w2))
     = ["20250101_100000_1a8dc849"]
  /\ keys (SignatureManager.hash_index (SignatureManager.mgr w2)) = [h_a; h_b]
  /\ option_map Signature.file_hash
       (SignatureManager.get_by_hash (SignatureManager.mgr w2) h_a) = Some h_b
  /\ SignatureManager.signatures (SignatureManager.mgr w3) = []
  /\ SignatureManager.hash_index (SignatureManager.mgr w3)
     = [(h_a, "20250101_100000_1a8dc849")]
  /\ ~ Spec.entries_point_to_signatures (SignatureManager.mgr w3).
Proof.
  repeat split; try (vm_compute; reflexivity).
  - vm_compute. discriminate.
  - intros H.
    destruct (H (SignatureManager.compute_file_hash Sample.report_a "all")
                "20250101_100000_1a8dc849") as [s Hs].
    + vm_compute. reflexivity.
    + vm_compute in Hs. discriminate.
Qed.

(** *** Idempotent creation *)

(** C1, as the code has it: [create_signature] is idempotent on resolving
    fingerprints.  When the fingerprint of (content, mode) is in the
    fingerprint index and its entry resolves to a stored signature, that
    signature is returned with the flag [False] and the whole state is as
    before: the signatures and the index, the ledger file, the run files,
    and the log of price requests.  Called twice with the same content and
    mode, at any two times and with any price source, source label and
    ticker lists, the second call returns the signature of the first, not
    new, and changes nothing.  In every state reached without reusing a
    stored identity, a fingerprint that is in the index does resolve to a
    stored signature.  A fingerprint whose entry resolves to no stored
    signature is treated as unseen: the call returns a new signature with
    that fingerprint and asks the price source. *)
Theorem create_signature_idempotent :
  (forall env content source mode parsed w sig_id sig,
      get (SignatureManager.compute_file_hash content mode)
          (SignatureManager.hash_index (SignatureManager.mgr w)) = Some sig_id ->
      get sig_id (SignatureManager.signatures (SignatureManager.mgr w)) = Some sig ->
      SignatureManager.create_signature env content source mode parsed w
      = ((sig, false), w))
  /\ (forall env env' content source source' mode parsed parsed' w,
         let first := SignatureManager.create_signature env content source mode
                        parsed w in
         let second := SignatureManager.create_signature env' content source' mode
                         parsed' (snd first) in
         second = ((fst (fst first), false), snd first)
         /\ Signature.signature_id (fst (fst second))
            = Signature.signature_id (fst (fst first))
         /\ SignatureManager.runs (snd second) = SignatureManager.runs (snd first)
         /\ SignatureManager.price_requests (snd second)
            = SignatureManager.price_requests (snd first))
  /\ (forall env content source mode parsed w,
         Spec.reachable w ->
         mem (SignatureManager.compute_file_hash content mode)
             (SignatureManager.hash_index (SignatureManager.mgr w)) = true ->
         exists sig,
           SignatureManager.create_signature env content source mode parsed w
           = ((sig, false), w))
  /\ (forall env content source mode parsed w sig_id,
         get (SignatureManager.compute_file_hash content mode)
             (SignatureManager.hash_index (SignatureManager.mgr w)) = Some sig_id ->
         get sig_id (SignatureManager.signatures (SignatureManager.mgr w)) = None ->
         let r := SignatureManager.create_signature env content source mode
                    parsed w in
         snd (fst r) = true
         /\ Signature.file_hash (fst (fst r))
            = SignatureManager.compute_file_hash content mode
         /\ SignatureManager.price_requests (snd r)
            = (SignatureManager.price_requests w
               ++ [fst (SignatureManager.select_tickers mode parsed)])%list).
Proof.
  split; [|split; [|split]].
  4: { intros env content source mode parsed w sig_id Hi Hs r. subst r.
       rewrite create_new; [auto|].
       unfold SignatureManager.get_by_hash. unfold mem. now rewrite Hi. }
  3: { intros env content source mode parsed w R M.
       destruct (reachable_consistent w R) as [(_ & _ & I1 & _) _].
       unfold mem in M.
       destruct (get (SignatureManager.compute_file_hash content mode) _)
         as [id|] eqn:E; [|discriminate].
       destruct (I1 _ _ E) as [sig [Hs _]]. exists sig.
       apply create_existing. unfold SignatureManager.get_by_hash.
       now rewrite E. }
  - intros env content source mode parsed w sig_id sig Hi Hs.
    apply create_existing. unfold SignatureManager.get_by_hash. now rewrite Hi.
  - intros env env' content source source' mode parsed parsed' w first second.
    assert (second = ((fst (fst first), false), snd first)) as E.
    { apply create_existing. apply create_then_resolves. }
    rewrite E. auto.
Qed.

Lemma create_signature_idempotent_witness :
  let w := snd (SignatureManager.create_signature Sample.env0 Sample.report_a
                  "scan.txt" "all" Sample.parsed0 Sample.world0) in
  exists sig,
    Signature.signature_id sig = "20250101_100000_1a8dc849"
    /\ keys (Signature.positions sig) = ["AAPL"; "MSFT"]
    /\ SignatureManager.create_signature Sample.env1 Sample.report_a "again.txt"
         "all" [] w = ((sig, false), w).
Proof.
  eexists. split; [|split].
  3: { apply (proj1 create_signature_idempotent) with
         (sig_id := "20250101_100000_1a8dc849"); vm_compute; reflexivity. }
  - reflexivity.
  - reflexivity.
Defined.

(** C1, counterexample: two reports are ingested within one second under
    one identity and the signature under that identity is deleted, which
    leaves the fingerprint of the first report in the index with no
    signature behind it.  Ingesting the first report again, its fingerprint
    being in the index, returns a signature flagged new, asks the price
    source again, writes a run file, and changes the store and the index. *)
Lemma create_signature_dangling_entry_creates_anew :
  let h_a := SignatureManager.compute_file_hash Sample.report_a "all" in
  let w := Sample.dangling_world in
  let r := SignatureManager.create_signature Sample.env1 Sample.report_a "a.txt"
             "all" Sample.parsed0 w in
  mem h_a (SignatureManager.hash_index (SignatureManager.mgr w)) = true
  /\ SignatureManager.hash_index (SignatureManager.mgr w)
     = [(h_a, "20250101_100000_1a8dc849")]
  /\ SignatureManager.signatures (SignatureManager.mgr w) = []
  /\ snd (fst r) = true
  /\ Signature.signature_id (fst (fst r)) = "20250106_163000_1a8dc849"
  /\ SignatureManager.price_requests (snd r)
     = (SignatureManager.price_requests w ++ [["AAPL"; "MSFT"]])%list
  /\ keys (SignatureManager.runs w) = []
  /\ keys (SignatureManager.runs (snd r))
     = ["20250106/20250106_163000_1a8dc849.txt"]
  /\ keys (SignatureManager.signatures (SignatureManager.mgr (snd r)))
     = ["20250106_163000_1a8dc849"]
  /\ SignatureManager.hash_index (SignatureManager.mgr (snd r))
     = [(h_a, "20250106_163000_1a8dc849")].
Proof.
  cbv zeta.
  split; [|split; [|split; [|split; [|split; [|split; [|split; [|split; [|split]]]]]]]];
    vm_compute; reflexivity.
Qed.


(** ** The fingerprint and SHA-256 *)

Example sha256_abc :
  SHA256.hexdigest "abc"
  = "ba7816bf8f01cfea414140de5dae2223b00361a396177a9cb410ff61f20015ad".
Proof. vm_compute. reflexivity. Qed.

Example sha256_empty :
  SHA256.hexdigest ""
  = "e3b0c44298fc1c149afbf4c8996fb92427ae41e4649b934ca495991b7852b855".
Proof. vm_compute. reflexivity. Qed.

Example sha256_two_blocks :
  SHA256.hexdigest "abcdbcdecdefdefgefghfghighijhijkijkljklmklmnlmnomnopnopq"
  = "248d6a61d20638b8e5c026930c3e6039a33ce45964ff2167f6ecedd419db06c1".
Proof. vm_compute. reflexivity. Qed.

Lemma add32_range (x y : Z) : (0 <= SHA256.add32 x y < 2 ^ 32)%Z.
Proof. unfold SHA256.add32. apply Z.mod_pos_bound. reflexivity. Qed.

Lemma compress_words32 (s : SHA256.state) (block : list Z) :
  Spec.words32 (SHA256.compress s block).
Proof.
  unfold SHA256.compress.
  destruct (fold_left SHA256.round _ s) as [[[[[[[a b] c] d] e] f] g] h].
  destruct s as [[[[[[[a0 b0] c0] d0] e0] f0] g0] h0].
  unfold Spec.words32. repeat split; apply add32_range.
Qed.

Lemma init_words32 : Spec.words32 SHA256.init.
Proof.
  unfold Spec.words32, SHA256.init.
  repeat split; apply Z.mod_pos_bound; reflexivity.
Qed.

Lemma fold_left_invariant {A B : Type} (P : A -> Prop) (f : A -> B -> A)
    (l : list B) (a : A) :
  P a -> (forall x y, P (f x y)) -> P (fold_left f l a).
Proof.
  intros Ha Hf. revert a Ha. induction l as [|y l IH]; intros a Ha; simpl; auto.
Qed.

Lemma hash_state_words32 (msg : list Z) : Spec.words32 (SHA256.hash_state msg).
Proof.
  unfold SHA256.hash_state. apply fold_left_invariant.
  - exact init_words32.
  - exact compress_words32.
Qed.

Lemma digest_int_range (s : string) : (0 <= SHA256.digest_int s < 2 ^ 256)%Z.
Proof.
  unfold SHA256.digest_int.
  generalize (hash_state_words32 (map SHA256.byte_of_ascii (list_ascii_of_string s))).
  destruct (SHA256.hash_state _) as [[[[[[[a b] c] d] e] f] g] h].
  unfold Spec.words32, SHA256.int_of_state.
  change (2 ^ 32)%Z with 4294967296%Z.
  change (2 ^ 256)%Z with
    (4294967296 * 4294967296 * 4294967296 * 4294967296
     * 4294967296 * 4294967296 * 4294967296 * 4294967296)%Z.
  intros (Ha & Hb & Hc & Hd & He & Hf & Hg & Hh). lia.
Qed.

(** *** Pigeons *)

Lemma bounded_search (g : nat -> nat) (v n : nat) :
  (exists i, i < n /\ g i = v)%nat \/ (forall i, (i < n)%nat -> g i <> v).
Proof.
  induction n as [|n [[i [Hi E]]|IH]].
  - right. intros i Hi. lia.
  - left. exists i. split; auto.
  - destruct (Nat.eq_dec (g n) v) as [E|N].
    + left. exists n. split; auto.
    + right. intros i Hi. destruct (Nat.eq_dec i n) as [->|Ni]; auto.
      apply IH. lia.
Qed.

Lemma pigeonhole (M : nat) :
  forall g : nat -> nat,
    (forall k, (k <= M)%nat -> (g k < M)%nat) ->
    exists i j, (i < j)%nat /\ (j <= M)%nat /\ g i = g j.
Proof.
  induction M as [|M IH]; intros g B.
  - specialize (B 0%nat (le_n _)). lia.
  - destruct (bounded_search g (g (S M)) (S M)) as [[i [Hi E]]|N].
    + exists i, (S M). auto.
    + set (v := g (S M)) in *.
      destruct (IH (fun k => if Nat.ltb (g k) v then g k else (g k - 1)%nat))
        as (i & j & Hij & Hj & E).
      * intros k Hk. specialize (N k ltac:(lia)).
        pose proof (B (S M) (le_n _)) as Bv. fold v in Bv.
        pose proof (B k ltac:(lia)) as Bk.
        destruct (Nat.ltb_spec (g k) v); lia.
      * exists i, j. split; auto. split; [lia|].
        pose proof (N i ltac:(lia)) as Ni. pose proof (N j ltac:(lia)) as Nj.
        cbv beta in E.
        destruct (Nat.ltb_spec (g i) v); destruct (Nat.ltb_spec (g j) v); lia.
Qed.

Lemma length_letters (n : nat) : String.length (Spec.letters n) = n.
Proof. induction n; simpl; auto. Qed.

Lemma hexdigest_of_digest_int (s s' : string) :
  SHA256.digest_int s = SHA256.digest_int s' ->
  SHA256.hexdigest s = SHA256.hexdigest s'.
Proof. unfold SHA256.hexdigest. now intros ->. Qed.

(** Among more inputs than there are digests, two share a digest. *)
Lemma digest_collision (f : nat -> string) :
  exists i j, (i < j)%nat /\ SHA256.digest_int (f i) = SHA256.digest_int (f j).
Proof.
  destruct (pigeonhole (Z.to_nat (2 ^ 256))
              (fun k => Z.to_nat (SHA256.digest_int (f k))))
    as (i & j & Hij & _ & E).
  - intros k _. apply Z2Nat.inj_lt;
      try apply digest_int_range. apply Z.pow_nonneg. discriminate.
  - exists i, j. split; auto.
    apply Z2Nat.inj; auto; apply digest_int_range.
Qed.

Lemma compute_file_hash_eq_iff (c m c' m' : string) :
  SignatureManager.compute_file_hash c m = SignatureManager.compute_file_hash c' m'
  <-> SHA256.hexdigest (SignatureManager.combined c m)
      = SHA256.hexdigest (SignatureManager.combined c' m').
Proof.
  unfold SignatureManager.compute_file_hash. split.
  - apply append_inj_l.
  - now intros ->.
Qed.

Lemma combined_inj_content (c c' m : string) :
  SignatureManager.combined c m = SignatureManager.combined c' m -> c = c'.
Proof. unfold SignatureManager.combined. apply append_inj_r. Qed.

Lemma combined_inj_mode (c m m' : string) :
  SignatureManager.combined c m = SignatureManager.combined c m' -> m = m'.
Proof.
  unfold SignatureManager.combined. intros H.
  apply append_inj_l in H. now apply (append_inj_l ":") in H.
Qed.

(** What the code settles about the sensitivity of the fingerprint (C7).
    The fingerprint is a function of content and mode, so identical pairs
    have identical fingerprints.  Two pairs have the same fingerprint
    exactly when SHA-256 gives the same digest for their strings
    content:mode.  Changing only the content, or only the mode, changes that
    string, so two such pairs with one fingerprint are a collision of
    SHA-256 itself.  A fingerprint that does not resolve in the store makes
    [create_signature] build a new signature carrying it. *)
Theorem fingerprint_sensitive_up_to_sha256 :
  (forall c m c' m',
      c = c' -> m = m' ->
      SignatureManager.compute_file_hash c m
      = SignatureManager.compute_file_hash c' m')
  /\ (forall c m c' m',
         SignatureManager.compute_file_hash c m
         = SignatureManager.compute_file_hash c' m'
         <-> SHA256.hexdigest (SignatureManager.combined c m)
             = SHA256.hexdigest (SignatureManager.combined c' m'))
  /\ (forall c c' m,
         c <> c' ->
         SignatureManager.combined c m <> SignatureManager.combined c' m
         /\ (SHA256.hexdigest (SignatureManager.combined c m)
             <> SHA256.hexdigest (SignatureManager.combined c' m) ->
             SignatureManager.compute_file_hash c m
             <> SignatureManager.compute_file_hash c' m))
  /\ (forall c m m',
         m <> m' ->
         SignatureManager.combined c m <> SignatureManager.combined c m'
         /\ (SHA256.hexdigest (SignatureManager.combined c m)
             <> SHA256.hexdigest (SignatureManager.combined c m') ->
             SignatureManager.compute_file_hash c m
             <> SignatureManager.compute_file_hash c m'))
  /\ (forall env c source m parsed w,
         SignatureManager.get_by_hash (SignatureManager.mgr w)
           (SignatureManager.compute_file_hash c m) = None ->
         let r := SignatureManager.create_signature env c source m parsed w in
         snd (fst r) = true
         /\ Signature.file_hash (fst (fst r))
            = SignatureManager.compute_file_hash c m).
Proof.
  split; [now intros c m c' m' -> ->|].
  split; [exact compute_file_hash_eq_iff|].
  split; [|split].
  - intros c c' m N. split.
    + intros H. apply N. eapply combined_inj_content; eauto.
    + intros D H. apply D. now apply compute_file_hash_eq_iff.
  - intros c m m' N. split.
    + intros H. apply N. eapply combined_inj_mode; eauto.
    + intros D H. apply D. now apply compute_file_hash_eq_iff.
  - intros env c source m parsed w E r. subst r.
    rewrite (create_new _ _ _ _ _ _ E). auto.
Qed.

Lemma fingerprint_sensitive_up_to_sha256_witness :
  SignatureManager.compute_file_hash "scan 4290" "all"
  <> SignatureManager.compute_file_hash "scan 4291" "all"
  /\ SignatureManager.compute_file_hash "scan 4290" "all"
     <> SignatureManager.compute_file_hash "scan 4290" "strong".
Proof.
  destruct fingerprint_sensitive_up_to_sha256 as (_ & _ & Hc & Hm & _).
  split.
  - apply Hc; [discriminate|]. vm_compute. discriminate.
  - apply Hm; [discriminate|]. vm_compute. discriminate.
Defined.

(** Sensitivity cannot be proved of the function itself: SHA-256 has 2^256
    digests, so among the modes made of 0, 1, ..., 2^256 letters a two give
    the same digest, and with it the same fingerprint, to one and the same
    content.  That such a pair cannot be found in practice is the collision
    resistance of SHA-256, which is not a statement about the function. *)
Lemma fingerprint_collision_between_modes :
  exists mode mode',
    mode <> mode'
    /\ SignatureManager.compute_file_hash Sample.report_a mode
       = SignatureManager.compute_file_hash Sample.report_a mode'.
Proof.
  destruct (digest_collision
              (fun k => SignatureManager.combined Sample.report_a (Spec.letters k)))
    as (i & j & Hij & E).
  exists (Spec.letters i), (Spec.letters j). split.
  - intros H. apply (f_equal String.length) in H.
    rewrite !length_letters in H. lia.
  - apply compute_file_hash_eq_iff. now apply hexdigest_of_digest_int.
Qed.

(** * Further properties of the code *)

(** ** Summaries and closes *)

Lemma filter_disjoint_length {A} (f g : A -> bool) (l : list A) :
  (forall x, f x = true -> g x = false) ->
  (List.length (filter f l) + List.length (filter g l) <= List.length l)%nat.
Proof.
  intros D. induction l as [|x l IH]; simpl; auto.
  destruct (f x) eqn:F.
  - rewrite (D x F). simpl. lia.
  - destruct (g x); simpl; lia.
Qed.

Lemma open_not_closed (p : Position.t) :
  Signature.is_open p = true -> Signature.is_closed p = false.
Proof.
  unfold Signature.is_open, Signature.is_closed.
  intros H. apply String.eqb_eq in H. now rewrite H.
Qed.

Lemma Q_of_nat_le (a b : nat) : (a <= b)%nat -> (Q_of_nat a <= Q_of_nat b)%Q.
Proof. intros H. unfold Q_of_nat, Qle. simpl. lia. Qed.

Lemma ratio_percent_bounds (w c : nat) :
  (w <= c)%nat -> c <> 0%nat ->
  (0 <= Q_of_nat w / Q_of_nat c * 100 <= 100)%Q.
Proof.
  intros L N. pose proof (Q_of_nat_pos c N) as Pc. split.
  - apply Qmult_le_0_compat; [|discriminate].
    apply Qle_shift_div_l; auto. rewrite Qmult_0_l.
    apply (Q_of_nat_le 0 w). lia.
  - setoid_replace 100%Q with (1 * 100)%Q at 2 by reflexivity.
    apply Qmult_le_compat_r; [|discriminate].
    apply Qle_shift_div_r; auto. rewrite Qmult_1_l. now apply Q_of_nat_le.
Qed.

Lemma filter_cover_length {A} (f g : A -> bool) (l : list A) :
  (forall x, f x = true -> g x = false) ->
  (forall x, In x l -> f x = true \/ g x = true) ->
  (List.length (filter f l) + List.length (filter g l) = List.length l)%nat.
Proof.
  intros D. induction l as [|x l IH]; intros C; simpl; auto.
  assert (forall y, In y l -> f y = true \/ g y = true) as C'
    by (intros y Hy; apply C; now right).
  specialize (IH C'). destruct (f x) eqn:F.
  - rewrite (D x F). simpl. lia.
  - destruct (C x (or_introl eq_refl)) as [H|H]; [congruence|].
    rewrite H. simpl. lia.
Qed.

(** X1: The summary of a signature never raises, and its counts fit
    together: no closed position is counted both as a win and as a loss, so
    wins and losses together are at most the closed positions; open and
    closed positions together are at most all positions, and exactly all of
    them when every position has the status open or closed; the win rate
    lies between 0 and 100. *)
Theorem get_summary_counts_consistent (sig : Signature.t) :
  exists s,
    Signature.get_summary sig = Some s
    /\ (Signature.win_count s + Signature.loss_count s
        <= Signature.closed_positions s)%nat
    /\ (Signature.open_positions s + Signature.closed_positions s
        <= Signature.total_positions s)%nat
    /\ ((forall p, In p (values (Signature.positions sig)) ->
                   Position.status p = "open" \/ Position.status p = "closed") ->
        (Signature.open_positions s + Signature.closed_positions s
         = Signature.total_positions s)%nat)
    /\ (0 <= Signature.win_rate s <= 100)%Q.
Proof.
  unfold Signature.get_summary.
  set (closed_l := filter Signature.is_closed (values (Signature.positions sig))).
  assert (List.length (filter (fun p => Qlt_bool 0 (or0 (Position.pnl_pct p))) closed_l)
          + List.length (filter (fun p => Qle_bool (or0 (Position.pnl_pct p)) 0) closed_l)
          <= List.length closed_l)%nat as P.
  { apply filter_disjoint_length. intros p H. unfold Qlt_bool in H.
    now apply negb_true_iff in H. }
  assert (List.length (filter Signature.is_open (values (Signature.positions sig)))
          + List.length closed_l
          <= List.length (Signature.positions sig))%nat as T.
  { unfold closed_l.
    rewrite <- (length_map snd (Signature.positions sig)).
    apply filter_disjoint_length. exact open_not_closed. }
  assert ((forall p, In p (values (Signature.positions sig)) ->
                     Position.status p = "open" \/ Position.status p = "closed") ->
          (List.length (filter Signature.is_open (values (Signature.positions sig)))
           + List.length closed_l
           = List.length (Signature.positions sig))%nat) as T'.
  { intros C. unfold closed_l.
    rewrite <- (length_map snd (Signature.positions sig)).
    apply filter_cover_length; [exact open_not_closed|].
    intros p Hp. unfold Signature.is_open, Signature.is_closed.
    destruct (C p Hp) as [->| ->]; auto. }
  destruct closed_l as [|c cs] eqn:E.
  - simpl. eexists. split; [reflexivity|]. simpl in *.
    split; [lia|]. split; [exact T|]. split; [exact T'|].
    split; discriminate.
  - rewrite truediv_pos by (apply Q_of_nat_pos; discriminate). simpl bind.
    eexists. split; [reflexivity|].
    cbv beta iota delta
      [Signature.total_positions Signature.open_positions
         Signature.closed_positions Signature.win_count Signature.loss_count
         Signature.win_rate].
    split; [exact P|]. split; [exact T|]. split; [exact T'|].
    apply ratio_percent_bounds; [|discriminate]. simpl in P |- *. lia.
Qed.

Lemma percent_sign (d e : Q) :
  (0 < e)%Q ->
  ((0 < d / e * 100)%Q <-> (0 < d)%Q) /\ ((d / e * 100 < 0)%Q <-> (d < 0)%Q).
Proof.
  intros He.
  assert (0 < 100 / e)%Q as Hk.
  { apply Qlt_shift_div_l; auto. rewrite Qmult_0_l. reflexivity. }
  assert (d / e * 100 == d * (100 / e))%Q as E.
  { field. intros Z. rewrite Z in He. now apply Qlt_irrefl in He. }
  rewrite E. split.
  - rewrite <- (Qmult_lt_r 0 d (100 / e) Hk). now rewrite Qmult_0_l.
  - rewrite <- (Qmult_lt_r d 0 (100 / e) Hk). now rewrite Qmult_0_l.
Qed.

(** X2: A position with a positive entry price closes with a positive P/L
    percentage exactly when the exit price is above the entry price, and
    with a negative one exactly when it is below: the percentage and the
    amount always have the same sign. *)
Theorem close_pnl_sign (p : Position.t) (price : Q) (reason : string)
    (now : datetime) :
  (0 < Position.entry_price p)%Q ->
  exists p' pct,
    Position.close p price reason now = Some p'
    /\ Position.pnl_pct p' = Some pct
    /\ ((0 < pct)%Q <-> (Position.entry_price p < price)%Q)
    /\ ((pct < 0)%Q <-> (price < Position.entry_price p)%Q).
Proof.
  intros He. rewrite close_eq. do 2 eexists. split; [reflexivity|].
  simpl. split; [reflexivity|].
  assert (Qlt_bool 0 (Position.entry_price p) = true) as B
    by now apply Qlt_bool_iff.
  rewrite B.
  destruct (percent_sign (price - Position.entry_price p)
              (Position.entry_price p) He) as [H1 H2].
  split.
  - rewrite H1. rewrite <- (Qlt_minus_iff (Position.entry_price p) price).
    reflexivity.
  - rewrite H2. split; intros H.
    + apply (Qplus_lt_l _ _ (- Position.entry_price p)).
      rewrite Qplus_opp_r. exact H.
    + apply (Qplus_lt_l _ _ (- Position.entry_price p)) in H.
      rewrite Qplus_opp_r in H. exact H.
Qed.

Lemma close_pnl_sign_witness :
  exists p' pct,
    Position.close (Sample.entered "AAA" 100) 96 "sell_signal" Sample.t1 = Some p'
    /\ Position.pnl_pct p' = Some pct
    /\ ((0 < pct)%Q <-> (100 < 96)%Q)
    /\ ((pct < 0)%Q <-> (96 < 100)%Q).
Proof.
  apply (close_pnl_sign (Sample.entered "AAA" 100) 96 "sell_signal" Sample.t1).
  reflexivity.
Defined.

Lemma get_split {V} (t : string) (p : V) (d : dict V) :
  get t d = Some p ->
  exists d1 d2,
    d = (d1 ++ (t, p) :: d2)%list
    /\ ~ In t (keys d1)
    /\ forall v, set t v d = (d1 ++ (t, v) :: d2)%list.
Proof.
  induction d as [|[k v0] d IH]; simpl; [discriminate|].
  destruct (String.eqb_spec t k) as [->|N].
  - intros [= ->]. exists [], d. simpl. repeat split; auto.
  - intros H. destruct (IH H) as (d1 & d2 & E & Hn & Hs).
    exists ((k, v0) :: d1), d2. simpl. repeat split.
    + now rewrite E.
    + intros [->|Hin]; auto.
    + intros v. now rewrite Hs.
Qed.

Lemma filter_neq_notin (t : string) (l : list string) :
  ~ In t l -> filter (fun x => negb (String.eqb t x)) l = l.
Proof.
  induction l as [|a l IH]; simpl; auto. intros H.
  destruct (String.eqb_spec t a) as [->|N]; simpl.
  - exfalso. auto.
  - rewrite IH; auto.
Qed.

Lemma get_summary_eq (sig : Signature.t) :
  let closed_l := filter Signature.is_closed (values (Signature.positions sig)) in
  let winners := filter (fun p => Qlt_bool 0 (or0 (Position.pnl_pct p))) closed_l in
  Signature.get_summary sig
  = Some {| Signature.total_positions := List.length (Signature.positions sig);
            Signature.open_positions :=
              List.length (filter Signature.is_open
                             (values (Signature.positions sig)));
            Signature.closed_positions := List.length closed_l;
            Signature.realized_pnl_pct :=
              sum (map (fun p => or0 (Position.pnl_pct p)) closed_l);
            Signature.win_count := List.length winners;
            Signature.loss_count :=
              List.length (filter (fun p => Qle_bool (or0 (Position.pnl_pct p)) 0)
                             closed_l);
            Signature.win_rate :=
              match closed_l with
              | [] => 0%Q
              | _ :: _ => (Q_of_nat (List.length winners)
                             / Q_of_nat (List.length closed_l) * 100)%Q
              end |}.
Proof.
  intros closed_l winners. unfold Signature.get_summary.
  fold closed_l. fold winners.
  destruct closed_l as [|c cs] eqn:E; [reflexivity|].
  rewrite truediv_pos by (apply Q_of_nat_pos; discriminate). reflexivity.
Qed.

(** X3: Closing an open position of a signature changes that position only: the
    signature keeps its identity, fingerprint and other fields, its tickers
    and their order, and every other position; the ticker leaves the open
    tickers, the open count drops by one, the closed count rises by one and
    the total stays. *)
Theorem close_position_effect (sig : Signature.t) (ticker : string) (price : Q)
    (reason : string) (now : datetime) (p : Position.t) :
  NoDup (keys (Signature.positions sig)) ->
  get ticker (Signature.positions sig) = Some p ->
  Position.status p = "open" ->
  exists sig' p' s s',
    Signature.close_position sig ticker price reason now = Some (sig', true)
    /\ Position.close p price reason now = Some p'
    /\ get ticker (Signature.positions sig') = Some p'
    /\ Signature.with_positions sig' (Signature.positions sig) = sig
    /\ keys (Signature.positions sig') = keys (Signature.positions sig)
    /\ (forall t, t <> ticker ->
                  get t (Signature.positions sig') = get t (Signature.positions sig))
    /\ Signature.get_open_tickers sig'
       = filter (fun t => negb (String.eqb ticker t)) (Signature.get_open_tickers sig)
    /\ Signature.get_summary sig = Some s
    /\ Signature.get_summary sig' = Some s'
    /\ Signature.total_positions s' = Signature.total_positions s
    /\ S (Signature.open_positions s') = Signature.open_positions s
    /\ Signature.closed_positions s' = S (Signature.closed_positions s).
Proof.
  intros ND E S.
  destruct (close_position_open sig ticker price reason now p E S) as [p' [C R]].
  destruct (get_split _ _ _ E) as (d1 & d2 & Ed & Hn & Hs).
  assert (Signature.is_open p = true) as Op
    by (unfold Signature.is_open; now rewrite S).
  assert (Signature.is_open p' = false /\ Signature.is_closed p' = true) as [Op' Cl'].
  { rewrite close_eq in C. injection C as <-. split; reflexivity. }
  assert (~ In ticker (keys d2)) as Hn2.
  { rewrite Ed in ND. unfold keys in ND. rewrite map_app in ND. simpl in ND.
    apply NoDup_remove_2 in ND. intros H. apply ND. apply in_or_app. auto. }
  do 2 eexists. eexists. eexists.
  split; [exact R|]. split; [exact C|].
  split; [simpl; apply get_set_eq|].
  split; [now destruct sig|].
  split.
  { simpl. rewrite keys_set. unfold mem. now rewrite E. }
  split.
  { intros t Nt. simpl. apply get_set_neq. congruence. }
  split.
  { unfold Signature.get_open_tickers, items. simpl. rewrite Hs, Ed.
    rewrite !filter_app. simpl. rewrite Op, Op'. simpl.
    rewrite !map_app, filter_app. simpl. rewrite String.eqb_refl. simpl.
    rewrite !filter_neq_notin; auto.
    - intros H. apply Hn2. apply in_map_iff in H as [x [Hx Hf]].
      apply filter_In in Hf as [Hf _]. apply in_map_iff. eauto.
    - intros H. apply Hn. apply in_map_iff in H as [x [Hx Hf]].
      apply filter_In in Hf as [Hf _]. apply in_map_iff. eauto. }
  split; [apply get_summary_eq|]. split; [apply get_summary_eq|].
  assert (Signature.is_closed p = false) as Cp by now apply open_not_closed.
  cbv beta iota delta
    [Signature.total_positions Signature.open_positions
       Signature.closed_positions].
  simpl Signature.positions. rewrite Hs, Ed. unfold values.
  rewrite !map_app, !filter_app, !length_app. simpl.
  rewrite Op, Op', Cl', Cp. simpl. repeat split; lia.
Qed.

Lemma close_position_effect_witness :
  exists sig' s',
    Signature.close_position
      (Sample.sig_with [("AAA", Sample.entered "AAA" 100);
                        ("BBB", Sample.entered "BBB" 50)])
      "AAA" 110 "manual" Sample.t1 = Some (sig', true)
    /\ Signature.get_open_tickers sig' = ["BBB"]
    /\ Signature.get_summary sig' = Some s'
    /\ Signature.closed_positions s' = 1%nat.
Proof.
  destruct (close_position_effect
              (Sample.sig_with [("AAA", Sample.entered "AAA" 100);
                                ("BBB", Sample.entered "BBB" 50)])
              "AAA" 110 "manual" Sample.t1 (Sample.entered "AAA" 100))
    as (sig' & p' & s & s' & R & _ & _ & _ & _ & _ & O & Hs & Hs' & _ & _ & Hc).
  - repeat constructor; simpl; intuition discriminate.
  - reflexivity.
  - reflexivity.
  - exists sig', s'. split; [exact R|]. split; [rewrite O; reflexivity|].
    split; [exact Hs'|]. rewrite Hc.
    vm_compute in Hs. injection Hs as <-. reflexivity.
Defined.

(** ** Open positions across signatures *)

Lemma fold_left_ext {A B} (f g : A -> B -> A) (l : list B) (a : A) :
  (forall x y, f x y = g x y) -> fold_left f l a = fold_left g l a.
Proof.
  intros E. revert a. induction l as [|y l IH]; intros a; simpl; auto.
  now rewrite E, IH.
Qed.

Lemma get_all_open_positions_fold (m : SignatureManager.t) :
  SignatureManager.get_all_open_positions m
  = fold_left Spec.add_signature (items (SignatureManager.signatures m)) empty.
Proof.
  unfold SignatureManager.get_all_open_positions.
  apply fold_left_ext. intros d [sig_id sig]. simpl.
  apply fold_left_ext. intros d' [ticker pos]. reflexivity.
Qed.

Lemma add_open_get (sig_id : string) (d : dict (list (string * Position.t)))
    (tk : string) (pos : Position.t) (t : string) :
  get_default t [] (Spec.add_open sig_id d (tk, pos))
  = if String.eqb t tk && Signature.is_open pos
    then (get_default t [] d ++ [(sig_id, pos)])%list
    else get_default t [] d.
Proof.
  unfold Spec.add_open. destruct (Signature.is_open pos); [|now rewrite andb_false_r].
  rewrite andb_true_r. unfold get_default. cbv zeta.
  destruct (String.eqb_spec t tk) as [->|N].
  - rewrite get_set_eq. unfold mem.
    destruct (get tk d) eqn:E; cbv iota; [now rewrite E|now rewrite get_set_eq].
  - rewrite get_set_neq by congruence.
    destruct (mem tk d); auto. now rewrite get_set_neq by congruence.
Qed.

Lemma add_open_nonempty (sig_id : string) (d : dict (list (string * Position.t)))
    (tp : string * Position.t) :
  (forall t l, get t d = Some l -> l <> []) ->
  forall t l, get t (Spec.add_open sig_id d tp) = Some l -> l <> [].
Proof.
  intros H t l. destruct tp as [tk pos]. unfold Spec.add_open.
  destruct (Signature.is_open pos); [|apply H]. cbv zeta.
  destruct (String.eqb_spec t tk) as [->|N].
  - rewrite get_set_eq. intros [= <-]. now destruct (get_default tk [] _).
  - rewrite get_set_neq by congruence.
    destruct (mem tk d); [apply H|].
    rewrite get_set_neq by congruence. apply H.
Qed.

Lemma add_signature_get (sig_id : string) (ps : list (string * Position.t))
    (d : dict (list (string * Position.t))) (t : string) (x : string * Position.t) :
  In x (get_default t [] (fold_left (Spec.add_open sig_id) ps d))
  <-> In x (get_default t [] d)
      \/ exists pos, In (t, pos) ps /\ Signature.is_open pos = true
                     /\ x = (sig_id, pos).
Proof.
  revert d. induction ps as [|[tk pos] ps IH]; intros d; cbn [fold_left].
  - split; auto. intros [H|[pos [[] _]]]; auto.
  - rewrite IH, add_open_get.
    destruct (String.eqb_spec t tk) as [->|N]; simpl.
    + destruct (Signature.is_open pos) eqn:O.
      * rewrite in_app_iff. simpl. split.
        -- intros [[H|[<-|[]]]|[q [Hq [Oq ->]]]]; eauto 8.
        -- intros [H|[q [[[= <-]|Hq] [Oq ->]]]]; eauto 8.
      * split.
        -- intros [H|[q [Hq [Oq ->]]]]; eauto 8.
        -- intros [H|[q [[[= <-]|Hq] [Oq ->]]]]; eauto 8. congruence.
    + split.
      * intros [H|[q [Hq [Oq ->]]]]; eauto 8.
      * intros [H|[q [[[= E _]|Hq] [Oq ->]]]]; eauto 8. congruence.
Qed.

Lemma add_signature_nonempty (sig_id : string) (ps : list (string * Position.t))
    (d : dict (list (string * Position.t))) :
  (forall t l, get t d = Some l -> l <> []) ->
  forall t l, get t (fold_left (Spec.add_open sig_id) ps d) = Some l -> l <> [].
Proof.
  revert d. induction ps as [|tp ps IH]; intros d H; simpl; auto.
  apply IH. now apply add_open_nonempty.
Qed.

Lemma all_open_get (sigs : list (string * Signature.t))
    (d : dict (list (string * Position.t))) (t : string) (x : string * Position.t) :
  In x (get_default t [] (fold_left Spec.add_signature sigs d))
  <-> In x (get_default t [] d)
      \/ exists sig pos,
           In (fst x, sig) sigs /\ In (t, pos) (Signature.positions sig)
           /\ Signature.is_open pos = true /\ snd x = pos.
Proof.
  revert d. induction sigs as [|[sid sig] sigs IH]; intros d; cbn [fold_left].
  - split; auto. intros [H|(sig & pos & [] & _)]; auto.
  - rewrite IH. unfold Spec.add_signature at 1. unfold items.
    rewrite add_signature_get. split.
    + intros [[H|[pos [Hp [O ->]]]]|(s & pos & Hs & Hp & O & E)].
      * left. exact H.
      * right. exists sig, pos. simpl. auto.
      * right. exists s, pos. simpl. auto.
    + intros [H|(s & pos & Hs & Hp & O & E)].
      * left. left. exact H.
      * destruct Hs as [[= Ei Es]|Hs].
        -- left. right. exists pos. destruct x as [xi xp]. simpl in *.
           subst. auto.
        -- right. exists s, pos. auto.
Qed.

Lemma all_open_nonempty (sigs : list (string * Signature.t))
    (d : dict (list (string * Position.t))) :
  (forall t l, get t d = Some l -> l <> []) ->
  forall t l, get t (fold_left Spec.add_signature sigs d) = Some l -> l <> [].
Proof.
  revert d. induction sigs as [|[sid sig] sigs IH]; intros d H; simpl; auto.
  apply IH. now apply add_signature_nonempty.
Qed.

(** X4: [get_all_open_positions] lists, under each ticker, exactly the open
    positions with that ticker, each with the identity of its signature: a
    pair is listed if and only if the store holds a signature under that
    identity whose positions hold that open position under that ticker.  A
    ticker is a key exactly when some signature has it open, so no ticker
    maps to an empty list. *)
Theorem get_all_open_positions_exact (m : SignatureManager.t) (t : string) :
  (forall sig_id pos,
      In (sig_id, pos)
         (get_default t [] (SignatureManager.get_all_open_positions m))
      <-> exists sig,
            In (sig_id, sig) (SignatureManager.signatures m)
            /\ In (t, pos) (Signature.positions sig)
            /\ Position.status pos = "open")
  /\ (mem t (SignatureManager.get_all_open_positions m) = true
      <-> exists sig_id sig pos,
            In (sig_id, sig) (SignatureManager.signatures m)
            /\ In (t, pos) (Signature.positions sig)
            /\ Position.status pos = "open")
  /\ (forall l, get t (SignatureManager.get_all_open_positions m) = Some l ->
                l <> []).
Proof.
  rewrite get_all_open_positions_fold. unfold items.
  assert (forall sig_id pos,
      In (sig_id, pos)
         (get_default t [] (fold_left Spec.add_signature (SignatureManager.signatures m) empty))
      <-> exists sig,
            In (sig_id, sig) (SignatureManager.signatures m)
            /\ In (t, pos) (Signature.positions sig)
            /\ Position.status pos = "open") as A.
  { intros sig_id pos. rewrite all_open_get. simpl. split.
    - intros [[]|(sig & q & Hs & Hp & O & <-)]. exists sig.
      repeat split; auto. now apply String.eqb_eq in O.
    - intros (sig & Hs & Hp & O). right. exists sig, pos.
      repeat split; auto. unfold Signature.is_open. rewrite O. reflexivity. }
  assert (forall l, get t (fold_left Spec.add_signature (SignatureManager.signatures m) empty)
                    = Some l -> l <> []) as B.
  { apply all_open_nonempty. discriminate. }
  split; [exact A|]. split; [|exact B].
  unfold mem. split.
  - destruct (get t _) as [l|] eqn:E; [|discriminate]. intros _.
    pose proof (B l eq_refl) as Nl. destruct l as [|[sid pos] l]; [congruence|].
    destruct (proj1 (A sid pos)) as (sig & H).
    { unfold get_default. rewrite E. simpl. auto. }
    exists sid, sig, pos. exact H.
  - intros (sid & sig & pos & H).
    assert (In (sid, pos)
              (get_default t [] (fold_left Spec.add_signature
                                   (SignatureManager.signatures m) empty))) as I
      by (apply A; eauto).
    unfold get_default in I. now destruct (get t _).
Qed.

(** ** Listing signatures *)

Lemma ltb_lt (a b : string) : String.ltb a b = true <-> String_as_OT.lt a b.
Proof.
  unfold String.ltb. rewrite <- String_as_OT.cmp_lt. unfold String_as_OT.cmp.
  destruct (String.compare a b); split; congruence.
Qed.

Lemma ltb_asym (a b : string) : String.ltb a b = true -> String.ltb b a = false.
Proof.
  intros H. destruct (String.ltb b a) eqn:E; auto.
  apply ltb_lt in H. apply ltb_lt in E.
  exfalso. eapply String_as_OT.lt_not_eq.
  - eapply String_as_OT.lt_trans; [exact H|exact E].
  - reflexivity.
Qed.

Lemma not_ltb_trans (a b c : string) :
  String.ltb a b = false -> String.ltb b c = false -> String.ltb a c = false.
Proof.
  intros H1 H2. destruct (String.ltb a c) eqn:E; auto.
  apply ltb_lt in E.
  destruct (String_as_OT.compare b a) as [L|Q|G].
  - assert (String.ltb b c = true) as F
      by (apply ltb_lt; eapply String_as_OT.lt_trans; eauto).
    congruence.
  - unfold String_as_OT.eq in Q. subst b.
    apply ltb_lt in E. congruence.
  - apply ltb_lt in G. congruence.
Qed.

Lemma insert_desc_perm (x : Signature.t) (l : list Signature.t) :
  Permutation (x :: l) (SignatureManager.insert_desc x l).
Proof.
  induction l as [|y l IH]; simpl; auto.
  destruct (String.ltb _ _); auto.
  rewrite perm_swap. now constructor.
Qed.

Lemma insert_desc_sorted (x : Signature.t) (l : list Signature.t) :
  StronglySorted Spec.not_older l ->
  StronglySorted Spec.not_older (SignatureManager.insert_desc x l).
Proof.
  induction 1 as [|y l S IH F]; simpl.
  - repeat constructor.
  - destruct (String.ltb (Signature.created_at x) (Signature.created_at y)) eqn:E.
    + constructor; auto.
      apply (Permutation_Forall (insert_desc_perm x l)).
      constructor; auto. now apply ltb_asym.
    + constructor; [now constructor|].
      constructor; [exact E|].
      eapply Forall_impl; [|exact F]. intros z Hz.
      unfold Spec.not_older in *. eapply not_ltb_trans; eauto.
Qed.

Lemma sort_desc_perm (l : list Signature.t) :
  Permutation l (SignatureManager.sort_desc l).
Proof.
  induction l as [|x l IH]; simpl; auto.
  rewrite <- insert_desc_perm. now constructor.
Qed.

Lemma sort_desc_sorted (l : list Signature.t) :
  StronglySorted Spec.not_older (SignatureManager.sort_desc l).
Proof.
  induction l as [|x l IH]; simpl; [constructor|].
  now apply insert_desc_sorted.
Qed.

Lemma In_firstn {A} (n : nat) (l : list A) (x : A) :
  In x (firstn n l) -> In x l.
Proof.
  revert n. induction l as [|y l IH]; intros [|n]; simpl; try tauto.
  intros [H|H]; eauto.
Qed.

Lemma filter_length_le' {A} (f : A -> bool) (l : list A) :
  (List.length (filter f l) <= List.length l)%nat.
Proof.
  induction l as [|y l IH]; simpl; auto. destruct (f y); simpl; lia.
Qed.

Lemma firstn_sorted {A} (R : A -> A -> Prop) (n : nat) (l : list A) :
  StronglySorted R l -> StronglySorted R (firstn n l).
Proof.
  intros S. revert n. induction S as [|x l S IH F]; intros [|n]; simpl;
    try constructor; auto.
  rewrite Forall_forall in *. intros y Hy. apply F.
  eapply In_firstn; eauto.
Qed.

Lemma slice_to_firstn {A} (limit : Z) (l : list A) :
  exists n, SignatureManager.slice_to limit l = firstn n l
            /\ ((0 <= limit)%Z -> n = Z.to_nat limit).
Proof.
  unfold SignatureManager.slice_to. destruct (Z.leb_spec 0 limit).
  - eexists. split; [reflexivity|]. auto.
  - eexists. split; [reflexivity|]. lia.
Qed.

Lemma list_all_eq (self : SignatureManager.t) (mode : option string) (limit : Z) :
  SignatureManager.list_all self mode limit
  = SignatureManager.slice_to limit
      (SignatureManager.sort_desc
         (filter (Spec.mode_selected mode)
                 (values (SignatureManager.signatures self)))).
Proof.
  unfold SignatureManager.list_all, Spec.mode_selected.
  destruct mode as [m|].
  - destruct (negb (String.eqb m "") && negb (String.eqb m "all")); auto.
    do 2 f_equal. symmetry. apply forallb_filter_id.
    apply forallb_forall. auto.
  - do 2 f_equal. symmetry. apply forallb_filter_id.
    apply forallb_forall. auto.
Qed.

(** X5: [list_all] returns stored signatures only, newest first: no signature
    in the result is older than one listed after it.  With a mode other than
    the empty string and all, every signature returned has that mode.  A
    limit of zero or more bounds the length of the result, and a limit that
    is at least the number of stored signatures loses none of the selected
    ones. *)
Theorem list_all_newest_first (self : SignatureManager.t) (mode : option string)
    (limit : Z) :
  let result := SignatureManager.list_all self mode limit in
  StronglySorted Spec.not_older result
  /\ (forall s, In s result ->
                In s (values (SignatureManager.signatures self))
                /\ Spec.mode_selected mode s = true)
  /\ (forall m, mode = Some m -> m <> "" -> m <> "all" ->
                forall s, In s result -> Signature.mode s = m)
  /\ ((0 <= limit)%Z -> (Z.of_nat (List.length result) <= limit)%Z)
  /\ ((Z.of_nat (List.length (SignatureManager.signatures self)) <= limit)%Z ->
      Permutation result
        (filter (Spec.mode_selected mode)
                (values (SignatureManager.signatures self)))).
Proof.
  intros result. subst result. rewrite list_all_eq.
  set (sel := filter (Spec.mode_selected mode)
                     (values (SignatureManager.signatures self))).
  destruct (slice_to_firstn limit (SignatureManager.sort_desc sel)) as (n & -> & Hn).
  assert (forall s, In s (firstn n (SignatureManager.sort_desc sel)) ->
                    In s (values (SignatureManager.signatures self))
                    /\ Spec.mode_selected mode s = true) as A.
  { intros s Hs. apply In_firstn in Hs.
    apply (Permutation_in _ (Permutation_sym (sort_desc_perm sel))) in Hs.
    now apply filter_In in Hs. }
  split; [apply firstn_sorted, sort_desc_sorted|].
  split; [exact A|]. split; [|split].
  - intros m -> N1 N2 s Hs. destruct (A s Hs) as [_ M]. simpl in M.
    apply String.eqb_neq in N1, N2. rewrite N1, N2 in M. simpl in M.
    now apply String.eqb_eq in M.
  - intros L. rewrite (Hn L). pose proof (firstn_le_length (Z.to_nat limit)
                                           (SignatureManager.sort_desc sel)). lia.
  - intros L.
    assert (List.length (SignatureManager.sort_desc sel)
            <= List.length (SignatureManager.signatures self))%nat as B.
    { rewrite <- (Permutation_length (sort_desc_perm sel)). unfold sel.
      rewrite <- (length_map snd (SignatureManager.signatures self)).
      apply filter_length_le'. }
    rewrite Hn by lia. rewrite firstn_all2 by lia.
    apply Permutation_sym, sort_desc_perm.
Qed.

(** ** Stored content, deletion, persistence *)

Lemma append_nonempty_r (a b : string) : b <> "" -> a ++ b <> "".
Proof.
  intros N H. apply (f_equal String.length) in H.
  rewrite length_append in H. destruct b; [congruence|]. simpl in H. lia.
Qed.

Lemma get_by_id_exact (m : SignatureManager.t) (x : string) (s : Signature.t) :
  get x (SignatureManager.signatures m) = Some s ->
  SignatureManager.get_by_id m x = (Some s, []).
Proof. intros E. unfold SignatureManager.get_by_id. now rewrite E. Qed.

Lemma universal_newlines_plain (s : string) :
  Spec.has_carriage_return s = false -> SignatureManager.universal_newlines s = s.
Proof.
  induction s as [|c s IH]; simpl; auto.
  destruct (Ascii.eqb c "013"); simpl; [discriminate|].
  intros H. now rewrite IH.
Qed.

Lemma universal_newlines_clean (s : string) :
  Spec.has_carriage_return (SignatureManager.universal_newlines s) = false.
Proof.
  induction s as [|c s IH]; auto.
  cbn [SignatureManager.universal_newlines].
  destruct (Ascii.eqb c "013") eqn:E.
  - destruct s as [|c' s']; [reflexivity|].
    destruct (Ascii.eqb c' "010"); [exact IH|].
    cbn [Spec.has_carriage_return]. now rewrite IH.
  - cbn [Spec.has_carriage_return]. now rewrite E, IH.
Qed.

(** X6: The raw content of a newly created signature can be read back under
    its identity: right after [create_signature] returns a new signature,
    the signature itself is found by [get_by_id], and [get_output_content]
    of its identity gives the ingested content as a text-mode read returns
    it, that is with every carriage return and line feed pair and every
    other carriage return turned into a line feed; the result holds no
    carriage return, and content without a carriage return is read back
    unchanged. *)
Theorem created_content_readable (env : Env) (content source mode : string)
    (parsed : dict (list string)) (w : SignatureManager.World) :
  let r := SignatureManager.create_signature env content source mode parsed w in
  snd (fst r) = true ->
  SignatureManager.get_by_id (SignatureManager.mgr (snd r))
    (Signature.signature_id (fst (fst r))) = (Some (fst (fst r)), [])
  /\ SignatureManager.get_output_content (Signature.signature_id (fst (fst r)))
       (snd r)
     = (Some (SignatureManager.universal_newlines content), [])
  /\ Spec.has_carriage_return (SignatureManager.universal_newlines content) = false
  /\ (Spec.has_carriage_return content = false ->
      SignatureManager.get_output_content (Signature.signature_id (fst (fst r)))
        (snd r)
      = (Some content, [])).
Proof.
  intros r. subst r.
  destruct (SignatureManager.get_by_hash (SignatureManager.mgr w)
              (SignatureManager.compute_file_hash content mode)) as [s|] eqn:E.
  - rewrite (create_existing _ _ _ _ _ _ _ E). discriminate.
  - rewrite (create_new _ _ _ _ _ _ E). cbv zeta. intros _.
    cbn [fst snd SignatureManager.mgr].
    assert (SignatureManager.get_by_id
              (SignatureManager.mk
                 (set (Signature.signature_id (Spec.created env content source mode parsed))
                      (Spec.created env content source mode parsed)
                      (SignatureManager.signatures (SignatureManager.mgr w)))
                 (set (Signature.file_hash (Spec.created env content source mode parsed))
                      (Signature.signature_id (Spec.created env content source mode parsed))
                      (SignatureManager.hash_index (SignatureManager.mgr w))))
              (Signature.signature_id (Spec.created env content source mode parsed))
            = (Some (Spec.created env content source mode parsed), [])) as G.
    { apply get_by_id_exact. simpl. apply get_set_eq. }
    split; [exact G|].
    unfold SignatureManager.get_output_content.
    cbn [SignatureManager.mgr SignatureManager.runs]. rewrite G.
    assert (Signature.output_file (Spec.created env content source mode parsed)
            <> "") as N.
    { unfold Spec.created. cbn [Signature.output_file].
      apply append_nonempty_r. discriminate. }
    apply String.eqb_neq in N. rewrite N, get_set_eq. cbn [option_map].
    split; [reflexivity|]. split; [apply universal_newlines_clean|].
    intros H. now rewrite universal_newlines_plain.
Qed.

Lemma created_content_readable_witness :
  let r := SignatureManager.create_signature Sample.env0 Sample.report_crlf
             "a.txt" "strong" Sample.parsed0 Spec.initial in
  let r' := SignatureManager.create_signature Sample.env0 Sample.report_a
              "a.txt" "strong" Sample.parsed0 Spec.initial in
  SignatureManager.get_output_content (Signature.signature_id (fst (fst r))) (snd r)
  = (Some ("line1" ++ String "010"%char "line2"), [])
  /\ SignatureManager.get_output_content "20250101_100000_123e51ef" (snd r')
     = (Some Sample.report_a, []).
Proof.
  cbv zeta. split.
  - destruct (created_content_readable Sample.env0 Sample.report_crlf "a.txt"
                "strong" Sample.parsed0 Spec.initial) as (_ & H & _).
    + vm_compute. reflexivity.
    + rewrite H. reflexivity.
  - assert (Signature.signature_id
              (fst (fst (SignatureManager.create_signature Sample.env0
                           Sample.report_a "a.txt" "strong" Sample.parsed0
                           Spec.initial)))
            = "20250101_100000_123e51ef") as E by (vm_compute; reflexivity).
    rewrite <- E.
    apply (created_content_readable Sample.env0 Sample.report_a "a.txt" "strong"
             Sample.parsed0 Spec.initial); vm_compute; reflexivity.
Defined.

Lemma calm_world_consistent : Spec.consistent Sample.calm_world.
Proof.
  apply reachable_consistent. apply reachable_run_ops.
  - apply Spec.reachable_initial.
  - repeat split; intros _; vm_compute; reflexivity.
Qed.

(** X7: In a store that is in sync, [delete_signature] never raises.  When the
    lookup finds nothing it returns [False] and leaves the manager, the
    ledger file and the run files alone.  When it finds a signature it
    returns [True] and removes that signature, the index entry of its
    fingerprint and its run file, and nothing else: every other signature,
    index entry and run file is as before, and the store is still in sync. *)
Theorem delete_signature_removes_one (env : Env) (id : string)
    (w : SignatureManager.World) :
  Spec.in_sync (SignatureManager.mgr w) ->
  let r := SignatureManager.delete_signature env id w in
  match fst (SignatureManager.get_by_id (SignatureManager.mgr w) id) with
  | None =>
      fst r = Some false
      /\ SignatureManager.mgr (snd r) = SignatureManager.mgr w
      /\ SignatureManager.signatures_file (snd r) = SignatureManager.signatures_file w
      /\ SignatureManager.runs (snd r) = SignatureManager.runs w
  | Some sig =>
      fst r = Some true
      /\ get (Signature.signature_id sig)
             (SignatureManager.signatures (SignatureManager.mgr (snd r))) = None
      /\ get (Signature.file_hash sig)
             (SignatureManager.hash_index (SignatureManager.mgr (snd r))) = None
      /\ (Signature.output_file sig <> "" ->
          get (Signature.output_file sig) (SignatureManager.runs (snd r)) = None)
      /\ (forall id', id' <> Signature.signature_id sig ->
            get id' (SignatureManager.signatures (SignatureManager.mgr (snd r)))
            = get id' (SignatureManager.signatures (SignatureManager.mgr w)))
      /\ (forall h, h <> Signature.file_hash sig ->
            get h (SignatureManager.hash_index (SignatureManager.mgr (snd r)))
            = get h (SignatureManager.hash_index (SignatureManager.mgr w)))
      /\ (forall path, path <> Signature.output_file sig ->
            get path (SignatureManager.runs (snd r))
            = get path (SignatureManager.runs w))
      /\ Spec.in_sync (SignatureManager.mgr (snd r))
  end.
Proof.
  intros S r. subst r. unfold SignatureManager.delete_signature.
  destruct (SignatureManager.get_by_id (SignatureManager.mgr w) id)
    as [[sig|] printed] eqn:E; cbn [fst]; [|auto].
  destruct (get_by_id_filed _ _ _ _ S E) as [Hs Hh].
  rewrite mgr_after_unlink. cbn [SignatureManager.mgr SignatureManager.with_stdout
                                   SignatureManager.with_mgr].
  cbn [SignatureManager.signatures SignatureManager.hash_index].
  unfold mem. rewrite Hh, Hs. cbn [fst snd].
  split; [reflexivity|]. cbn.
  split; [apply get_del_eq|]. split; [apply get_del_eq|].
  split; [|split; [|split; [|split]]].
  - intros N. apply String.eqb_neq in N. rewrite N. apply get_del_eq.
  - intros id' N. apply get_del_neq. congruence.
  - intros h N. apply get_del_neq. congruence.
  - intros path N. destruct (String.eqb _ ""); auto.
    apply get_del_neq. congruence.
  - now apply in_sync_delete.
Qed.

Lemma delete_signature_removes_one_witness :
  let r := SignatureManager.delete_signature Sample.env1 "20250106"
             Sample.calm_world in
  fst r = Some true
  /\ keys (SignatureManager.signatures (SignatureManager.mgr (snd r)))
     = ["20250101_100000_1a8dc849"]
  /\ Spec.in_sync (SignatureManager.mgr (snd r)).
Proof.
  pose proof (delete_signature_removes_one Sample.env1 "20250106"
                Sample.calm_world (proj1 calm_world_consistent)) as H.
  cbv zeta in *.
  destruct (fst (SignatureManager.get_by_id
                   (SignatureManager.mgr Sample.calm_world) "20250106"))
    as [sig|] eqn:E; [|vm_compute in E; discriminate].
  destruct H as (H1 & _ & _ & _ & _ & _ & _ & H8).
  split; [exact H1|]. split; [vm_compute; reflexivity|exact H8].
Defined.

(** X8: Saving and loading again gives the same store: from the file that
    [_save] writes for a store that is in sync, a new manager loads the same
    signatures in the same order, and its rebuilt index answers every
    fingerprint lookup as the old index did. *)
Theorem save_load_round_trip (env : Env) (w : SignatureManager.World) :
  Spec.in_sync (SignatureManager.mgr w) ->
  exists m',
    SignatureManager.__init__
      (SignatureManager.signatures_file (SignatureManager._save env w)) = Some m'
    /\ SignatureManager.signatures m'
       = SignatureManager.signatures (SignatureManager.mgr w)
    /\ (forall h, get h (SignatureManager.hash_index m')
                  = get h (SignatureManager.hash_index (SignatureManager.mgr w)))
    /\ (forall h, SignatureManager.get_by_hash m' h
                  = SignatureManager.get_by_hash (SignatureManager.mgr w) h)
    /\ Spec.in_sync m'.
Proof.
  intros S.
  destruct (__init___in_sync _ (isoformat (now_at_save env)) S)
    as (m' & L & Es & _ & S').
  exists m'. split; [exact L|]. split; [exact Es|].
  assert (forall h, get h (SignatureManager.hash_index m')
                    = get h (SignatureManager.hash_index (SignatureManager.mgr w)))
    as A.
  { intros h.
    destruct S as (_ & _ & I1 & I2). destruct S' as (_ & _ & I1' & I2').
    destruct (get h (SignatureManager.hash_index m')) as [id|] eqn:E1.
    - destruct (I1' _ _ E1) as [s [Hs Hh]]. rewrite Es in Hs.
      destruct (I2 _ _ Hs) as [_ Hi]. now rewrite Hh in Hi.
    - destruct (get h (SignatureManager.hash_index (SignatureManager.mgr w)))
        as [id|] eqn:E2; auto.
      destruct (I1 _ _ E2) as [s [Hs Hh]]. rewrite <- Es in Hs.
      destruct (I2' _ _ Hs) as [_ Hi]. rewrite Hh in Hi. congruence. }
  split; [exact A|]. split; [|exact S'].
  intros h. unfold SignatureManager.get_by_hash. now rewrite A, Es.
Qed.

Lemma save_load_round_trip_witness :
  exists m',
    SignatureManager.__init__
      (SignatureManager.signatures_file
         (SignatureManager._save Sample.env1 Sample.calm_world)) = Some m'
    /\ SignatureManager.signatures m'
       = SignatureManager.signatures (SignatureManager.mgr Sample.calm_world).
Proof.
  destruct (save_load_round_trip Sample.env1 Sample.calm_world
              (proj1 calm_world_consistent)) as (m' & L & Es & _).
  exists m'. split; [exact L|exact Es].
Defined.

(** ** The positions of a new signature *)

Lemma make_positions_fold_get (tickers : list string) (cats : dict string)
    (prices : dict PriceData) (acc : dict Position.t) (t : string) :
  get t (fold_left
           (fun positions ticker =>
              match get ticker prices with
              | Some pd => set ticker (Spec.priced_position cats ticker pd) positions
              | None => positions
              end)
           tickers acc)
  = match get t prices with
    | Some pd =>
        if SignatureManager.in_list t tickers
        then Some (Spec.priced_position cats t pd) else get t acc
    | None => get t acc
    end.
Proof.
  revert acc. induction tickers as [|a l IH]; intros acc; simpl.
  - now destruct (get t prices).
  - rewrite IH. destruct (String.eqb_spec t a) as [->|N]; simpl.
    + destruct (get a prices) as [pd|] eqn:E; auto.
      rewrite get_set_eq. now destruct (SignatureManager.in_list a l).
    + assert (get t match get a prices with
                    | Some pd => set a (Spec.priced_position cats a pd) acc
                    | None => acc
                    end = get t acc) as K.
      { destruct (get a prices); auto. apply get_set_neq. congruence. }
      now rewrite K.
Qed.

Lemma make_positions_fold_keys (tickers : list string) (cats : dict string)
    (prices : dict PriceData) (acc : dict Position.t) :
  NoDup tickers -> (forall t, In t tickers -> ~ In t (keys acc)) ->
  keys (fold_left
          (fun positions ticker =>
             match get ticker prices with
             | Some pd => set ticker (Spec.priced_position cats ticker pd) positions
             | None => positions
             end)
          tickers acc)
  = (keys acc ++ filter (fun t => mem t prices) tickers)%list.
Proof.
  revert acc. induction tickers as [|a l IH]; intros acc N D; simpl.
  - now rewrite app_nil_r.
  - inversion N as [|? ? Na Nl]; subst.
    destruct (get a prices) as [pd|] eqn:E.
    + assert (mem a prices = true) as P by (unfold mem; now rewrite E).
      rewrite P, IH; auto.
      * rewrite keys_set.
        assert (mem a acc = false) as M.
        { destruct (mem a acc) eqn:M; auto. apply mem_true in M.
          exfalso. apply (D a); simpl; auto. }
        rewrite M. now rewrite <- app_assoc.
      * intros t Ht. rewrite keys_set.
        destruct (mem a acc); [apply D; simpl; auto|].
        rewrite in_app_iff. simpl. intros [H|[<-|[]]]; auto.
        apply (D t); simpl; auto.
    + assert (mem a prices = false) as P by (unfold mem; now rewrite E).
      rewrite P. apply IH; auto. intros t Ht. apply D. simpl. auto.
Qed.

Lemma make_positions_eq (tickers : list string) (cats : dict string)
    (prices : dict PriceData) :
  SignatureManager.make_positions tickers cats prices
  = fold_left
      (fun positions ticker =>
         match get ticker prices with
         | Some pd => set ticker (Spec.priced_position cats ticker pd) positions
         | None => positions
         end)
      tickers empty.
Proof. reflexivity. Qed.

(** X9: The positions of a new signature: for selected tickers without repeats,
    there is one position per ticker for which the price source returned a
    price, in the order of selection, and tickers without a price are
    dropped.  Each position is open, filed under its own ticker, and carries
    the category of the ticker and the price, date and price type that the
    source returned; no exit field is set. *)
Theorem make_positions_one_per_priced_ticker (tickers : list string)
    (cats : dict string) (prices : dict PriceData) :
  let positions := SignatureManager.make_positions tickers cats prices in
  (NoDup tickers ->
   keys positions = filter (fun t => mem t prices) tickers)
  /\ (forall t pd,
         In t tickers -> get t prices = Some pd ->
         get t positions
         = Some (Position.mk t (get_default t "" cats) (price pd) (date pd)
                   (price_type pd) "open" None None None None None))
  /\ (forall t, get t prices = None -> get t positions = None)
  /\ (forall t, ~ In t tickers -> get t positions = None)
  /\ (forall t p, get t positions = Some p ->
                  Position.ticker p = t /\ Position.status p = "open"
                  /\ Position.exit_price p = None /\ Position.pnl_pct p = None).
Proof.
  intros positions. subst positions. rewrite make_positions_eq.
  split; [|split; [|split; [|split]]].
  - intros N. rewrite make_positions_fold_keys; auto.
  - intros t pd Hin E. rewrite make_positions_fold_get, E.
    apply in_list_In in Hin. now rewrite Hin.
  - intros t E. rewrite make_positions_fold_get, E. reflexivity.
  - intros t Hn. rewrite make_positions_fold_get.
    destruct (get t prices); auto.
    destruct (SignatureManager.in_list t tickers) eqn:I; auto.
    apply in_list_In in I. contradiction.
  - intros t p. rewrite make_positions_fold_get.
    destruct (get t prices) as [pd|]; [|discriminate].
    destruct (SignatureManager.in_list t tickers); [|discriminate].
    intros [= <-]. repeat split.
Qed.

Lemma make_positions_one_per_priced_ticker_witness :
  keys (SignatureManager.make_positions ["AAPL"; "MSFT"; "AMD"] []
          [("AMD", {| price := 120; date := "2025-01-02"; price_type := "open" |});
           ("AAPL", {| price := 250; date := "2025-01-02"; price_type := "open" |})])
  = ["AAPL"; "AMD"].
Proof.
  rewrite (proj1 (make_positions_one_per_priced_ticker ["AAPL"; "MSFT"; "AMD"] []
                    [("AMD", {| price := 120; date := "2025-01-02";
                                price_type := "open" |});
                     ("AAPL", {| price := 250; date := "2025-01-02";
                                 price_type := "open" |})])).
  - reflexivity.
  - repeat constructor; simpl; intuition discriminate.
Defined.

(** ** The ticker list of the parser *)

Lemma unique_fold (l seen out : list string) :
  (forall x, In x seen <-> In x out) -> NoDup out ->
  let r := fold_left
             (fun st t =>
                if SignatureManager.in_list t (fst st) then st
                else (t :: fst st, (snd st ++ [t])%list))
             l (seen, out) in
  NoDup (snd r)
  /\ (forall x, In x (snd r) <-> In x out \/ In x l)
  /\ (NoDup l -> (forall x, In x l -> ~ In x out) -> snd r = (out ++ l)%list).
Proof.
  revert seen out. induction l as [|a l IH]; intros seen out K N; simpl.
  - split; auto. split; [tauto|]. intros _ _. now rewrite app_nil_r.
  - destruct (SignatureManager.in_list a seen) eqn:I.
    + apply in_list_In in I. destruct (IH seen out K N) as (H1 & H2 & H3).
      split; auto. split.
      * intros x. rewrite H2. split; [tauto|].
        intros [H|[<-|H]]; auto. left. now apply K.
      * intros Nl D. exfalso. apply (D a); simpl; auto. now apply K.
    + assert (~ In a out) as Ha.
      { intros H. apply K in H. apply in_list_In in H. congruence. }
      destruct (IH (a :: seen) (out ++ [a])%list) as (H1 & H2 & H3).
      * intros x. simpl. rewrite in_app_iff, K. simpl. tauto.
      * apply NoDup_app; auto.
        -- repeat constructor. simpl. tauto.
        -- intros x Hx [<-|[]]. contradiction.
      * split; auto. split.
        -- intros x. rewrite H2, in_app_iff. simpl. tauto.
        -- intros Nl D. inversion Nl as [|? ? Na Nl']; subst.
           rewrite H3, <- app_assoc; auto.
           intros x Hx Hin. apply in_app_iff in Hin as [Hin|[<-|[]]]; auto.
           apply (D x); simpl; auto.
Qed.

Lemma fold_add_any (cat : string) (l : list string) (st : list string * dict string) :
  fst (fold_left (fun st t => ((fst st ++ [t])%list, set t cat (snd st))) l st)
  = (fst st ++ l)%list.
Proof. destruct st as [acc d]. now rewrite fold_add. Qed.

Lemma get_buy_tickers_eq (parsed : dict (list string)) (mode : string) :
  file_parser.get_buy_tickers parsed mode
  = file_parser.unique (Spec.buy_lists parsed mode).
Proof.
  unfold file_parser.get_buy_tickers, Spec.buy_lists. f_equal.
  destruct (SignatureManager.in_list mode ["strong"; "all"]);
    destruct (SignatureManager.in_list mode ["early"; "all"]);
    destruct (String.eqb mode "all"); destruct (String.eqb mode "dividend");
    simpl; rewrite ?app_nil_r, <- ?app_assoc; reflexivity.
Qed.

Lemma fold_early_incl (l acc : list string) (d : dict string) (t : string) :
  In t (fst (fold_left
               (fun st t =>
                  if mem t (snd st) then st
                  else ((fst st ++ [t])%list, set t "early_buy" (snd st)))
               l (acc, d))) ->
  In t acc \/ In t l.
Proof.
  revert acc d. induction l as [|a l IH]; intros acc d; simpl; auto.
  destruct (mem a d).
  - intros H. apply IH in H. tauto.
  - intros H. apply IH in H. rewrite in_app_iff in H. simpl in H. tauto.
Qed.

Lemma fold_early_incl_any (l : list string) (st : list string * dict string)
    (t : string) :
  In t (fst (fold_left
               (fun st t =>
                  if mem t (snd st) then st
                  else ((fst st ++ [t])%list, set t "early_buy" (snd st)))
               l st)) ->
  In t (fst st) \/ In t l.
Proof. destruct st as [acc d]. apply fold_early_incl. Qed.

Lemma filter_both {A} (f g : A -> bool) (l : list A) :
  filter f (filter g l) = filter (fun x => g x && f x) l.
Proof.
  induction l as [|x l IH]; simpl; auto.
  destruct (g x); simpl; [destruct (f x)|]; now rewrite IH.
Qed.

Lemma first_occurrences_filter (p : string -> bool) (l : list string) :
  Spec.first_occurrences (filter p l) = filter p (Spec.first_occurrences l).
Proof.
  induction l as [|x l IH]; simpl; auto.
  destruct (p x) eqn:Px; simpl; rewrite IH, !filter_both.
  - f_equal. apply filter_ext. intros y. apply andb_comm.
  - apply filter_ext. intros y.
    destruct (String.eqb_spec x y) as [<-|]; simpl; [now rewrite Px|].
    reflexivity.
Qed.

Lemma unique_fold_first (l seen out : list string) :
  (forall x, In x seen <-> In x out) ->
  snd (fold_left
         (fun st t =>
            if SignatureManager.in_list t (fst st) then st
            else (t :: fst st, (snd st ++ [t])%list))
         l (seen, out))
  = (out ++ Spec.first_occurrences
              (filter (fun x => negb (SignatureManager.in_list x out)) l))%list.
Proof.
  revert seen out. induction l as [|a l IH]; intros seen out K; simpl.
  - now rewrite app_nil_r.
  - assert (SignatureManager.in_list a out = SignatureManager.in_list a seen) as Eo.
    { destruct (SignatureManager.in_list a seen) eqn:I.
      - apply in_list_In. apply K. now apply in_list_In.
      - destruct (SignatureManager.in_list a out) eqn:O; auto.
        apply in_list_In in O. apply K in O. apply in_list_In in O. congruence. }
    rewrite Eo. destruct (SignatureManager.in_list a seen) eqn:I; simpl.
    + now apply IH.
    + rewrite (IH (a :: seen) (out ++ [a])%list).
      * rewrite <- app_assoc. simpl. do 2 f_equal.
        rewrite first_occurrences_filter, first_occurrences_filter, filter_both.
        apply filter_ext. intros y.
        unfold SignatureManager.in_list. rewrite existsb_app. simpl.
        rewrite orb_false_r, negb_orb. rewrite (String.eqb_sym y a). reflexivity.
      * intros x. simpl. rewrite in_app_iff, K. simpl. tauto.
Qed.

Lemma unique_first_occurrences (l : list string) :
  file_parser.unique l = Spec.first_occurrences l.
Proof.
  unfold file_parser.unique. rewrite (unique_fold_first l [] []) by tauto.
  simpl. f_equal. clear. induction l as [|a l IH]; simpl; auto. now rewrite IH.
Qed.

(** X10: [get_buy_tickers] returns the tickers of the lists selected by the
    mode (strong buys, early buys, buys, dividends, joined in that order),
    each once, in the order of their first occurrence; a selection without
    repeats is returned as it is.  Every ticker that [create_signature]
    would track in that mode is in the list. *)
Theorem get_buy_tickers_unique (parsed : dict (list string)) (mode : string) :
  file_parser.get_buy_tickers parsed mode
  = Spec.first_occurrences (Spec.buy_lists parsed mode)
  /\ NoDup (file_parser.get_buy_tickers parsed mode)
  /\ (forall t, In t (file_parser.get_buy_tickers parsed mode)
                <-> In t (Spec.buy_lists parsed mode))
  /\ (NoDup (Spec.buy_lists parsed mode) ->
      file_parser.get_buy_tickers parsed mode = Spec.buy_lists parsed mode)
  /\ (forall t, In t (fst (SignatureManager.select_tickers mode parsed)) ->
                In t (file_parser.get_buy_tickers parsed mode)).
Proof.
  split; [rewrite get_buy_tickers_eq; apply unique_first_occurrences|].
  rewrite get_buy_tickers_eq. unfold file_parser.unique.
  destruct (unique_fold (Spec.buy_lists parsed mode) [] []) as (H1 & H2 & H3).
  { tauto. } { constructor. }
  split; [exact H1|]. split; [intros t; rewrite H2; simpl; tauto|].
  split; [intros N; apply H3; auto|].
  intros t Ht. apply H2. right.
  unfold SignatureManager.select_tickers in Ht. unfold Spec.buy_lists.
  rewrite !in_app_iff.
  set (st1 := if SignatureManager.in_list mode ["strong"; "all"]
              then fold_left
                     (fun st t0 => ((fst st ++ [t0])%list,
                                    set t0 "strong_buy" (snd st)))
                     (get_default "strong_buys" [] parsed) ([], empty)
              else ([], empty)) in *.
  set (st2 := if SignatureManager.in_list mode ["early"; "all"]
              then fold_left
                     (fun st t0 =>
                        if mem t0 (snd st) then st
                        else ((fst st ++ [t0])%list,
                              set t0 "early_buy" (snd st)))
                     (get_default "early_buys" [] parsed) st1
              else st1) in *.
  assert (forall x, In x (fst st1) ->
                    In x (if SignatureManager.in_list mode ["strong"; "all"]
                          then get_default "strong_buys" [] parsed else [])) as A1.
  { intros x. unfold st1.
    destruct (SignatureManager.in_list mode ["strong"; "all"]); auto.
    now rewrite fold_add_any. }
  assert (forall x, In x (fst st2) ->
                    In x (fst st1)
                    \/ In x (if SignatureManager.in_list mode ["early"; "all"]
                             then get_default "early_buys" [] parsed else [])) as A2.
  { intros x. unfold st2.
    destruct (SignatureManager.in_list mode ["early"; "all"]); auto.
    apply fold_early_incl_any. }
  destruct (String.eqb mode "dividend").
  - rewrite fold_add_any in Ht. apply in_app_iff in Ht as [Ht|Ht]; auto.
    apply A2 in Ht as [Ht|Ht]; auto.
  - apply A2 in Ht as [Ht|Ht]; auto.
Qed.

Lemma get_buy_tickers_unique_witness :
  file_parser.get_buy_tickers
    [("strong_buys", ["AAPL"; "MSFT"; "AAPL"]); ("early_buys", ["AMD"; "MSFT"]);
     ("buys", ["NVDA"; "AMD"; "KO"])]
    "all"
  = ["AAPL"; "MSFT"; "AMD"; "NVDA"; "KO"].
Proof.
  rewrite (proj1 (get_buy_tickers_unique
    [("strong_buys", ["AAPL"; "MSFT"; "AAPL"]); ("early_buys", ["AMD"; "MSFT"]);
     ("buys", ["NVDA"; "AMD"; "KO"])]
    "all")).
  reflexivity.
Defined.

(** ** Market status *)

Lemma ltb_0_r (x : nat) : Nat.ltb x 0 = false.
Proof. apply Nat.ltb_ge. lia. Qed.

Lemma before_open_iff (t : datetime) :
  config.time_ltb (config.time_of t) config.MARKET_OPEN = true
  <-> (hour t < 9 \/ (hour t = 9 /\ minute t < 30))%nat.
Proof.
  unfold config.time_ltb, config.time_of, config.MARKET_OPEN.
  rewrite !ltb_0_r, !andb_false_r, !orb_false_r.
  destruct (Nat.ltb_spec (hour t) 9); destruct (Nat.eqb_spec (hour t) 9);
    destruct (Nat.ltb_spec (minute t) 30); simpl;
    split; intros; try lia; try discriminate; auto.
Qed.

Lemma before_close_iff (t : datetime) :
  config.time_ltb (config.time_of t) config.MARKET_CLOSE = true
  <-> (hour t < 16)%nat.
Proof.
  unfold config.time_ltb, config.time_of, config.MARKET_CLOSE.
  rewrite !ltb_0_r, !andb_false_r, !orb_false_r.
  destruct (Nat.ltb_spec (hour t) 16); split; intros; try lia;
    try discriminate; auto.
Qed.

(** X11: [get_market_status] reports the market open exactly on a weekday from
    9:30 up to but not including 16:00, and exactly then the price type is
    open.  The price type is close exactly on a weekday from 16:00 on, and
    previous_close otherwise, that is on a weekend at any time and on a
    weekday before 9:30. *)
Theorem market_status_by_time (now_et : datetime) (weekday : nat) :
  let s := config.get_market_status now_et weekday in
  let during_hours :=
    ((hour now_et = 9 /\ 30 <= minute now_et)
     \/ (10 <= hour now_et /\ hour now_et < 16))%nat in
  (config.is_open s = true <-> (weekday < 5)%nat /\ during_hours)
  /\ (config.is_open s = true <-> config.price_type s = "open")
  /\ (config.price_type s = "close" <-> (weekday < 5 /\ 16 <= hour now_et)%nat)
  /\ (config.price_type s = "previous_close"
      <-> (5 <= weekday)%nat
          \/ (hour now_et < 9 \/ (hour now_et = 9 /\ minute now_et < 30))%nat)
  /\ config.reference_date s = (year now_et, month now_et, day now_et).
Proof.
  intros s during_hours. subst s during_hours.
  unfold config.get_market_status.
  destruct (Nat.leb_spec 5 weekday) as [W|W].
  - cbn [config.is_open config.price_type config.reference_date].
    repeat split; intros; try discriminate; try lia; auto; try (exfalso; lia).
  - destruct (config.time_ltb (config.time_of now_et) config.MARKET_OPEN) eqn:O.
    + apply before_open_iff in O.
      cbn [config.is_open config.price_type config.reference_date].
      repeat split; intros; try discriminate; try lia; auto; try (exfalso; lia).
    + assert (~ (hour now_et < 9 \/ (hour now_et = 9 /\ minute now_et < 30))%nat)
        as O' by (rewrite <- before_open_iff; congruence).
      destruct (config.time_ltb (config.time_of now_et) config.MARKET_CLOSE) eqn:C.
      * apply before_close_iff in C.
        cbn [negb config.is_open config.price_type config.reference_date].
        repeat split; intros; try discriminate; try lia; auto;
          try (exfalso; lia).
      * assert (~ (hour now_et < 16)%nat) as C'
          by (rewrite <- before_close_iff; congruence).
        cbn [negb config.is_open config.price_type config.reference_date].
        repeat split; intros; try discriminate; try lia; auto;
          try (exfalso; lia).
Qed.

(** ** Cost-basis positions *)

(** X12: [pnl_percent] of a portfolio position never raises: it is 0 when the cost
    basis is zero or negative, and otherwise has the sign of [pnl_dollar],
    positive exactly when the value is above the cost basis. *)
Theorem pnl_percent_sign (p : positions.Position) :
  exists x,
    positions.pnl_percent p = Some x
    /\ ((positions.cost_basis p <= 0)%Q -> x = 0%Q)
    /\ ((0 < positions.cost_basis p)%Q ->
        ((0 < x)%Q <-> (0 < positions.pnl_dollar p)%Q)
        /\ ((x < 0)%Q <-> (positions.pnl_dollar p < 0)%Q)
        /\ ((0 < x)%Q <-> (positions.cost_basis p < positions.value p)%Q)).
Proof.
  unfold positions.pnl_percent, positions.pnl_dollar.
  destruct (Qle_bool (positions.cost_basis p) 0) eqn:E.
  - apply Qle_bool_iff in E. eexists. split; [reflexivity|]. split; auto.
    intros H. exfalso. eapply Qlt_not_le; eauto.
  - assert (0 < positions.cost_basis p)%Q as P.
    { apply Qnot_le_lt. intros H. apply Qle_bool_iff in H. congruence. }
    rewrite (truediv_pos _ _ P). simpl. eexists. split; [reflexivity|]. split.
    + intros H. exfalso. eapply Qlt_not_le; eauto.
    + intros _.
      destruct (percent_sign (positions.value p - positions.cost_basis p)
                  (positions.cost_basis p) P) as [H1 H2].
      split; [exact H1|]. split; [exact H2|].
      rewrite H1. rewrite <- (Qlt_minus_iff (positions.cost_basis p)
                                            (positions.value p)).
      reflexivity.
Qed.

(** ** The figures of the report cards *)

Lemma average_times_length (xs : list Q) :
  exists a, html_report.average xs = Some a
            /\ (a * Q_of_nat (List.length xs) == sum xs)%Q.
Proof.
  destruct xs as [|x xs].
  - exists 0%Q. split; reflexivity.
  - unfold html_report.average.
    assert (0 < Q_of_nat (List.length (x :: xs)))%Q as P
      by (apply Q_of_nat_pos; discriminate).
    rewrite (truediv_pos _ _ P). eexists. split; [reflexivity|].
    field. intros Z. rewrite Z in P. now apply Qlt_irrefl in P.
Qed.

Lemma closed_pnls_sum (sig : Signature.t) :
  (sum (html_report.closed_pnls sig) == Spec.realized_sum (Spec.closed_of sig))%Q
  /\ (List.length (html_report.closed_pnls sig)
      <= List.length (Spec.closed_of sig))%nat.
Proof.
  rewrite sum_fold_right.
  unfold html_report.closed_pnls, Spec.closed_of.
  induction (values (Signature.positions sig)) as [|p ps [IH1 IH2]]; simpl.
  - split; [reflexivity|auto].
  - destruct (Signature.is_closed p); simpl; auto.
    unfold Spec.pnl_or_zero.
    destruct (Position.pnl_pct p) as [x|]; simpl.
    + rewrite IH1. split; [reflexivity|lia].
    + rewrite IH1, Qplus_0_l. split; [reflexivity|lia].
Qed.

(** X13: The realized average of the report card agrees with the summary: it
    never raises, and multiplied by the number of closed positions it counts
    (those with a P/L set) it gives the realized P/L of [get_summary]. *)
Theorem card_average_matches_summary (sig : Signature.t) :
  exists s r,
    Signature.get_summary sig = Some s
    /\ html_report.avg_realized sig = Some r
    /\ (r * Q_of_nat (List.length (html_report.closed_pnls sig))
        == Signature.realized_pnl_pct s)%Q
    /\ (List.length (html_report.closed_pnls sig)
        <= Signature.closed_positions s)%nat.
Proof.
  destruct (average_times_length (html_report.closed_pnls sig)) as (r & Hr & Er).
  destruct (closed_pnls_sum sig) as [Es El].
  eexists. exists r. split; [apply get_summary_eq|]. split; [exact Hr|].
  cbv beta iota delta [Signature.realized_pnl_pct Signature.closed_positions].
  split; [|exact El].
  rewrite Er, Es. symmetry. apply sum_or0_realized.
Qed.

Lemma open_pnls_fold (prices : dict Q) (ps : list (string * Position.t))
    (l0 : list Q) :
  fold_left
    (fun acc (tp : string * Position.t) =>
       bind acc (fun l =>
         let '(ticker, pos) := tp in
         if Signature.is_open pos && mem ticker prices
         then
           let entry := if Qeq_bool (Position.entry_price pos) 0 then 0%Q
                        else Position.entry_price pos in
           let current := get_default ticker 0%Q prices in
           if Qlt_bool 0 entry && Qlt_bool 0 current
           then bind (truediv (current - entry)%Q entry)
                     (fun q => Some (l ++ [(q * 100)%Q])%list)
           else Some l
         else Some l))
    ps (Some l0)
  = Some (l0 ++ flat_map
                  (fun tp : string * Position.t =>
                     match get (fst tp) prices with
                     | Some current =>
                         if Signature.is_open (snd tp)
                            && Qlt_bool 0 (Position.entry_price (snd tp))
                            && Qlt_bool 0 current
                         then [((current - Position.entry_price (snd tp))
                                  / Position.entry_price (snd tp) * 100)%Q]
                         else []
                     | None => []
                     end) ps)%list.
Proof.
  revert l0. induction ps as [|[ticker pos] ps IH]; intros l0;
    cbn [fold_left flat_map bind fst snd].
  - now rewrite app_nil_r.
  - unfold mem, get_default.
    destruct (get ticker prices) as [current|];
      [|rewrite andb_false_r; apply IH].
    destruct (Signature.is_open pos); [|apply IH]. cbn [andb].
    destruct (Qeq_bool (Position.entry_price pos) 0) eqn:Z.
    + assert (Qlt_bool 0 (Position.entry_price pos) = false) as N.
      { apply Qlt_bool_false. apply Qeq_bool_iff in Z. rewrite Z.
        apply Qle_refl. }
      rewrite N. cbn. apply IH.
    + destruct (Qlt_bool 0 (Position.entry_price pos)) eqn:P; [|apply IH].
      cbn [andb]. destruct (Qlt_bool 0 current); [|apply IH].
      apply Qlt_bool_iff in P. rewrite (truediv_pos _ _ P). cbn [bind].
      rewrite IH, <- app_assoc. reflexivity.
Qed.

Lemma open_pnls_eq (sig : Signature.t) (prices : dict Q) :
  html_report.open_pnls sig prices = Some (Spec.open_returns sig prices).
Proof.
  exact (open_pnls_fold prices (items (Signature.positions sig)) []).
Qed.

Lemma Q_of_nat_plus (a b : nat) :
  (Q_of_nat (a + b) == Q_of_nat a + Q_of_nat b)%Q.
Proof.
  unfold Q_of_nat. rewrite Nat2Z.inj_add, inject_Z_plus. reflexivity.
Qed.

(** X14: The card figures of a signature never raise (every division is
    guarded).  The unrealized returns counted are exactly those of the open
    positions, in order, whose ticker has a current price and whose entry
    and current price are positive, each (current - entry) / entry x 100;
    the realized ones are those of the closed positions with a P/L set.
    Each average times its count is the sum of its returns, and the total
    P/L is the equal-weighted mean of all the returns counted: their sum
    over their number, and 0 when there is none. *)
Theorem card_total_is_mean (sig : Signature.t) (prices : dict Q) :
  let opens := Spec.open_returns sig prices in
  let closed := html_report.closed_pnls sig in
  html_report.open_pnls sig prices = Some opens
  /\ exists u r t,
       html_report.card_pnl sig prices = Some (u, r, t)
       /\ (u * Q_of_nat (List.length opens) == sum opens)%Q
       /\ (r * Q_of_nat (List.length closed) == sum closed)%Q
       /\ (opens = [] -> u = 0%Q)
       /\ (closed = [] -> r = 0%Q)
       /\ ((List.length opens + List.length closed = 0)%nat -> t = 0%Q)
       /\ ((0 < List.length opens + List.length closed)%nat ->
           (t == (sum opens + sum closed)
                 / (Q_of_nat (List.length opens) + Q_of_nat (List.length closed)))%Q).
Proof.
  intros opens closed. split; [apply open_pnls_eq|].
  destruct (average_times_length opens) as (u & Hu & Eu).
  destruct (average_times_length closed) as (r & Hr & Er).
  exists u, r.
  unfold html_report.card_pnl. rewrite open_pnls_eq. cbn [bind].
  fold opens. fold closed. rewrite Hu, Hr. cbn [bind].
  assert (opens = [] -> u = 0%Q) as U0.
  { intros E. rewrite E in Hu. simpl in Hu. congruence. }
  assert (closed = [] -> r = 0%Q) as R0.
  { intros E. rewrite E in Hr. simpl in Hr. congruence. }
  set (n := (List.length opens + List.length closed)%nat).
  destruct (Nat.ltb_spec 0 n) as [P|P].
  - assert (0 < Q_of_nat n)%Q as Pn by (apply Q_of_nat_pos; lia).
    rewrite (truediv_pos _ _ Pn). cbn [bind]. eexists.
    split; [reflexivity|]. split; [exact Eu|]. split; [exact Er|].
    split; [exact U0|]. split; [exact R0|]. split; [lia|]. intros _.
    rewrite Eu, Er. unfold n. now rewrite Q_of_nat_plus.
  - cbn [bind]. eexists.
    split; [reflexivity|]. split; [exact Eu|]. split; [exact Er|].
    split; [exact U0|]. split; [exact R0|]. split; [reflexivity|]. lia.
Qed.

(** ** The close loop of check-sells *)

Lemma truediv_nonzero (x y : Q) : ~ (y == 0)%Q -> truediv x y = Some (x / y)%Q.
Proof.
  intros H. unfold truediv. destruct (Qeq_bool y 0) eqn:E; auto.
  apply Qeq_bool_iff in E. contradiction.
Qed.

Lemma truediv_zero (x y : Q) : (y == 0)%Q -> truediv x y = None.
Proof.
  intros H. unfold truediv. apply Qeq_bool_iff in H. now rewrite H.
Qed.

Lemma add_open_fold_list (sid : string) (ps : list (string * Position.t))
    (d : dict (list (string * Position.t))) (t : string) :
  get_default t [] (fold_left (Spec.add_open sid) ps d)
  = (get_default t [] d
     ++ map (fun tp : string * Position.t => (sid, snd tp))
            (filter (fun tp : string * Position.t =>
                       String.eqb t (fst tp) && Signature.is_open (snd tp)) ps))%list.
Proof.
  revert d. induction ps as [|[tk pos] ps IH]; intros d; cbn [fold_left filter].
  - now rewrite app_nil_r.
  - rewrite IH, add_open_get. cbn [fst snd].
    destruct (String.eqb t tk && Signature.is_open pos); cbn [map]; auto.
    now rewrite <- app_assoc.
Qed.

Lemma all_open_list (sigs : list (string * Signature.t))
    (d : dict (list (string * Position.t))) (t : string) :
  get_default t [] (fold_left Spec.add_signature sigs d)
  = (get_default t [] d ++ flat_map (Spec.open_under t) sigs)%list.
Proof.
  revert d. induction sigs as [|[sid sig] sigs IH]; intros d;
    cbn [fold_left flat_map].
  - now rewrite app_nil_r.
  - rewrite IH. unfold Spec.add_signature at 1.
    rewrite add_open_fold_list, <- app_assoc. reflexivity.
Qed.

Lemma targets_eq (m : SignatureManager.t) (t : string) :
  get_default t [] (SignatureManager.get_all_open_positions m)
  = flat_map (Spec.open_under t) (SignatureManager.signatures m).
Proof.
  rewrite get_all_open_positions_fold. unfold items. now rewrite all_open_list.
Qed.

Lemma filter_all_false {A} (f : A -> bool) (l : list A) :
  (forall x, In x l -> f x = false) -> filter f l = [].
Proof.
  induction l as [|a l IH]; intros H; simpl; auto.
  rewrite (H a) by (now left). apply IH. intros x Hx. apply H. now right.
Qed.

Lemma filter_key_once {V} (f : V -> bool) (t : string) (ps : dict V) :
  NoDup (keys ps) ->
  (List.length (filter (fun tp : string * V => String.eqb t (fst tp) && f (snd tp))
                       ps) <= 1)%nat.
Proof.
  induction ps as [|[k p] ps IH]; intros N; simpl; auto.
  inversion N as [|? ? Nk Nps]; subst.
  destruct (String.eqb_spec t k) as [->|Ne]; simpl; auto.
  rewrite filter_all_false.
  - destruct (f p); simpl; auto.
  - intros [k' p'] Hx. simpl. destruct (String.eqb_spec k k') as [<-|]; auto.
    exfalso. apply Nk. change k with (fst (k, p')). now apply in_map.
Qed.

Lemma open_under_In (t sid : string) (pos : Position.t)
    (sigs : list (string * Signature.t)) :
  In (sid, pos) (flat_map (Spec.open_under t) sigs)
  <-> exists sig, In (sid, sig) sigs /\ In (t, pos) (Signature.positions sig)
                  /\ Signature.is_open pos = true.
Proof.
  rewrite in_flat_map. unfold Spec.open_under, items. split.
  - intros ([sid' sig] & Hs & Hx). apply in_map_iff in Hx as ([tk q] & [= <- <-] & Hf).
    apply filter_In in Hf as [Hq Hb]. simpl in Hb.
    apply andb_true_iff in Hb as [E O]. apply String.eqb_eq in E as <-.
    exists sig. auto.
  - intros (sig & Hs & Hp & O). exists (sid, sig). split; auto.
    apply in_map_iff. exists (t, pos). split; auto.
    apply filter_In. split; auto. simpl. now rewrite String.eqb_refl, O.
Qed.

Lemma open_under_NoDup (t : string) (sigs : list (string * Signature.t)) :
  NoDup (keys sigs) ->
  (forall sid sig, In (sid, sig) sigs -> NoDup (keys (Signature.positions sig))) ->
  NoDup (map fst (flat_map (Spec.open_under t) sigs)).
Proof.
  induction sigs as [|[sid sig] sigs IH]; intros N W; cbn [flat_map map].
  - constructor.
  - inversion N as [|? ? Nk Ns]; subst.
    assert (NoDup (map fst (flat_map (Spec.open_under t) sigs))) as R.
    { apply IH; auto. intros s g H. apply (W s g). now right. }
    pose proof (filter_key_once Signature.is_open t (Signature.positions sig)
                  (W sid sig (or_introl eq_refl))) as L.
    unfold Spec.open_under at 1. unfold items. cbn [fst snd].
    destruct (filter _ (Signature.positions sig)) as [|x [|y l]];
      cbn [map app]; auto.
    + constructor; auto. intros H. apply in_map_iff in H as ([s q] & E & H).
      simpl in E. subst s. apply open_under_In in H as (g & Hg & _).
      apply Nk. change sid with (fst (sid, g)). now apply in_map.
    + simpl in L. lia.
Qed.

Lemma close_position_true (sig sig' : Signature.t) (ticker : string) (price : Q)
    (reason : string) (now : datetime) :
  Signature.close_position sig ticker price reason now = Some (sig', true) ->
  exists pos p',
    get ticker (Signature.positions sig) = Some pos
    /\ Signature.is_open pos = true
    /\ Position.close pos price reason now = Some p'
    /\ sig' = Signature.with_positions sig (set ticker p' (Signature.positions sig)).
Proof.
  unfold Signature.close_position.
  destruct (get ticker (Signature.positions sig)) as [pos|]; [|discriminate].
  destruct (Signature.is_open pos) eqn:O; [|discriminate].
  rewrite close_eq. simpl. intros [= <-]. eexists. eexists.
  split; [reflexivity|]. split; [exact O|]. split; [apply close_eq|reflexivity].
Qed.

(** The loop over targets that are open in the store, each in a signature
    of its own, with entry prices that are not zero. *)
Lemma close_sold_ticker_all (clock : nat -> Env) (ticker : string) (price : Q) :
  forall (ts : list (string * Position.t)) (i : nat)
         (w : SignatureManager.World) (c : nat) (ds : list bt.closed_detail),
    Spec.in_sync (SignatureManager.mgr w) ->
    NoDup (map fst ts) ->
    (forall sid pos, In (sid, pos) ts ->
       exists sig,
         get sid (SignatureManager.signatures (SignatureManager.mgr w)) = Some sig
         /\ get ticker (Signature.positions sig) = Some pos
         /\ Signature.is_open pos = true
         /\ ~ (Position.entry_price pos == 0)%Q) ->
    exists w' ds',
      bt.close_sold_ticker clock i ticker price ts w c ds
      = (w', Some ((c + List.length ts)%nat, (ds ++ ds')%list))
      /\ map bt.signature ds' = map fst ts
      /\ Spec.in_sync (SignatureManager.mgr w')
      /\ keys (SignatureManager.signatures (SignatureManager.mgr w'))
         = keys (SignatureManager.signatures (SignatureManager.mgr w))
      /\ (forall sid sig,
            get sid (SignatureManager.signatures (SignatureManager.mgr w)) = Some sig ->
            (~ In sid (map fst ts) ->
             get sid (SignatureManager.signatures (SignatureManager.mgr w')) = Some sig)
            /\ (In sid (map fst ts) ->
                exists now sig',
                  Signature.close_position sig ticker price "sell_signal" now
                  = Some (sig', true)
                  /\ get sid (SignatureManager.signatures (SignatureManager.mgr w'))
                     = Some sig'))
      /\ (ts = [] -> w' = w)
      /\ (ts <> [] ->
          exists stamp,
            SignatureManager.signatures_file w'
            = Complete (values (SignatureManager.signatures (SignatureManager.mgr w')))
                       stamp).
Proof.
  induction ts as [|[sid pos] rest IH]; intros i w c ds Sy N T.
  - exists w, []. cbn [bt.close_sold_ticker List.length map].
    rewrite app_nil_r, Nat.add_0_r.
    split; [reflexivity|]. split; [reflexivity|]. split; [exact Sy|].
    split; [reflexivity|]. split; [|split; [reflexivity|congruence]].
    intros sid sig H. split; [auto|intros []].
  - destruct (T sid pos (or_introl eq_refl)) as (sig & Hs & Hp & O & Z).
    assert (Signature.signature_id sig = sid) as Eid.
    { destruct Sy as (_ & _ & _ & I2). now apply I2 in Hs. }
    destruct (close_position_open sig ticker price "sell_signal"
                (now (clock i)) pos Hp) as (p' & Hc & Hcp).
    { unfold Signature.is_open in O. now apply String.eqb_eq in O. }
    cbn [bt.close_sold_ticker]. rewrite (get_by_id_exact _ _ _ Hs).
    cbv beta iota zeta. rewrite Hcp, (truediv_nonzero _ _ Z).
    set (sig1 := Signature.with_positions sig (set ticker p' (Signature.positions sig))) in *.
    set (w1 := SignatureManager.update_signature (clock i) sig1 _).
    set (d := {| bt.ticker := ticker |}).
    inversion N as [|? ? Nk Nr]; subst.
    assert (SignatureManager.mgr w1
            = SignatureManager.mk
                (set (Signature.signature_id sig) sig1
                     (SignatureManager.signatures (SignatureManager.mgr w)))
                (SignatureManager.hash_index (SignatureManager.mgr w))) as Em
      by reflexivity.
    assert (Spec.in_sync (SignatureManager.mgr w1)) as S1.
    { rewrite Em. change (Signature.signature_id sig)
        with (Signature.signature_id sig1) at 1.
      apply (in_sync_update (SignatureManager.mgr w) sig); auto. }
    destruct (IH (S i) w1 (S c) (ds ++ [d])%list S1 Nr)
      as (w' & ds' & E & Ed & S' & K & R & E0 & F).
    { intros s q H. destruct (T s q (or_intror H)) as (g & Hg & Hq & Oq & Zq).
      exists g. repeat split; auto. rewrite Em. cbn [SignatureManager.signatures].
      rewrite get_set_neq; auto. intros <-. apply Nk.
      change (Signature.signature_id sig) with (fst (Signature.signature_id sig, q)).
      now apply in_map. }
    exists w', (d :: ds'). rewrite E. cbn [List.length map fst].
    rewrite <- app_assoc, Nat.add_succ_r. cbn [app Nat.add].
    split; [reflexivity|]. split; [now rewrite Ed|]. split; [exact S'|].
    split.
    { rewrite K, Em. cbn [SignatureManager.signatures]. rewrite keys_set.
      unfold mem. now rewrite Hs. }
    split.
    { intros s g Hg. destruct (string_dec (Signature.signature_id sig) s) as [<-|Ne].
      - assert (g = sig) as -> by congruence.
        assert (get (Signature.signature_id sig)
                    (SignatureManager.signatures (SignatureManager.mgr w1))
                = Some sig1) as H1.
        { rewrite Em. cbn [SignatureManager.signatures]. apply get_set_eq. }
        split.
        + intros H. contradiction H. now left.
        + intros _. exists (now (clock i)), sig1. split; [exact Hcp|].
          now apply (R _ _ H1).
      - assert (get s (SignatureManager.signatures (SignatureManager.mgr w1))
                = Some g) as H1.
        { rewrite Em. cbn [SignatureManager.signatures].
          now rewrite get_set_neq. }
        destruct (R _ _ H1) as [R1 R2]. split.
        + intros H. apply R1. intros H'. apply H. now right.
        + intros [H|H]; [contradiction|]. now apply R2. }
    split; [discriminate|]. intros _.
    destruct rest as [|x rest'].
    + rewrite (E0 eq_refl). eexists. reflexivity.
    + apply F. discriminate.
Qed.

Lemma closed_not_open (p p' : Position.t) (price : Q) (reason : string)
    (now : datetime) :
  Position.close p price reason now = Some p' ->
  Position.status p' = "closed"
  /\ Signature.is_open p' = false
  /\ Position.exit_price p' = Some price
  /\ Position.exit_reason p' = Some reason
  /\ Position.entry_price p' = Position.entry_price p
  /\ ((Position.entry_price p == 0)%Q -> Position.pnl_pct p' = Some 0%Q).
Proof.
  rewrite close_eq. intros [= <-]. cbn. repeat split; auto.
  intros Z. destruct (Qlt_bool 0 (Position.entry_price p)) eqn:E; auto.
  apply Qlt_bool_iff in E. rewrite Z in E. now apply Qlt_irrefl in E.
Qed.

Lemma targets_stored (m : SignatureManager.t) (ticker sid : string)
    (pos : Position.t) :
  Spec.in_sync m -> Spec.well_keyed m ->
  In (sid, pos) (get_default ticker [] (SignatureManager.get_all_open_positions m)) ->
  exists sig,
    get sid (SignatureManager.signatures m) = Some sig
    /\ get ticker (Signature.positions sig) = Some pos
    /\ Signature.is_open pos = true.
Proof.
  intros Sy W H. rewrite targets_eq in H.
  apply open_under_In in H as (sig & Hs & Hp & O).
  assert (get sid (SignatureManager.signatures m) = Some sig) as G.
  { apply In_get; auto. apply Sy. }
  exists sig. split; [exact G|]. split; [|exact O].
  apply In_get; auto. exact (W _ _ G).
Qed.

Lemma targets_NoDup (m : SignatureManager.t) (ticker : string) :
  Spec.in_sync m -> Spec.well_keyed m ->
  NoDup (map fst (get_default ticker []
                    (SignatureManager.get_all_open_positions m))).
Proof.
  intros Sy W. rewrite targets_eq. apply open_under_NoDup; [apply Sy|].
  intros sid sig H. apply (W sid). apply In_get; auto. apply Sy.
Qed.

(** X15: When check-sells closes a sold ticker, it closes it everywhere: over
    the pairs that [get_all_open_positions] lists for the ticker (in a store
    that is in sync, with entry prices that are not zero) the close loop
    does not raise, closes one position per pair and reports them in order;
    afterwards the ticker is open in no signature, each listed position is
    closed at the given price with the reason sell_signal, the positions
    under every other ticker are as before, no signature is added or
    removed, and the store is still in sync. *)
Theorem check_sells_closes_everywhere (clock : nat -> Env) (ticker : string)
    (price : Q) (w : SignatureManager.World) :
  Spec.in_sync (SignatureManager.mgr w) ->
  Spec.well_keyed (SignatureManager.mgr w) ->
  let targets :=
    get_default ticker []
      (SignatureManager.get_all_open_positions (SignatureManager.mgr w)) in
  (forall sid pos, In (sid, pos) targets -> ~ (Position.entry_price pos == 0)%Q) ->
  exists w' details,
    bt.close_sold_ticker clock 0 ticker price targets w 0 []
    = (w', Some (List.length targets, details))
    /\ map bt.signature details = map fst targets
    /\ mem ticker
         (SignatureManager.get_all_open_positions (SignatureManager.mgr w'))
       = false
    /\ (forall sid pos,
          In (sid, pos) targets ->
          exists sig' p',
            get sid (SignatureManager.signatures (SignatureManager.mgr w')) = Some sig'
            /\ get ticker (Signature.positions sig') = Some p'
            /\ Position.status p' = "closed"
            /\ Position.exit_price p' = Some price
            /\ Position.exit_reason p' = Some "sell_signal")
    /\ (forall sid sig,
          get sid (SignatureManager.signatures (SignatureManager.mgr w)) = Some sig ->
          exists sig',
            get sid (SignatureManager.signatures (SignatureManager.mgr w')) = Some sig'
            /\ forall t, t <> ticker ->
                 get t (Signature.positions sig') = get t (Signature.positions sig))
    /\ keys (SignatureManager.signatures (SignatureManager.mgr w'))
       = keys (SignatureManager.signatures (SignatureManager.mgr w))
    /\ Spec.in_sync (SignatureManager.mgr w').
Proof.
  intros Sy W targets Z.
  pose proof (targets_NoDup _ ticker Sy W) as N. fold targets in N.
  assert (forall sid pos, In (sid, pos) targets ->
            exists sig,
              get sid (SignatureManager.signatures (SignatureManager.mgr w)) = Some sig
              /\ get ticker (Signature.positions sig) = Some pos
              /\ Signature.is_open pos = true
              /\ ~ (Position.entry_price pos == 0)%Q) as T.
  { intros sid pos H. destruct (targets_stored _ _ _ _ Sy W H) as (sig & A & B & C).
    exists sig. split; [exact A|]. split; [exact B|]. split; [exact C|].
    exact (Z _ _ H). }
  destruct (close_sold_ticker_all clock ticker price targets 0 w 0 [] Sy N T)
    as (w' & ds' & E & Ed & S' & K & R & _ & _).
  exists w', ds'. split; [exact E|]. split; [exact Ed|].
  split; [|split; [|split; [|split; [exact K|exact S']]]].
  - destruct (mem ticker _) eqn:M; auto. exfalso.
    unfold mem in M.
    destruct (get ticker (SignatureManager.get_all_open_positions
                            (SignatureManager.mgr w'))) as [l|] eqn:G;
      [|discriminate].
    assert (l <> []) as Nl.
    { rewrite get_all_open_positions_fold in G.
      apply (all_open_nonempty _ empty) in G; auto. intros t l0 H. discriminate. }
    assert (l = flat_map (Spec.open_under ticker)
                  (SignatureManager.signatures (SignatureManager.mgr w'))) as El.
    { rewrite <- targets_eq. unfold get_default. now rewrite G. }
    destruct l as [|[sid q] l]; [now apply Nl|].
    assert (In (sid, q) (flat_map (Spec.open_under ticker)
              (SignatureManager.signatures (SignatureManager.mgr w')))) as H
      by (rewrite <- El; now left).
    apply open_under_In in H as (sig' & Hs & Hq & O).
    assert (get sid (SignatureManager.signatures (SignatureManager.mgr w'))
            = Some sig') as G'.
    { apply In_get; auto. apply S'. }
    destruct (keys_get sid (SignatureManager.signatures (SignatureManager.mgr w)))
      as [sig Hg].
    { rewrite <- K. eapply get_Some_keys. exact G'. }
    destruct (R _ _ Hg) as [R1 R2].
    destruct (in_dec string_dec sid (map fst targets)) as [I|I].
    + destruct (R2 I) as (now & sig'' & Hc & Hg'').
      assert (sig'' = sig') as -> by congruence.
      apply close_position_true in Hc as (pos & p' & Hp & Op & Hcl & ->).
      cbn [Signature.with_positions Signature.positions] in Hq.
      apply In_get in Hq; [|apply NoDup_keys_set; exact (W _ _ Hg)].
      rewrite get_set_eq in Hq. injection Hq as <-.
      apply closed_not_open in Hcl as (_ & C & _). congruence.
    + rewrite (R1 I) in G'. injection G' as <-.
      apply I. change sid with (fst (sid, q)). apply in_map.
      unfold targets. rewrite targets_eq. apply open_under_In.
      exists sig. split; [now apply get_In|]. auto.
  - intros sid pos H. destruct (T _ _ H) as (sig & Hg & Hp & O & _).
    destruct (R _ _ Hg) as [_ R2].
    destruct R2 as (now & sig' & Hc & Hg').
    { change sid with (fst (sid, pos)). now apply in_map. }
    apply close_position_true in Hc as (pos0 & p' & _ & _ & Hcl & ->).
    exists (Signature.with_positions sig (set ticker p' (Signature.positions sig))), p'.
    split; [exact Hg'|]. split; [apply get_set_eq|].
    apply closed_not_open in Hcl as (A & _ & B & C & _). auto.
  - intros sid sig Hg. destruct (R _ _ Hg) as [R1 R2].
    destruct (in_dec string_dec sid (map fst targets)) as [I|I].
    + destruct (R2 I) as (now & sig' & Hc & Hg').
      apply close_position_true in Hc as (pos0 & p' & _ & _ & _ & ->).
      eexists. split; [exact Hg'|]. intros t Nt.
      cbn [Signature.with_positions Signature.positions].
      apply get_set_neq. congruence.
    + exists sig. split; auto.
Qed.

Lemma well_keyed_values (m : SignatureManager.t) :
  Forall (fun s => NoDup (keys (Signature.positions s)))
         (values (SignatureManager.signatures m)) ->
  Spec.well_keyed m.
Proof.
  intros F sid sig H. rewrite Forall_forall in F. apply F.
  apply in_map_iff. exists (sid, sig). split; auto. now apply get_In.
Qed.

Lemma calm_world_well_keyed :
  Spec.well_keyed (SignatureManager.mgr Sample.calm_world).
Proof.
  apply well_keyed_values. vm_compute.
  repeat first [constructor | (intros K; simpl in K; intuition discriminate)].
Qed.

Lemma check_sells_closes_everywhere_witness :
  exists w' details,
    bt.close_sold_ticker (fun _ => Sample.env1) 0 "MSFT" 105
      (get_default "MSFT" []
         (SignatureManager.get_all_open_positions
            (SignatureManager.mgr Sample.calm_world)))
      Sample.calm_world 0 []
    = (w', Some (List.length
                   (get_default "MSFT" []
                      (SignatureManager.get_all_open_positions
                         (SignatureManager.mgr Sample.calm_world))),
                 details))
    /\ mem "MSFT"
         (SignatureManager.get_all_open_positions (SignatureManager.mgr w'))
       = false.
Proof.
  destruct (check_sells_closes_everywhere (fun _ => Sample.env1) "MSFT" 105
              Sample.calm_world (proj1 calm_world_consistent)
              calm_world_well_keyed) as (w' & details & E & _ & M & _).
  - intros sid pos H. vm_compute in H.
    destruct H as [[= <- <-]|[[= <- <-]|[]]]; vm_compute; discriminate.
  - exists w', details. split; [exact E|exact M].
Defined.

Lemma NoDup_app_both {A} (l1 l2 : list A) (x : A) :
  NoDup (l1 ++ l2) -> In x l1 -> In x l2 -> False.
Proof.
  induction l1 as [|a l1 IH]; simpl; intros N H1 H2; [contradiction|].
  inversion N as [|? ? Na Nl]; subst. destruct H1 as [->|H1]; auto.
  apply Na. apply in_or_app. now right.
Qed.

Lemma close_sold_ticker_app (clock : nat -> Env) (ticker : string) (price : Q)
    (l : list (string * Position.t)) :
  forall (pre : list (string * Position.t)) (i : nat)
         (w : SignatureManager.World) (c : nat) (ds : list bt.closed_detail),
    bt.close_sold_ticker clock i ticker price (pre ++ l) w c ds
    = match bt.close_sold_ticker clock i ticker price pre w c ds with
      | (w', Some (c', ds')) =>
          bt.close_sold_ticker clock (List.length pre + i) ticker price l w' c' ds'
      | r => r
      end.
Proof.
  induction pre as [|[sid pos] pre IH]; intros i w c ds;
    cbn [app bt.close_sold_ticker List.length]; auto.
  replace (Datatypes.S (List.length pre) + i)%nat
    with (List.length pre + Datatypes.S i)%nat by lia.
  destruct (SignatureManager.get_by_id (SignatureManager.mgr w) sid)
    as [[sig|] printed]; cbv beta iota zeta; auto.
  destruct (Signature.close_position sig ticker price "sell_signal" (now (clock i)))
    as [[sig' [|]]|]; auto.
  destruct (truediv _ _); auto.
Qed.

(** X16: A listed position with entry price 0 stops the close loop of
    check-sells: when the pairs before it have entry prices that are not
    zero, the loop raises (the division of the report line) at that
    position, after the position was closed with P/L 0 and the ledger saved;
    the pairs after it are still open. *)
Theorem check_sells_zero_entry_raises (clock : nat -> Env) (ticker : string)
    (price : Q) (w : SignatureManager.World)
    (pre rest : list (string * Position.t)) (sid : string) (pos : Position.t) :
  Spec.in_sync (SignatureManager.mgr w) ->
  Spec.well_keyed (SignatureManager.mgr w) ->
  get_default ticker []
    (SignatureManager.get_all_open_positions (SignatureManager.mgr w))
  = (pre ++ (sid, pos) :: rest)%list ->
  (forall s q, In (s, q) pre -> ~ (Position.entry_price q == 0)%Q) ->
  (Position.entry_price pos == 0)%Q ->
  exists w',
    bt.close_sold_ticker clock 0 ticker price (pre ++ (sid, pos) :: rest) w 0 []
    = (w', None)
    /\ (exists sig' p',
          get sid (SignatureManager.signatures (SignatureManager.mgr w')) = Some sig'
          /\ get ticker (Signature.positions sig') = Some p'
          /\ Position.status p' = "closed"
          /\ Position.pnl_pct p' = Some 0%Q)
    /\ (exists stamp,
          SignatureManager.signatures_file w'
          = Complete (values (SignatureManager.signatures (SignatureManager.mgr w')))
                     stamp)
    /\ (forall s q,
          In (s, q) rest ->
          exists sig,
            get s (SignatureManager.signatures (SignatureManager.mgr w')) = Some sig
            /\ get ticker (Signature.positions sig) = Some q
            /\ Signature.is_open q = true).
Proof.
  intros Sy W Et Z Z0.
  pose proof (targets_NoDup _ ticker Sy W) as N. rewrite Et in N.
  assert (forall s q, In (s, q) (pre ++ (sid, pos) :: rest) ->
            exists sig,
              get s (SignatureManager.signatures (SignatureManager.mgr w)) = Some sig
              /\ get ticker (Signature.positions sig) = Some q
              /\ Signature.is_open q = true) as T.
  { intros s q H. rewrite <- Et in H. now apply (targets_stored _ _ _ _ Sy W). }
  rewrite map_app in N. cbn [map fst] in N.
  pose proof (NoDup_remove_2 _ _ _ N) as Nsid.
  pose proof (NoDup_remove_1 _ _ _ N) as Nrest.
  assert (NoDup (map fst pre)) as Npre.
  { apply NoDup_app_remove_r in N. exact N. }
  destruct (close_sold_ticker_all clock ticker price pre 0 w 0 [] Sy Npre)
    as (w1 & ds1 & E & _ & S1 & K & R & _ & _).
  { intros s q H. destruct (T s q) as (sig & A & B & C).
    - apply in_or_app. now left.
    - exists sig. split; [exact A|]. split; [exact B|]. split; [exact C|].
      exact (Z _ _ H). }
  assert (forall s q, In (s, q) ((sid, pos) :: rest) ->
            exists sig,
              get s (SignatureManager.signatures (SignatureManager.mgr w1)) = Some sig
              /\ get ticker (Signature.positions sig) = Some q
              /\ Signature.is_open q = true) as T1.
  { intros s q H. destruct (T s q) as (sig & A & B & C).
    - apply in_or_app. now right.
    - exists sig. split; [|auto]. apply (R _ _ A). intros H'.
      destruct H as [[= <- <-]|H].
      + apply Nsid. apply in_or_app. now left.
      + apply (NoDup_app_both _ _ s Nrest); auto.
        change s with (fst (s, q)). now apply in_map. }
  destruct (T1 sid pos (or_introl eq_refl)) as (sig & Hs & Hp & O).
  assert (Signature.signature_id sig = sid) as Eid.
  { destruct S1 as (_ & _ & _ & I2). now apply I2 in Hs. }
  destruct (close_position_open sig ticker price "sell_signal"
              (now (clock (List.length pre + 0)%nat)) pos Hp) as (p' & Hc & Hcp).
  { unfold Signature.is_open in O. now apply String.eqb_eq in O. }
  rewrite close_sold_ticker_app, E. cbn [bt.close_sold_ticker].
  rewrite (get_by_id_exact _ _ _ Hs). cbv beta iota zeta.
  rewrite Hcp, (truediv_zero _ _ Z0).
  eexists. split; [reflexivity|].
  cbn [SignatureManager.update_signature SignatureManager._save
       SignatureManager.run_effects SignatureManager._save_effects fold_left
       SignatureManager.open_w SignatureManager.json_dump
       SignatureManager.with_signatures_file SignatureManager.with_mgr
       SignatureManager.with_stdout SignatureManager.mgr
       SignatureManager.signatures SignatureManager.signatures_file
       Signature.with_positions Signature.signature_id].
  split; [|split].
  - eexists. exists p'. split; [rewrite Eid; apply get_set_eq|].
    cbn [Signature.positions]. split; [apply get_set_eq|].
    apply closed_not_open in Hc as (A & _ & _ & _ & _ & B). auto.
  - eexists. reflexivity.
  - intros s q H. destruct (T1 s q (or_intror H)) as (g & A & B & C).
    exists g. split; [|auto]. rewrite get_set_neq; auto.
    rewrite Eid. intros <-.
    apply Nsid. apply in_or_app. right.
    change sid with (fst (sid, q)). now apply in_map.
Qed.

Lemma zero_world_consistent : Spec.consistent Sample.zero_world.
Proof.
  apply reachable_consistent. apply reachable_run_ops.
  - apply Spec.reachable_initial.
  - repeat split; intros _; vm_compute; reflexivity.
Qed.

Lemma zero_world_well_keyed :
  Spec.well_keyed (SignatureManager.mgr Sample.zero_world).
Proof.
  apply well_keyed_values. vm_compute.
  repeat first [constructor | (intros K; simpl in K; intuition discriminate)].
Qed.

Lemma check_sells_zero_entry_raises_witness :
  exists w',
    bt.close_sold_ticker (fun _ => Sample.env1) 0 "AAPL" 105
      ([] ++ [("20250101_100000_123e51ef",
               Position.new "AAPL" "strong_buy" 0 "2025-01-01" "open")])
      Sample.zero_world 0 []
    = (w', None).
Proof.
  destruct (check_sells_zero_entry_raises (fun _ => Sample.env1) "AAPL" 105
              Sample.zero_world [] []
              "20250101_100000_123e51ef"
              (Position.new "AAPL" "strong_buy" 0 "2025-01-01" "open")
              (proj1 zero_world_consistent) zero_world_well_keyed)
    as (w' & E & _).
  - vm_compute. reflexivity.
  - intros s q [].
  - reflexivity.
  - exists w'. exact E.
Defined.
